(** * analytiCV: overlay text editing and reconciliation engine

  A shallow embedding of the inline PDF editor of the analytiCV front end:

  - [JsString]       the string primitives the sources rely on
                     ([toLowerCase], [includes], [startsWith], [trim]);
  - [FontMapper]     utils/fontMapper.ts      (font classification);
  - [EditorStorage]  utils/editorStorage.ts   (the localStorage edit record);
  - [EditorApi]      services/editorApi.ts    (extraction merge, remote save);
  - [DocumentCanvas] the DocumentCanvas component (overlay controller);
  - [PdfExport]      utils/pdfExport.ts       (recomposition);
  - [UseEditorState] hooks/useEditorState.ts  (the host page's reducer).

  Conventions.  A JavaScript string is a [string] whose characters are the
  code units U+0000..U+00FF.  A JavaScript number is an IEEE-754 binary64
  [float], so [Math.sqrt], [+], [-] and [*] are the primitive operations.
  A [Map<string, V>] is a [gmap string V].  A plain object used as a
  dictionary is the [gmap] of its own properties; the stored edits are
  written and read through [object_set] and [object_get] of
  [EditorStorage], which account for the members the object inherits from
  [Object.prototype].  Iteration order of a map is not observable in the
  properties below.  Logging is omitted. *)

From Stdlib Require Import String Ascii ZArith List Bool Lia.
From Stdlib Require Import Floats.
From stdpp Require Import gmap strings list fin_maps pretty.

#[local] Open Scope string_scope.
#[local] Open Scope list_scope.
#[local] Set Warnings "-inexact-float".

(* ===================================================================== *)
(** ** JavaScript string primitives *)
(* ===================================================================== *)

Module JsString.

Definition code (c : ascii) : nat := nat_of_ascii c.

Definition in_range (lo hi : nat) (c : ascii) : bool :=
  Nat.leb lo (code c) && Nat.leb (code c) hi.

(** [String.prototype.toLowerCase] on one code unit: A-Z, and the
    Latin-1 capitals U+00C0..U+00DE except the multiplication sign. *)
Definition lower_char (c : ascii) : ascii :=
  if in_range 65 90 c then ascii_of_nat (code c + 32)
  else if in_range 192 222 c && negb (Nat.eqb (code c) 215)
       then ascii_of_nat (code c + 32)
       else c.

Fixpoint toLowerCase (s : string) : string :=
  match s with
  | EmptyString => EmptyString
  | String c s' => String (lower_char c) (toLowerCase s')
  end.

(** [s.startsWith(p)] *)
Fixpoint startsWith (s p : string) : bool :=
  match p, s with
  | EmptyString, _ => true
  | String a p', String b s' => Ascii.eqb a b && startsWith s' p'
  | String _ _, EmptyString => false
  end.

(** [s.includes(p)] *)
Fixpoint includes (s p : string) : bool :=
  startsWith s p ||
  match s with
  | EmptyString => false
  | String _ s' => includes s' p
  end.

(** [patterns.some(pattern => s.includes(pattern))] *)
Definition some_includes (patterns : list string) (s : string) : bool :=
  existsb (includes s) patterns.

(** White space and line terminators of ECMAScript below U+0100:
    TAB, LF, VT, FF, CR, SPACE and NO-BREAK SPACE. *)
Definition is_whitespace (c : ascii) : bool :=
  in_range 9 13 c || Nat.eqb (code c) 32 || Nat.eqb (code c) 160.

Fixpoint trimStart (s : string) : string :=
  match s with
  | EmptyString => EmptyString
  | String c s' => if is_whitespace c then trimStart s' else s
  end.

(** Drops trailing white space: a character is kept when it is not white
    space or when something is kept after it. *)
Fixpoint trimEnd (s : string) : string :=
  match s with
  | EmptyString => EmptyString
  | String c s' =>
      match trimEnd s' with
      | EmptyString => if is_whitespace c then EmptyString else String c EmptyString
      | r => String c r
      end
  end.

(** [s.trim()] *)
Definition trim (s : string) : string := trimEnd (trimStart s).

(** Truthiness of a string: [!s] is [true] exactly for the empty string. *)
Definition truthy (s : string) : bool :=
  match s with EmptyString => false | String _ _ => true end.

Fixpoint all_whitespace (s : string) : bool :=
  match s with
  | EmptyString => true
  | String c s' => is_whitespace c && all_whitespace s'
  end.

(** [p] occurs in [s] as a contiguous substring. *)
Definition Substring (p s : string) : Prop :=
  exists pre post : string, s = pre +:+ p +:+ post.

End JsString.

(* ===================================================================== *)
(** ** utils/fontMapper.ts *)
(* ===================================================================== *)

Module FontMapper.
Import JsString.

Inductive FontCategory := Serif | SansSerif | Monospace | Decorative.
Inductive FontWeight := WeightNormal | WeightBold | WeightLight.
Inductive FontStyle := StyleNormal | StyleItalic | StyleOblique.

(** The fourteen standard fonts of pdf-lib that the mapper can select. *)
Inductive StandardFont :=
| TimesRoman | TimesRomanBold | TimesRomanItalic | TimesRomanBoldItalic
| Helvetica | HelveticaBold | HelveticaOblique | HelveticaBoldOblique
| Courier | CourierBold | CourierOblique | CourierBoldOblique.

Record ParsedFontInfo := {
  category : FontCategory;
  weight : FontWeight;
  style : FontStyle;
  originalName : string;
  displayFont : string;
  pdfLibFont : StandardFont
}.

Definition SERIF_PATTERNS : list string :=
  [ "times"; "georgia"; "garamond"; "palatino"; "cambria"; "book";
    "roman"; "serif"; "minion"; "century"; "caslon"; "baskerville";
    "didot"; "bodoni"; "rockwell"; "clarendon"; "charter"; "merriweather" ].

Definition SANS_SERIF_PATTERNS : list string :=
  [ "arial"; "helvetica"; "verdana"; "tahoma"; "calibri"; "sans";
    "gothic"; "grotesque"; "futura"; "avenir"; "roboto"; "open sans";
    "lato"; "montserrat"; "proxima"; "source sans"; "nunito"; "inter";
    "segoe"; "trebuchet"; "lucida"; "gill"; "optima"; "candara" ].

Definition MONOSPACE_PATTERNS : list string :=
  [ "mono"; "courier"; "consolas"; "menlo"; "code"; "typewriter";
    "source code"; "fira code"; "jetbrains"; "inconsolata" ].

Definition BOLD_PATTERNS : list string :=
  [ "bold"; "heavy"; "black"; "semibold"; "demi"; "medium" ].
Definition ITALIC_PATTERNS : list string :=
  [ "italic"; "oblique"; "slant"; "inclined" ].
Definition LIGHT_PATTERNS : list string :=
  [ "light"; "thin"; "hairline"; "ultralight" ].

Definition is_digit (c : ascii) : bool := in_range 48 57 c.
Definition is_letter (c : ascii) : bool := in_range 97 122 c || in_range 65 90 c.
Definition is_char_ci (lowercase : nat) (c : ascii) : bool :=
  Nat.eqb (code c) lowercase || Nat.eqb (code c) (lowercase - 32).

Fixpoint skip_digits (s : string) : string :=
  match s with
  | EmptyString => EmptyString
  | String c s' => if is_digit c then skip_digits s' else s
  end.

(** [\d+] at the head of [s]: the rest after the longest run of digits, or
    [None] when [s] does not start with a digit.  The character after the
    run is never a digit, so the greedy reading is the only one. *)
Definition digits1 (s : string) : option string :=
  match s with
  | String c s' => if is_digit c then Some (skip_digits s') else None
  | EmptyString => None
  end.

(** [/^[a-z]_d\d+_f\d+$/i.test(s)] *)
Definition generic_regex (s : string) : bool :=
  match s with
  | String c0 (String u1 (String d rest)) =>
      is_letter c0 && Nat.eqb (code u1) 95 && is_char_ci 100 d &&
      match digits1 rest with
      | Some (String u2 (String f rest')) =>
          Nat.eqb (code u2) 95 && is_char_ci 102 f &&
          match digits1 rest' with
          | Some EmptyString => true
          | _ => false
          end
      | _ => false
      end
  | _ => false
  end.

(** The heuristic for the generic names pdf.js gives to subset fonts. *)
Definition is_generic_name (fontName : string) : bool :=
  startsWith fontName "g_" || generic_regex fontName.

Definition detectFontCategory (fontName : string) : FontCategory :=
  let lowerName := toLowerCase fontName in
  if some_includes MONOSPACE_PATTERNS lowerName then Monospace
  else if some_includes SANS_SERIF_PATTERNS lowerName then SansSerif
  else if some_includes SERIF_PATTERNS lowerName then Serif
  else if is_generic_name fontName then Serif
  else SansSerif.

Definition detectFontWeight (fontName : string) : FontWeight :=
  let lowerName := toLowerCase fontName in
  if some_includes BOLD_PATTERNS lowerName then WeightBold
  else if some_includes LIGHT_PATTERNS lowerName then WeightLight
  else WeightNormal.

Definition detectFontStyle (fontName : string) : FontStyle :=
  let lowerName := toLowerCase fontName in
  if some_includes ITALIC_PATTERNS lowerName then StyleItalic
  else StyleNormal.

(** The quotation mark U+0022, as a string. *)
Definition quotation_mark : string := String (ascii_of_nat 34) EmptyString.

(** The CSS font stacks, with the quotation marks around the family names
    of several words. *)
Definition getDisplayFont (category : FontCategory) (originalName : string) : string :=
  match category with
  | Serif =>
      quotation_mark +:+ "Times New Roman" +:+ quotation_mark +:+
      ", Times, Georgia, serif"
  | SansSerif =>
      "Arial, Helvetica, " +:+ quotation_mark +:+ "Segoe UI" +:+ quotation_mark +:+
      ", sans-serif"
  | Monospace =>
      quotation_mark +:+ "Courier New" +:+ quotation_mark +:+
      ", Courier, Consolas, monospace"
  | Decorative => "system-ui, sans-serif"
  end.

Definition is_bold (w : FontWeight) : bool :=
  match w with WeightBold => true | _ => false end.
Definition is_italic (s : FontStyle) : bool :=
  match s with StyleItalic => true | _ => false end.

Definition getPdfLibFont (category : FontCategory) (weight : FontWeight)
    (style : FontStyle) : StandardFont :=
  match category with
  | Serif =>
      if is_bold weight && is_italic style then TimesRomanBoldItalic
      else if is_bold weight then TimesRomanBold
      else if is_italic style then TimesRomanItalic
      else TimesRoman
  | Monospace =>
      if is_bold weight && is_italic style then CourierBoldOblique
      else if is_bold weight then CourierBold
      else if is_italic style then CourierOblique
      else Courier
  | _ =>
      if is_bold weight && is_italic style then HelveticaBoldOblique
      else if is_bold weight then HelveticaBold
      else if is_italic style then HelveticaOblique
      else Helvetica
  end.

Definition parsePdfFont (pdfJsFontName : string) : ParsedFontInfo :=
  let category := detectFontCategory pdfJsFontName in
  let weight := detectFontWeight pdfJsFontName in
  let style := detectFontStyle pdfJsFontName in
  {| category := category;
     weight := weight;
     style := style;
     originalName := pdfJsFontName;
     displayFont := getDisplayFont category pdfJsFontName;
     pdfLibFont := getPdfLibFont category weight style |}.

(** [getFontInfo] with its process-wide memo table made explicit. *)
Definition getFontInfo (fontCache : gmap string ParsedFontInfo)
    (pdfJsFontName : string) : ParsedFontInfo * gmap string ParsedFontInfo :=
  match fontCache !! pdfJsFontName with
  | Some info => (info, fontCache)
  | None =>
      let fontInfo := parsePdfFont pdfJsFontName in
      (fontInfo, <[pdfJsFontName := fontInfo]> fontCache)
  end.

Definition getFontWeightValue (w : FontWeight) : Z :=
  match w with WeightBold => 700 | WeightLight => 300 | WeightNormal => 400 end.

Definition getFontStyleValue (s : FontStyle) : string :=
  match s with StyleNormal => "normal" | _ => "italic" end.

End FontMapper.

(* ===================================================================== *)
(** ** utils/editorStorage.ts *)
(* ===================================================================== *)

Module EditorStorage.
Import JsString.

(** [BlockUpdate] of services/editorApi.ts. *)
Record BlockUpdate := {
  blockId : string;
  oldText : string;
  newText : string;
  section : option string
}.

(** The four localStorage items of [STORAGE_KEYS].  [ls_edits] is the
    object whose JSON text is stored under EDITS ([JSON.parse] of
    [JSON.stringify] gives the same dictionary back), [ls_timestamp] the
    number whose decimal text is stored under TIMESTAMP; the other two are
    the stored strings themselves.  [None] is a missing item.  The store
    holds only what the functions below wrote, so neither [JSON.parse] nor
    [setItem] throws. *)
Record LocalStorage := {
  ls_edits : option (gmap string string);
  ls_timestamp : option Z;
  ls_pdf_name : option string;
  ls_dirty : option string
}.

Definition empty_storage : LocalStorage :=
  {| ls_edits := None; ls_timestamp := None; ls_pdf_name := None; ls_dirty := None |}.

Record StoredEdits := {
  edits : gmap string string;
  timestamp : Z;
  pdfName : string;
  isDirty : bool
}.

(** [String(b)] for a boolean. *)
Definition string_of_bool (b : bool) : string := if b then "true" else "false".

Definition getStoredEdits (ls : LocalStorage) : option StoredEdits :=
  match ls_edits ls, ls_timestamp ls, ls_pdf_name ls with
  | Some e, Some t, Some n =>
      if truthy n then
        Some {| edits := e; timestamp := t; pdfName := n;
                isDirty := bool_decide (ls_dirty ls = Some "true") |}
      else None
  | _, _, _ => None
  end.

(** The edits are held in a plain object (made by an object literal or by
    [JSON.parse]); the dictionary is that of its own properties, and the
    object's prototype is [Object.prototype], whose members these are. *)
Definition OBJECT_PROTOTYPE_MEMBERS : list string :=
  [ "constructor"; "__defineGetter__"; "__defineSetter__"; "hasOwnProperty";
    "__lookupGetter__"; "__lookupSetter__"; "isPrototypeOf";
    "propertyIsEnumerable"; "toString"; "valueOf"; "__proto__";
    "toLocaleString" ].

(** [o[k] = v] for a string [v].  The assignment makes or changes the own
    property [k]; only for the name [__proto__], when [o] has no own
    property of that name, it reaches the setter inherited from
    [Object.prototype], which ignores a value that is neither an object nor
    [null], so that nothing is stored. *)
Definition object_set (k v : string) (o : gmap string string) : gmap string string :=
  if String.eqb k "__proto__" && bool_decide (o !! k = None) then o
  else <[k := v]> o.

(** A value that the code passes on as a text: a string or, when a read
    [o[k]] found no own property but a member of [Object.prototype], that
    member (a function, or the prototype itself for [__proto__]). *)
Inductive JsValue :=
| JsText (t : string)
| JsMember (name : string).

Coercion JsText : string >-> JsValue.

(** [o[k]]: the own property, else the inherited member, else
    [undefined]. *)
Definition object_get (o : gmap string string) (k : string) : option JsValue :=
  match o !! k with
  | Some t => Some (JsText t)
  | None =>
      if bool_decide (k ∈ OBJECT_PROTOTYPE_MEMBERS) then Some (JsMember k) else None
  end.

(** [for (const update of updates) edits[update.blockId] = update.newText] *)
Definition merge_updates (updates : list BlockUpdate) (e : gmap string string)
    : gmap string string :=
  fold_left (fun acc u => object_set (blockId u) (newText u) acc) updates e.

(** [saveEditsToStorage(updates, pdfName, markDirty)]; [now] is the value
    [Date.now()] returns. *)
Definition saveEditsToStorage (updates : list BlockUpdate) (name : string)
    (markDirty : bool) (now : Z) (ls : LocalStorage) : LocalStorage :=
  let existing := getStoredEdits ls in
  let edits0 : gmap string string :=
    match existing with
    | Some ex => if String.eqb (pdfName ex) name then edits ex else ∅
    | None => ∅
    end in
  let edits1 := merge_updates updates edits0 in
  {| ls_edits := Some edits1;
     ls_timestamp := Some now;
     ls_pdf_name := Some name;
     ls_dirty := Some (string_of_bool markDirty) |}.

Definition markEditsSynced (now : Z) (ls : LocalStorage) : LocalStorage :=
  {| ls_edits := ls_edits ls;
     ls_timestamp := Some now;
     ls_pdf_name := ls_pdf_name ls;
     ls_dirty := Some "false" |}.

Definition markEditsDirty (ls : LocalStorage) : LocalStorage :=
  {| ls_edits := ls_edits ls;
     ls_timestamp := ls_timestamp ls;
     ls_pdf_name := ls_pdf_name ls;
     ls_dirty := Some "true" |}.

Definition hasDirtyEdits (name : string) (ls : LocalStorage) : bool :=
  match getStoredEdits ls with
  | Some st => String.eqb (pdfName st) name && isDirty st
  | None => false
  end.

Definition hasNewerEdits (name : string) (compareTimestamp : Z)
    (ls : LocalStorage) : bool :=
  match getStoredEdits ls with
  | Some st =>
      if String.eqb (pdfName st) name then Z.ltb compareTimestamp (timestamp st)
      else false
  | None => false
  end.

Definition getEditsForPdf (name : string) (ls : LocalStorage)
    : option (gmap string string) :=
  match getStoredEdits ls with
  | Some st => if String.eqb (pdfName st) name then Some (edits st) else None
  | None => None
  end.

Definition clearStoredEdits (ls : LocalStorage) : LocalStorage := empty_storage.

Definition clearEditsFromStorage (ls : LocalStorage) : LocalStorage :=
  clearStoredEdits ls.

Definition clearEditsForPdf (name : string) (ls : LocalStorage) : LocalStorage :=
  match getStoredEdits ls with
  | Some st => if String.eqb (pdfName st) name then clearStoredEdits ls else ls
  | None => ls
  end.

(** [mergeWithStoredEdits(blockId, originalText, pdfName)]: what
    [stored.edits[blockId]] gives, unless that is [undefined]. *)
Definition mergeWithStoredEdits (id originalText name : string)
    (ls : LocalStorage) : JsValue :=
  match getStoredEdits ls with
  | Some st =>
      if String.eqb (pdfName st) name then
        match object_get (edits st) id with
        | Some savedText => savedText
        | None => JsText originalText
        end
      else JsText originalText
  | None => JsText originalText
  end.

End EditorStorage.

(* ===================================================================== *)
(** ** types/editor.ts *)
(* ===================================================================== *)

Module EditorTypes.

Inductive BlockType := Header | Paragraph | Bullet | Contact | DateEntry.

Record TextBlock := {
  id : string;
  text : string;
  x : float;
  y : float;
  width : float;
  height : float;
  page : Z;
  font_size : float;
  font_name : string;
  block_type : BlockType;
  section : option string
}.

Definition with_text (b : TextBlock) (t : string) : TextBlock :=
  {| id := id b; text := t; x := x b; y := y b; width := width b;
     height := height b; page := page b; font_size := font_size b;
     font_name := font_name b; block_type := block_type b;
     section := section b |}.

Record PageInfo := {
  page_number : Z;
  page_width : float;
  page_height : float;
  width_mm : float;
  height_mm : float
}.

Record PDFExtractionResult := {
  pages : list PageInfo;
  blocks : list TextBlock;
  sections : gmap string (list TextBlock);
  total_pages : Z;
  filename : string
}.

Definition with_blocks (r : PDFExtractionResult) (bs : list TextBlock)
    : PDFExtractionResult :=
  {| pages := pages r; blocks := bs; sections := sections r;
     total_pages := total_pages r; filename := filename r |}.

Inductive Severity := Low | Medium | High.

Record BlockWeakness := {
  weak_id : string;
  weak_section : option string;
  issue : string;
  suggestion : string;
  severity : Severity;
  improved_text : option string
}.

Record EditableBlockState := {
  state_id : string;
  originalText : string;
  currentText : string;
  isEditing : bool;
  isDirty : bool;
  weakness : option BlockWeakness
}.

End EditorTypes.

(* ===================================================================== *)
(** ** services/editorApi.ts *)
(* ===================================================================== *)

Module EditorApi.
Import JsString EditorStorage EditorTypes.

(** [a || b] on a possibly missing string. *)
Definition or_else (a : option string) (b : string) : string :=
  match a with
  | Some s => if truthy s then s else b
  | None => b
  end.

(** [blocks.map(block => edits[block.id] ? {...block, text: edits[block.id]} : block)].
    The dictionary is that of the own properties of [edits], and the read
    is modelled for them: a block whose id has no entry keeps its text.
    (If such an id were the name of a member of [Object.prototype], the
    read would find that member and the code would put it in the place of
    the text; a [TextBlock] with a text that is no string is outside this
    model.) *)
Definition apply_edits (e : gmap string string) (bs : list TextBlock)
    : list TextBlock :=
  map (fun b =>
         match e !! id b with
         | Some t => if truthy t then with_text b t else b
         | None => b
         end) bs.

(** What the POST to /api/extract-pdf-blocks answered. *)
Inductive ExtractResponse :=
| ExtractHttpError (detail : option string)
| ExtractBody (success : bool) (data : PDFExtractionResult).

(** What the GET of /api/get-edits/current_resume answers: no usable
    answer (the fetch failed or the status was not ok), or a body whose
    [edits] member may be missing. *)
Inductive EditsResponse :=
| EditsUnavailable
| EditsBody (saved : option (gmap string string)).

Definition saved_edits (r : EditsResponse) : option (gmap string string) :=
  match r with
  | EditsUnavailable => None
  | EditsBody saved => Some (default ∅ saved)
  end.

(** [extractPDFBlocks(file)].  [remote] is the answer the backend gives to
    the request of step 3; it is consulted only when that step is reached.
    The result is the thrown message or the extraction result. *)
Definition extractPDFBlocks (fileName : string) (resp : ExtractResponse)
    (ls : LocalStorage) (remote : EditsResponse)
    : string + PDFExtractionResult :=
  match resp with
  | ExtractHttpError detail => inl (or_else detail "Failed to extract PDF blocks")
  | ExtractBody false _ => inl "PDF extraction failed"
  | ExtractBody true data =>
      let step3 :=
        match saved_edits remote with
        | Some savedEdits =>
            if Nat.ltb 0 (size savedEdits)
            then with_blocks data (apply_edits savedEdits (blocks data))
            else data
        | None => data
        end in
      match getStoredEdits ls with
      | Some storedEdits =>
          if String.eqb (pdfName storedEdits) fileName && EditorStorage.isDirty storedEdits
          then inr (with_blocks data (apply_edits (edits storedEdits) (blocks data)))
          else inr step3
      | None => inr step3
      end
  end.

(** [mergeCurrentEditsIntoBlocks(blocks)] *)
Definition mergeCurrentEditsIntoBlocks (bs : list TextBlock)
    (ls : LocalStorage) (remote : EditsResponse) : list TextBlock :=
  let priority2 :=
    match saved_edits remote with
    | Some savedEdits =>
        if Nat.ltb 0 (size savedEdits) then apply_edits savedEdits bs else bs
    | None => bs
    end in
  match getStoredEdits ls with
  | Some storedEdits =>
      if EditorStorage.isDirty storedEdits && Nat.ltb 0 (size (edits storedEdits))
      then apply_edits (edits storedEdits) bs
      else priority2
  | None => priority2
  end.

Record ATSBreakdownItem := {
  label : string;
  score : float;
  max_score : float;
  percentage : float
}.

Record ATSScoreDetails := {
  total_score : float;
  grade : string;
  breakdown : list ATSBreakdownItem
}.

Record UpdateResumeResponse := {
  success : bool;
  message : string;
  atsScore : option float;
  atsScoreDetails : option ATSScoreDetails;
  updatedBlocks : option (list string)
}.

Inductive ErrorCode := NETWORK_ERROR | SERVER_ERROR | VALIDATION_ERROR | UNKNOWN_ERROR.

Record SaveError := {
  error_message : string;
  error_code : ErrorCode;
  error_details : option string
}.

(** [list.join(sep)] *)
Fixpoint join (sep : string) (l : list string) : string :=
  match l with
  | [] => ""
  | [s] => s
  | s :: rest => s +:+ sep +:+ join sep rest
  end.

Definition getRequestKey (bs : list BlockUpdate) : string :=
  join "|" (map (fun b => blockId b +:+ ":" +:+ newText b) bs).

(** The body of a response whose status is not ok: JSON with optional
    [detail] and [message] members, or text that is not JSON. *)
Inductive ErrorBody :=
| ErrorJson (detail : option string) (msg : option string)
| ErrorNotJson (statusText : string).

(** How one POST to /api/update-resume ends. *)
Inductive Reply :=
| HttpOk (result : UpdateResumeResponse)
| HttpError (status : Z) (body : ErrorBody)
| NetworkFailure
| OtherError (msg : string).

(** An exchange answers after [latency] milliseconds. *)
Record Exchange := {
  latency : Z;
  reply : Reply
}.

(** The environment of the save path: the module-level [pendingRequests]
    table (the keys that have a promise registered), the backend (how the
    n-th POST ends), the payloads posted so far, the localStorage items and
    the clock read by [Date.now()]. *)
Record World := {
  pendingRequests : gset string;
  network : nat -> Exchange;
  sent : list (list BlockUpdate);
  storage : LocalStorage;
  clock : Z
}.

Definition set_pending (p : gset string) (w : World) : World :=
  {| pendingRequests := p; network := network w; sent := sent w;
     storage := storage w; clock := clock w |}.

Definition set_storage (ls : LocalStorage) (w : World) : World :=
  {| pendingRequests := pendingRequests w; network := network w;
     sent := sent w; storage := ls; clock := clock w |}.

(** The outcome of one [fetch] under an [AbortController] that fires after
    [timeout] milliseconds. *)
Inductive FetchOutcome :=
| Aborted
| Replied (r : Reply).

Definition fetch (timeout : Z) (payload : list BlockUpdate) (w : World)
    : FetchOutcome * World :=
  let ex := network w (length (sent w)) in
  let w' := {| pendingRequests := pendingRequests w; network := network w;
               sent := sent w ++ [payload]; storage := storage w;
               clock := clock w |} in
  (if Z.leb timeout (latency ex) then Aborted else Replied (reply ex), w').

(** What the promise returned by [updateResumeBlocks] is: resolved,
    rejected, or the promise that was already registered under a key. *)
Inductive SaveResult :=
| Resolved (r : UpdateResumeResponse)
| Rejected (e : SaveError)
| ExistingRequest (key : string).

Definition no_changes : UpdateResumeResponse :=
  {| success := true; message := "No changes to save"; atsScore := None;
     atsScoreDetails := None; updatedBlocks := None |}.

Definition http_error (status : Z) (body : ErrorBody) : SaveError :=
  let fallback := "Failed to save changes" in
  let errorMessage :=
    match body with
    | ErrorJson detail msg => or_else detail (or_else msg fallback)
    | ErrorNotJson statusText => or_else (Some statusText) fallback
    end in
  let details := Some ("HTTP " +:+ pretty status) in
  if Z.eqb status 404 then
    {| error_message := "Save endpoint not found. Make sure backend is running on http://localhost:8000";
       error_code := SERVER_ERROR; error_details := details |}
  else if Z.eqb status 422 then
    {| error_message := errorMessage; error_code := VALIDATION_ERROR;
       error_details := details |}
  else
    {| error_message := errorMessage; error_code := SERVER_ERROR;
       error_details := details |}.

Definition timed_out : SaveError :=
  {| error_message := "Request timed out. Please try again.";
     error_code := NETWORK_ERROR; error_details := None |}.

Definition network_error : SaveError :=
  {| error_message := "Network error. Make sure backend is running on http://localhost:8000";
     error_code := NETWORK_ERROR; error_details := None |}.

(** [updateResumeBlocks(blocks, {retry, timeout})].  The recursion is the
    source's own ([retry - 1] on a network failure, after the backoff of
    1000 ms).  The recursive call is made inside the [catch] block, before
    the [finally] block removes the key, so it runs while [requestKey] is
    still registered. *)
Fixpoint updateResumeBlocks (retry : nat) (timeout : Z)
    (bs : list BlockUpdate) (w : World) : SaveResult * World :=
  match bs with
  | [] => (Resolved no_changes, w)
  | _ :: _ =>
      let requestKey := getRequestKey bs in
      if decide (requestKey ∈ pendingRequests w) then
        (ExistingRequest requestKey, w)
      else
        let '(outcome, w1) := fetch timeout bs w in
        let w2 := set_pending ({[requestKey]} ∪ pendingRequests w1) w1 in
        let '(result, w3) :=
          match outcome with
          | Replied (HttpOk r) =>
              (Resolved r,
               set_storage
                 (markEditsSynced (clock w2)
                    (saveEditsToStorage bs "current_resume" false (clock w2)
                       (storage w2))) w2)
          | Replied (HttpError status body) =>
              (Rejected (http_error status body), w2)
          | Aborted => (Rejected timed_out, w2)
          | Replied NetworkFailure =>
              match retry with
              | S retry' => updateResumeBlocks retry' timeout bs w2
              | O => (Rejected network_error, w2)
              end
          | Replied (OtherError msg) =>
              (Rejected {| error_message := msg; error_code := UNKNOWN_ERROR;
                           error_details := None |}, w2)
          end in
        (result, set_pending (pendingRequests w3 ∖ {[requestKey]}) w3)
  end.

(** The defaults of the options object: [retry = 1], [timeout = 10000]. *)
Definition default_retry : nat := 1.
Definition default_timeout : Z := 10000.

Definition is_valid_update (b : BlockUpdate) : bool :=
  negb (String.eqb (oldText b) (newText b)) &&
  Nat.ltb 0 (String.length (trim (newText b))).

Definition batchUpdateBlocks (bs : list BlockUpdate) (w : World)
    : SaveResult * World :=
  let validBlocks := List.filter is_valid_update bs in
  match validBlocks with
  | [] => (Resolved no_changes, w)
  | _ :: _ => updateResumeBlocks default_retry default_timeout validBlocks w
  end.

Definition clearPendingRequests (w : World) : World := set_pending ∅ w.

End EditorApi.

(* ===================================================================== *)
(** ** The DocumentCanvas component (overlay controller) *)
(* ===================================================================== *)

Module DocumentCanvas.
Import JsString EditorStorage.

Record ResumeBlock := {
  id : string;
  text : string;
  section : string;
  spanIndex : nat;
  x : float;
  y : float;
  width : float;
  height : float;
  fontSize : float;
  fontFamily : string;
  isEdited : bool
}.

(** An affine transform [[a, b, c, d, e, f]] as pdf.js passes it around. *)
Record Matrix := {
  ma : float; mb : float; mc : float; md : float; me : float; mf : float
}.

Record TextItem := {
  str : string;
  dir : string;
  transform : Matrix;
  item_width : float;
  item_height : float;
  fontName : string;
  hasEOL : bool
}.

(** An entry of [textContent.items]: a text run, or a marked-content entry
    (one without a [str] member). *)
Inductive ContentItem :=
| TextRun (t : TextItem)
| MarkedContent.

Inductive Key := Enter | Escape | OtherKey.

(** The refs and the part of the DOM the component works on.  A span is
    named by the id of its block ([data-block-id]); [blocks] stands for
    both [blockMapRef] and [blocksByIdRef], which are filled and cleared
    together and hold the same block objects.  [spanText] is the
    [textContent] of each span, [focused] the span that has the focus. *)
Record Canvas := {
  isLocked : bool;
  updatedBlocks : option (gmap string string);
  blocks : gmap string ResumeBlock;
  spanText : gmap string string;
  focused : option string;
  pendingChanges : gset string;
  pendingSaves : gmap string BlockUpdate;
  originalTextRef : gmap string string;
  isSaving : bool;
  hasPendingChanges : bool;
  storage : LocalStorage;
  clock : Z;
  textChanges : list (string * string * string)
}.

Definition init : Canvas :=
  {| isLocked := false; updatedBlocks := None; blocks := ∅; spanText := ∅;
     focused := None; pendingChanges := ∅; pendingSaves := ∅;
     originalTextRef := ∅; isSaving := false; hasPendingChanges := false;
     storage := empty_storage; clock := 0; textChanges := [] |}.

Definition set_isLocked (v : bool) (s : Canvas) : Canvas :=
  {| isLocked := v; updatedBlocks := updatedBlocks s; blocks := blocks s;
     spanText := spanText s; focused := focused s;
     pendingChanges := pendingChanges s; pendingSaves := pendingSaves s;
     originalTextRef := originalTextRef s; isSaving := isSaving s;
     hasPendingChanges := hasPendingChanges s; storage := storage s;
     clock := clock s; textChanges := textChanges s |}.

Definition set_updatedBlocks (v : option (gmap string string)) (s : Canvas) : Canvas :=
  {| isLocked := isLocked s; updatedBlocks := v; blocks := blocks s;
     spanText := spanText s; focused := focused s;
     pendingChanges := pendingChanges s; pendingSaves := pendingSaves s;
     originalTextRef := originalTextRef s; isSaving := isSaving s;
     hasPendingChanges := hasPendingChanges s; storage := storage s;
     clock := clock s; textChanges := textChanges s |}.

Definition set_blocks (v : gmap string ResumeBlock) (s : Canvas) : Canvas :=
  {| isLocked := isLocked s; updatedBlocks := updatedBlocks s; blocks := v;
     spanText := spanText s; focused := focused s;
     pendingChanges := pendingChanges s; pendingSaves := pendingSaves s;
     originalTextRef := originalTextRef s; isSaving := isSaving s;
     hasPendingChanges := hasPendingChanges s; storage := storage s;
     clock := clock s; textChanges := textChanges s |}.

Definition set_spanText (v : gmap string string) (s : Canvas) : Canvas :=
  {| isLocked := isLocked s; updatedBlocks := updatedBlocks s;
     blocks := blocks s; spanText := v; focused := focused s;
     pendingChanges := pendingChanges s; pendingSaves := pendingSaves s;
     originalTextRef := originalTextRef s; isSaving := isSaving s;
     hasPendingChanges := hasPendingChanges s; storage := storage s;
     clock := clock s; textChanges := textChanges s |}.

Definition set_focused (v : option string) (s : Canvas) : Canvas :=
  {| isLocked := isLocked s; updatedBlocks := updatedBlocks s;
     blocks := blocks s; spanText := spanText s; focused := v;
     pendingChanges := pendingChanges s; pendingSaves := pendingSaves s;
     originalTextRef := originalTextRef s; isSaving := isSaving s;
     hasPendingChanges := hasPendingChanges s; storage := storage s;
     clock := clock s; textChanges := textChanges s |}.

Definition set_pendingChanges (v : gset string) (s : Canvas) : Canvas :=
  {| isLocked := isLocked s; updatedBlocks := updatedBlocks s;
     blocks := blocks s; spanText := spanText s; focused := focused s;
     pendingChanges := v; pendingSaves := pendingSaves s;
     originalTextRef := originalTextRef s; isSaving := isSaving s;
     hasPendingChanges := hasPendingChanges s; storage := storage s;
     clock := clock s; textChanges := textChanges s |}.

Definition set_pendingSaves (v : gmap string BlockUpdate) (s : Canvas) : Canvas :=
  {| isLocked := isLocked s; updatedBlocks := updatedBlocks s;
     blocks := blocks s; spanText := spanText s; focused := focused s;
     pendingChanges := pendingChanges s; pendingSaves := v;
     originalTextRef := originalTextRef s; isSaving := isSaving s;
     hasPendingChanges := hasPendingChanges s; storage := storage s;
     clock := clock s; textChanges := textChanges s |}.

Definition set_originalTextRef (v : gmap string string) (s : Canvas) : Canvas :=
  {| isLocked := isLocked s; updatedBlocks := updatedBlocks s;
     blocks := blocks s; spanText := spanText s; focused := focused s;
     pendingChanges := pendingChanges s; pendingSaves := pendingSaves s;
     originalTextRef := v; isSaving := isSaving s;
     hasPendingChanges := hasPendingChanges s; storage := storage s;
     clock := clock s; textChanges := textChanges s |}.

Definition set_isSaving (v : bool) (s : Canvas) : Canvas :=
  {| isLocked := isLocked s; updatedBlocks := updatedBlocks s;
     blocks := blocks s; spanText := spanText s; focused := focused s;
     pendingChanges := pendingChanges s; pendingSaves := pendingSaves s;
     originalTextRef := originalTextRef s; isSaving := v;
     hasPendingChanges := hasPendingChanges s; storage := storage s;
     clock := clock s; textChanges := textChanges s |}.

Definition set_hasPendingChanges (v : bool) (s : Canvas) : Canvas :=
  {| isLocked := isLocked s; updatedBlocks := updatedBlocks s;
     blocks := blocks s; spanText := spanText s; focused := focused s;
     pendingChanges := pendingChanges s; pendingSaves := pendingSaves s;
     originalTextRef := originalTextRef s; isSaving := isSaving s;
     hasPendingChanges := v; storage := storage s;
     clock := clock s; textChanges := textChanges s |}.

Definition set_storage (v : LocalStorage) (s : Canvas) : Canvas :=
  {| isLocked := isLocked s; updatedBlocks := updatedBlocks s;
     blocks := blocks s; spanText := spanText s; focused := focused s;
     pendingChanges := pendingChanges s; pendingSaves := pendingSaves s;
     originalTextRef := originalTextRef s; isSaving := isSaving s;
     hasPendingChanges := hasPendingChanges s; storage := v;
     clock := clock s; textChanges := textChanges s |}.

Definition set_clock (v : Z) (s : Canvas) : Canvas :=
  {| isLocked := isLocked s; updatedBlocks := updatedBlocks s;
     blocks := blocks s; spanText := spanText s; focused := focused s;
     pendingChanges := pendingChanges s; pendingSaves := pendingSaves s;
     originalTextRef := originalTextRef s; isSaving := isSaving s;
     hasPendingChanges := hasPendingChanges s; storage := storage s;
     clock := v; textChanges := textChanges s |}.

Definition set_textChanges (v : list (string * string * string)) (s : Canvas) : Canvas :=
  {| isLocked := isLocked s; updatedBlocks := updatedBlocks s;
     blocks := blocks s; spanText := spanText s; focused := focused s;
     pendingChanges := pendingChanges s; pendingSaves := pendingSaves s;
     originalTextRef := originalTextRef s; isSaving := isSaving s;
     hasPendingChanges := hasPendingChanges s; storage := storage s;
     clock := clock s; textChanges := v |}.

(** [span.textContent || ''] *)
Definition textContent (s : Canvas) (span : string) : string :=
  default "" (spanText s !! span).

(** [getResolvedText(blockId, originalText)]: the backend-saved blocks
    handed down by the parent (a [Map]), then localStorage, then the PDF
    text.  The stored edits are read at ids that [renderPage] made
    ([block_id]), none of which names a member of [Object.prototype], so
    that the read finds an own property or nothing. *)
Definition getResolvedText (updated : option (gmap string string))
    (ls : LocalStorage) (blockId originalText : string) : string :=
  match updated ≫= (fun m => m !! blockId) with
  | Some t => t
  | None =>
      match getStoredEdits ls with
      | Some storedEdits =>
          match edits storedEdits !! blockId with
          | Some t => if truthy t then t else originalText
          | None => originalText
          end
      | None => originalText
      end
  end.

(** [Array.from(pendingSavesRef.current.values())] *)
Definition pending_updates (s : Canvas) : list BlockUpdate :=
  (map_to_list (pendingSaves s)).*2.

(** [saveChanges] up to its [await]: either it returns at once, or the
    pending updates are handed to the save callback and the flush is in
    flight. *)
Inductive FlushStart :=
| FlushDone (result : bool)
| FlushInFlight (updates : list BlockUpdate).

Definition saveChanges_begin (s : Canvas) : FlushStart * Canvas :=
  if Nat.eqb (size (pendingSaves s)) 0 || isSaving s then (FlushDone true, s)
  else (FlushInFlight (pending_updates s), set_isSaving true s).

(** [saveChanges] after its [await]: [ok] tells whether [Promise.all]
    resolved. *)
Definition saveChanges_settle (ok : bool) (s : Canvas) : bool * Canvas :=
  if ok then
    (true,
     set_isSaving false
       (set_hasPendingChanges false
          (set_pendingChanges ∅ (set_pendingSaves ∅ s))))
  else (false, set_isSaving false s).

(** [saveChanges()] run to completion with nothing interleaved.
    [saveCallback] is [onBlockSaveRef.current]: absent, or a callback whose
    promise resolves ([true]) or rejects ([false]) for each update.  The
    second component lists the updates the callback was called with.  The
    state returned is what the function's own assignments make of [s].
    What a callback does besides settling (the host's callback posts the
    update and, when that succeeds, rewrites the stored edits) happens while
    the function awaits and is no assignment of this function; in a session
    it is a step of its own ([reach_storage]). *)
Definition saveChanges (saveCallback : option (BlockUpdate -> bool))
    (s : Canvas) : bool * list BlockUpdate * Canvas :=
  match saveChanges_begin s with
  | (FlushDone r, s') => (r, [], s')
  | (FlushInFlight updates, s') =>
      match saveCallback with
      | Some cb =>
          let '(r, s'') := saveChanges_settle (forallb cb updates) s' in
          (r, updates, s'')
      | None =>
          let '(r, s'') := saveChanges_settle true s' in
          (r, [], s'')
      end
  end.

Definition queueBlockSave (blockId oldText newText : string)
    (section : option string) (s : Canvas) : Canvas :=
  if String.eqb oldText newText then s
  else
    set_hasPendingChanges true
      (set_pendingChanges ({[blockId]} ∪ pendingChanges s)
         (set_pendingSaves
            (<[blockId := Build_BlockUpdate blockId oldText newText section]>
               (pendingSaves s)) s)).

(** The imperative handle. *)
Definition getCurrentBlocks (s : Canvas) : list ResumeBlock :=
  (map_to_list (blocks s)).*2.
Definition handle_hasPendingChanges (s : Canvas) : bool :=
  Nat.ltb 0 (size (pendingSaves s)).
Definition getPendingChanges (s : Canvas) : list BlockUpdate := pending_updates s.

Definition commit_text (b : ResumeBlock) (newText : string) : ResumeBlock :=
  {| id := id b; text := newText; section := section b;
     spanIndex := spanIndex b; x := x b; y := y b; width := width b;
     height := height b; fontSize := fontSize b;
     fontFamily := fontFamily b; isEdited := true |}.

(** The branch of [handleBlur] taken when the text has changed: the block
    object is updated, the edit is written through to localStorage, the
    remote save is queued and the host is told. *)
Definition commit_edit (span : string) (block : ResumeBlock)
    (originalText newText : string) (s : Canvas) : Canvas :=
  let block' := commit_text block newText in
  let s1 := set_blocks (<[span := block']> (blocks s)) s in
  let s2 := set_originalTextRef (<[id block := newText]> (originalTextRef s1)) s1 in
  let s3 :=
    set_storage
      (markEditsDirty
         (saveEditsToStorage
            [Build_BlockUpdate (id block) originalText newText (Some (section block))]
            "current_resume" true (clock s2) (storage s2))) s2 in
  let s4 := queueBlockSave (id block) originalText newText (Some (section block)) s3 in
  set_textChanges (textChanges s4 ++ [(id block, originalText, newText)]) s4.

(** [handleBlur] for the span [span] (inline styles are not modelled). *)
Definition handleBlur (span : string) (s : Canvas) : Canvas :=
  match blocks s !! span with
  | None => s
  | Some block =>
      let newText := textContent s span in
      let originalText :=
        match originalTextRef s !! id block with
        | Some o => if truthy o then o else text block
        | None => text block
        end in
      if String.eqb newText originalText then s
      else commit_edit span block originalText newText s
  end.

(** [span.blur()]: the focus leaves [span] and its focusout handler runs;
    nothing happens when [span] does not have the focus. *)
Definition dom_blur (span : string) (s : Canvas) : Canvas :=
  if decide (focused s = Some span) then handleBlur span (set_focused None s)
  else s.

Definition handleFocus (span : string) (s : Canvas) : Canvas :=
  if isLocked s then dom_blur span s
  else
    match blocks s !! span with
    | None => s
    | Some block =>
        set_originalTextRef
          (<[id block := textContent s span]> (originalTextRef s)) s
    end.

(** The focus moves to [span]: the span that had it is blurred first. *)
Definition dom_focus (span : string) (s : Canvas) : Canvas :=
  if decide (focused s = Some span) then s
  else
    let s1 := match focused s with
              | Some other => dom_blur other s
              | None => s
              end in
    handleFocus span (set_focused (Some span) s1).

(** [handleTextMutation] for mutation records whose targets are the spans
    [targets]. *)
Definition handleTextMutation (targets : list string) (s : Canvas) : Canvas :=
  fold_left
    (fun acc span =>
       match blocks acc !! span with
       | None => acc
       | Some block =>
           if String.eqb (textContent acc span) (text block) then acc
           else set_pendingChanges ({[id block]} ∪ pendingChanges acc) acc
       end) targets s.

(** The user changes the text of [span] to [t]; the observer then sees the
    mutation. *)
Definition typeText (span t : string) (s : Canvas) : Canvas :=
  handleTextMutation [span] (set_spanText (<[span := t]> (spanText s)) s).

Definition handleKeyDown (key : Key) (shiftKey : bool) (span : string)
    (s : Canvas) : Canvas :=
  if isLocked s then s
  else
    match blocks s !! span with
    | None => s
    | Some block =>
        let s1 := match key with
                  | Enter => if negb shiftKey then dom_blur span s else s
                  | _ => s
                  end in
        match key with
        | Escape =>
            let s2 := match originalTextRef s1 !! id block with
                      | Some originalText =>
                          set_spanText (<[span := originalText]> (spanText s1)) s1
                      | None => s1
                      end in
            dom_blur span s2
        | _ => s1
        end
    end.

(** A keydown event on [span]: the handler, then the mutation record of
    the text the handler wrote, if it wrote any. *)
Definition keydown (key : Key) (shiftKey : bool) (span : string)
    (s : Canvas) : Canvas :=
  let s' := handleKeyDown key shiftKey span s in
  match key, blocks s !! span with
  | Escape, Some block =>
      if negb (isLocked s) && bool_decide (is_Some (originalTextRef s !! id block))
      then handleTextMutation [span] s'
      else s'
  | _, _ => s'
  end.

(** The section keyword scan of [renderPage]. *)
Definition guess_section (textLower sectionGuess : string) : string :=
  if includes textLower "experience" || includes textLower "work" then "experience"
  else if includes textLower "education" then "education"
  else if includes textLower "skill" then "skills"
  else if includes textLower "project" then "projects"
  else if includes textLower "summary" || includes textLower "objective" then "summary"
  else sectionGuess.

(** [`block-${pageNumber}-${index}`] *)
Definition block_id (pageNumber index : nat) : string :=
  "block-" +:+ pretty pageNumber +:+ "-" +:+ pretty index.

(** The body of the [forEach] callback of [renderPage] for a text run that
    is not blank.  [compose] is [pdfjsLib.Util.transform], the rendering
    collaborator's product of two transforms.  The CSS of the span is not
    modelled. *)
Definition render_text_item (compose : Matrix -> Matrix -> Matrix)
    (pageNumber : nat) (scale : float) (viewportTransform : Matrix)
    (savedTexts : gmap string string) (index : nat) (textItem : TextItem)
    (sectionGuess : string) (s : Canvas) : ResumeBlock * Canvas :=
  let tx := compose viewportTransform (transform textItem) in
  let fontSize := PrimFloat.sqrt (ma tx * ma tx + mb tx * mb tx)%float in
  let x := me tx in
  let y := (mf tx - fontSize)%float in
  let width := (item_width textItem * scale)%float in
  let blockId := block_id pageNumber index in
  let textToUse :=
    match savedTexts !! blockId with
    | Some saved => saved
    | None => getResolvedText (updatedBlocks s) (storage s) blockId (str textItem)
    end in
  let wasEdited := negb (String.eqb textToUse (str textItem)) in
  let block :=
    {| id := blockId; text := textToUse; section := sectionGuess;
       spanIndex := index; x := x; y := y; width := width;
       height := fontSize; fontSize := fontSize;
       fontFamily := (if truthy (fontName textItem) then fontName textItem
                      else "sans-serif");
       isEdited := wasEdited |} in
  (block,
   set_originalTextRef (<[id block := textToUse]> (originalTextRef s))
     (set_spanText (<[blockId := textToUse]> (spanText s))
        (set_blocks (<[blockId := block]> (blocks s)) s))).

(** [textContent.items.forEach((item, index) => ...)] from [index] on,
    with the scan variable [sectionGuess]; the list is [extractedBlocks]. *)
Fixpoint render_items (compose : Matrix -> Matrix -> Matrix)
    (pageNumber : nat) (scale : float) (viewportTransform : Matrix)
    (savedTexts : gmap string string) (items : list ContentItem)
    (index : nat) (sectionGuess : string) (s : Canvas)
    : list ResumeBlock * Canvas :=
  match items with
  | [] => ([], s)
  | MarkedContent :: rest =>
      render_items compose pageNumber scale viewportTransform savedTexts
        rest (S index) sectionGuess s
  | TextRun textItem :: rest =>
      if truthy (trim (str textItem)) then
        let sectionGuess' :=
          guess_section (toLowerCase (str textItem)) sectionGuess in
        let '(block, s') :=
          render_text_item compose pageNumber scale viewportTransform
            savedTexts index textItem sectionGuess' s in
        let '(extracted, s'') :=
          render_items compose pageNumber scale viewportTransform savedTexts
            rest (S index) sectionGuess' s' in
        (block :: extracted, s'')
      else
        render_items compose pageNumber scale viewportTransform savedTexts
          rest (S index) sectionGuess s
  end.

(** [renderPage] from the point where the text content has arrived and the
    render is still the current one: the texts of the spans on screen are
    saved, the text layer and both block maps are emptied (the focus goes
    with the removed spans), and the items are laid out again.  The result
    is the list handed to [onBlocksExtracted]. *)
Definition renderPage (compose : Matrix -> Matrix -> Matrix)
    (pageNumber : nat) (scale : float) (viewportTransform : Matrix)
    (items : list ContentItem) (s : Canvas) : list ResumeBlock * Canvas :=
  let savedTexts : gmap string string :=
    list_to_map
      ((fun sb : string * ResumeBlock => (id sb.2, textContent s sb.1))
         <$> map_to_list (blocks s)) in
  let cleared := set_focused None (set_spanText ∅ (set_blocks ∅ s)) in
  render_items compose pageNumber scale viewportTransform savedTexts items
    0 "content" cleared.

(** [pdfjsLib.Util.transform(m1, m2)] as pdf.js defines it. *)
Definition Util_transform (m1 m2 : Matrix) : Matrix :=
  {| ma := (ma m1 * ma m2 + mc m1 * mb m2)%float;
     mb := (mb m1 * ma m2 + md m1 * mb m2)%float;
     mc := (ma m1 * mc m2 + mc m1 * md m2)%float;
     md := (mb m1 * mc m2 + md m1 * md m2)%float;
     me := (ma m1 * me m2 + mc m1 * mf m2 + me m1)%float;
     mf := (mb m1 * me m2 + md m1 * mf m2 + mf m1)%float |}.

(** The states the component can be in: what the handlers make of the
    initial state under the events of a session.  Text is typed and keys
    are pressed in the span that has the focus; only a span on screen can
    take it. *)
Inductive reachable : Canvas -> Prop :=
| reach_init : reachable init
| reach_render compose pageNumber scale viewportTransform items s :
    reachable s ->
    reachable (renderPage compose pageNumber scale viewportTransform items s).2
| reach_focus span s :
    reachable s -> is_Some (blocks s !! span) -> reachable (dom_focus span s)
| reach_blur span s :
    reachable s -> reachable (dom_blur span s)
| reach_type span t s :
    reachable s -> focused s = Some span -> reachable (typeText span t s)
| reach_key key shiftKey span s :
    reachable s -> focused s = Some span ->
    reachable (keydown key shiftKey span s)
| reach_lock v s :
    reachable s -> reachable (set_isLocked v s)
| reach_updated v s :
    reachable s -> reachable (set_updatedBlocks v s)
| reach_flush_begin s :
    reachable s -> reachable (saveChanges_begin s).2
| reach_flush_settle ok s :
    reachable s -> isSaving s = true -> reachable (saveChanges_settle ok s).2
| reach_storage ls s :
    reachable s -> reachable (set_storage ls s)
| reach_clock now s :
    reachable s -> reachable (set_clock now s).

End DocumentCanvas.

(* ===================================================================== *)
(** ** utils/pdfExport.ts *)
(* ===================================================================== *)

Module PdfExport.
Import JsString FontMapper EditorTypes.

Record Color := { red : float; green : float; blue : float }.

Definition rgb (r g b : float) : Color := {| red := r; green := g; blue := b |}.

(** What a page shows: the content it had when the document was loaded,
    and what [drawRectangle] and [drawText] added on top, oldest first. *)
Inductive PageItem :=
| Original (content : string)
| Rectangle (x y width height : float) (color : Color)
| Text (text : string) (x y size : float) (font : StandardFont) (color : Color).

Record PDFPage := {
  pageHeight : float;
  items : list PageItem
}.

(** A loaded [PDFDocument]: its pages and the fonts embedded in it. *)
Record PDFDocument := {
  doc_pages : list PDFPage;
  doc_fonts : list StandardFont
}.

Definition embedFont (f : StandardFont) (doc : PDFDocument) : PDFDocument :=
  {| doc_pages := doc_pages doc; doc_fonts := doc_fonts doc ++ [f] |}.

Definition embedAllFonts (doc : PDFDocument) : PDFDocument :=
  fold_left (fun d f => embedFont f d)
    [ TimesRoman; TimesRomanBold; TimesRomanItalic; TimesRomanBoldItalic;
      Helvetica; HelveticaBold; HelveticaOblique; HelveticaBoldOblique;
      Courier; CourierBold; CourierOblique; CourierBoldOblique ] doc.

Definition getEmbeddedFont (fontInfo : ParsedFontInfo) : StandardFont :=
  let w := FontMapper.weight fontInfo in
  let st := FontMapper.style fontInfo in
  match category fontInfo with
  | Serif =>
      if is_bold w && is_italic st then TimesRomanBoldItalic
      else if is_bold w then TimesRomanBold
      else if is_italic st then TimesRomanItalic
      else TimesRoman
  | Monospace =>
      if is_bold w && is_italic st then CourierBoldOblique
      else if is_bold w then CourierBold
      else if is_italic st then CourierOblique
      else Courier
  | _ =>
      if is_bold w && is_italic st then HelveticaBoldOblique
      else if is_bold w then HelveticaBold
      else if is_italic st then HelveticaOblique
      else Helvetica
  end.

(** [pages[n]] for the number [n]. *)
Definition page_at (ps : list PDFPage) (n : Z) : option PDFPage :=
  if Z.ltb n 0 then None else ps !! Z.to_nat n.

(** A drawing call on page [n]: the item is added to that page. *)
Definition draw (n : Z) (it : PageItem) (doc : PDFDocument) : PDFDocument :=
  {| doc_pages :=
       alter (fun p => {| pageHeight := pageHeight p; items := items p ++ [it] |})
         (Z.to_nat n) (doc_pages doc);
     doc_fonts := doc_fonts doc |}.

(** [Math.max(a, b)] *)
Definition Math_max (a b : float) : float :=
  if PrimFloat.is_nan a || PrimFloat.is_nan b then PrimFloat.nan
  else if PrimFloat.ltb b a then a
  else if PrimFloat.ltb a b then b
  else if PrimFloat.get_sign a then b else a.

Definition white : Color := rgb 1 1 1.
Definition black : Color := rgb 0 0 0.

(** One turn of the loop of [exportToPDF].  [widthOfTextAtSize] is the
    metric of the embedded font in pdf-lib; it has no value ([None]) when
    pdf-lib throws because the font cannot encode the text.  The font memo
    table of [getFontInfo] is threaded through. *)
Definition export_block
    (widthOfTextAtSize : StandardFont -> string -> float -> option float)
    (blockStates : gmap string EditableBlockState) (block : TextBlock)
    (acc : PDFDocument * gmap string ParsedFontInfo)
    : option (PDFDocument * gmap string ParsedFontInfo) :=
  let '(doc, fontCache) := acc in
  match blockStates !! id block with
  | None => Some acc
  | Some state =>
      if negb (isDirty state) then Some acc
      else
        let currentText := currentText state in
        match page_at (doc_pages doc) (page block) with
        | None => Some acc
        | Some pg =>
            let x := EditorTypes.x block in
            let y := (pageHeight pg - EditorTypes.y block - height block)%float in
            let '(fontInfo, fontCache') := getFontInfo fontCache (font_name block) in
            let font := getEmbeddedFont fontInfo in
            let fontSize := font_size block in
            match widthOfTextAtSize font currentText fontSize with
            | None => None
            | Some textWidth =>
                let coverWidth := (Math_max (width block) textWidth + 10)%float in
                let doc1 :=
                  draw (page block)
                    (Rectangle (x - 4)%float (y - fontSize * 0.3)%float
                       coverWidth (fontSize * 1.4)%float white) doc in
                let doc2 :=
                  draw (page block) (Text currentText x y fontSize font black) doc1 in
                Some (doc2, fontCache')
            end
        end
  end.

Fixpoint export_blocks
    (widthOfTextAtSize : StandardFont -> string -> float -> option float)
    (blockStates : gmap string EditableBlockState) (bs : list TextBlock)
    (acc : PDFDocument * gmap string ParsedFontInfo)
    : option (PDFDocument * gmap string ParsedFontInfo) :=
  match bs with
  | [] => Some acc
  | block :: rest =>
      match export_block widthOfTextAtSize blockStates block acc with
      | None => None
      | Some acc' => export_blocks widthOfTextAtSize blockStates rest acc'
      end
  end.

(** [exportToPDF({originalPdfBytes, blocks, blockStates})] on the loaded
    document: the document that is then serialised, or [None] when pdf-lib
    throws. *)
Definition exportToPDF
    (widthOfTextAtSize : StandardFont -> string -> float -> option float)
    (fontCache : gmap string ParsedFontInfo) (pdfDoc : PDFDocument)
    (bs : list TextBlock) (blockStates : gmap string EditableBlockState)
    : option (PDFDocument * gmap string ParsedFontInfo) :=
  export_blocks widthOfTextAtSize blockStates bs (embedAllFonts pdfDoc, fontCache).

(** [text.split('\n')]: [cur] is the line being read, kept reversed. *)
Fixpoint split_lines_from (cur : list ascii) (s : string) : list string :=
  match s with
  | EmptyString => [string_of_list_ascii (rev cur)]
  | String c s' =>
      if Nat.eqb (code c) 10
      then string_of_list_ascii (rev cur) :: split_lines_from [] s'
      else split_lines_from (c :: cur) s'
  end.

Definition split_lines (s : string) : list string := split_lines_from [] s.

(** The inner loop of the first version: one [drawText] per line, moving
    down by [fontSize * 1.2].  [canEncode font line] tells whether pdf-lib
    can encode the line in the embedded font; [drawText] throws when it
    cannot, and nothing comes of the export ([None]). *)
Fixpoint draw_lines (canEncode : StandardFont -> string -> bool)
    (n : Z) (x : float) (currentY : float) (fontSize : float)
    (font : StandardFont) (lines : list string) (doc : PDFDocument)
    : option PDFDocument :=
  match lines with
  | [] => Some doc
  | line :: rest =>
      if canEncode font line then
        draw_lines canEncode n x (currentY - fontSize * 1.2)%float fontSize font rest
          (draw n (Text line x currentY fontSize font black) doc)
      else None
  end.

(** [block.font_name.toLowerCase().includes('bold') ? boldFont : font] *)
Definition useFont (block : TextBlock) : StandardFont :=
  if includes (toLowerCase (font_name block)) "bold" then HelveticaBold else Helvetica.

(** One turn of the loop of the first version. *)
Definition export_block_v1 (canEncode : StandardFont -> string -> bool)
    (blockStates : gmap string EditableBlockState)
    (doc : PDFDocument) (block : TextBlock) : option PDFDocument :=
  match blockStates !! id block with
  | None => Some doc
  | Some state =>
      if negb (isDirty state) then Some doc
      else
        match page_at (doc_pages doc) (page block) with
        | None => Some doc
        | Some pg =>
            let x := EditorTypes.x block in
            let y := (pageHeight pg - EditorTypes.y block - height block)%float in
            let fontSize := font_size block in
            let doc1 :=
              draw (page block)
                (Rectangle (x - 1)%float (y - 2)%float (width block + 2)%float
                   (height block + 4)%float white) doc in
            draw_lines canEncode (page block) x (y + height block - fontSize)%float
              fontSize (useFont block) (split_lines (currentText state)) doc1
        end
  end.

Fixpoint export_blocks_v1 (canEncode : StandardFont -> string -> bool)
    (blockStates : gmap string EditableBlockState) (bs : list TextBlock)
    (doc : PDFDocument) : option PDFDocument :=
  match bs with
  | [] => Some doc
  | block :: rest =>
      match export_block_v1 canEncode blockStates doc block with
      | None => None
      | Some doc' => export_blocks_v1 canEncode blockStates rest doc'
      end
  end.

(** The first version of [exportToPDF] (Helvetica only, one text per
    line) on the loaded document: the document that is then serialised, or
    [None] when pdf-lib throws. *)
Definition exportToPDF_v1 (canEncode : StandardFont -> string -> bool)
    (pdfDoc : PDFDocument) (bs : list TextBlock)
    (blockStates : gmap string EditableBlockState) : option PDFDocument :=
  export_blocks_v1 canEncode blockStates bs
    (embedFont HelveticaBold (embedFont Helvetica pdfDoc)).

End PdfExport.

(* ===================================================================== *)
(** ** hooks/useEditorState.ts *)
(* ===================================================================== *)

Module UseEditorState.
Import JsString EditorTypes.

(** [EditorState] of types/editor.ts.  The [File] is represented by its
    name; the reducer only stores it. *)
Record EditorState := {
  pdfFile : option string;
  pdfUrl : option string;
  extractionResult : option PDFExtractionResult;
  blocks : gmap string EditableBlockState;
  weakBlocks : gmap string BlockWeakness;
  selectedBlockId : option string;
  isAnalyzing : bool;
  isExporting : bool;
  scale : float;
  currentPage : float
}.

Inductive EditorAction :=
| SET_PDF (file url : string)
| SET_EXTRACTION_RESULT (payload : PDFExtractionResult)
| UPDATE_BLOCK_TEXT (id text : string)
| SET_BLOCK_EDITING (id : string) (isEditing : bool)
| SET_WEAK_BLOCKS (payload : list BlockWeakness)
| SELECT_BLOCK (payload : option string)
| SET_ANALYZING (payload : bool)
| SET_EXPORTING (payload : bool)
| SET_SCALE (payload : float)
| SET_PAGE (payload : float)
| RESET.

Definition initialState : EditorState :=
  {| pdfFile := None; pdfUrl := None; extractionResult := None; blocks := ∅;
     weakBlocks := ∅; selectedBlockId := None; isAnalyzing := false;
     isExporting := false; scale := 1; currentPage := 0 |}.

Definition set_blocks (v : gmap string EditableBlockState) (state : EditorState)
    : EditorState :=
  {| pdfFile := pdfFile state; pdfUrl := pdfUrl state;
     extractionResult := extractionResult state; blocks := v;
     weakBlocks := weakBlocks state; selectedBlockId := selectedBlockId state;
     isAnalyzing := isAnalyzing state; isExporting := isExporting state;
     scale := scale state; currentPage := currentPage state |}.

(** The block state [SET_EXTRACTION_RESULT] makes of an extracted block. *)
Definition fresh_block (block : TextBlock) : EditableBlockState :=
  {| state_id := EditorTypes.id block; originalText := EditorTypes.text block;
     currentText := EditorTypes.text block; isEditing := false; isDirty := false;
     weakness := None |}.

(** [result.blocks.forEach(block => newBlocks.set(block.id, ...))] *)
Definition new_blocks (bs : list TextBlock) : gmap string EditableBlockState :=
  fold_left (fun newBlocks block => <[EditorTypes.id block := fresh_block block]> newBlocks)
    bs ∅.

(** [weaknesses.forEach(weakness => newWeakBlocks.set(weakness.id, weakness))] *)
Definition new_weak_blocks (ws : list BlockWeakness) : gmap string BlockWeakness :=
  fold_left (fun newWeakBlocks weakness => <[weak_id weakness := weakness]> newWeakBlocks)
    ws ∅.

Definition editorReducer (state : EditorState) (action : EditorAction) : EditorState :=
  match action with
  | SET_PDF file url =>
      {| pdfFile := Some file; pdfUrl := Some url;
         extractionResult := extractionResult state; blocks := blocks state;
         weakBlocks := weakBlocks state; selectedBlockId := selectedBlockId state;
         isAnalyzing := isAnalyzing state; isExporting := isExporting state;
         scale := scale state; currentPage := currentPage state |}
  | SET_EXTRACTION_RESULT result =>
      {| pdfFile := pdfFile state; pdfUrl := pdfUrl state;
         extractionResult := Some result;
         blocks := new_blocks (EditorTypes.blocks result);
         weakBlocks := ∅; selectedBlockId := None;
         isAnalyzing := isAnalyzing state; isExporting := isExporting state;
         scale := scale state; currentPage := currentPage state |}
  | UPDATE_BLOCK_TEXT id text =>
      match blocks state !! id with
      | None => state
      | Some existingBlock =>
          set_blocks
            (<[id := {| state_id := state_id existingBlock;
                        originalText := originalText existingBlock;
                        currentText := text;
                        isEditing := EditorTypes.isEditing existingBlock;
                        isDirty := negb (String.eqb text (originalText existingBlock));
                        weakness := weakness existingBlock |}]> (blocks state))
            state
      end
  | SET_BLOCK_EDITING id isEditing =>
      match blocks state !! id with
      | None => state
      | Some existingBlock =>
          set_blocks
            (<[id := {| state_id := state_id existingBlock;
                        originalText := originalText existingBlock;
                        currentText := currentText existingBlock;
                        isEditing := isEditing;
                        isDirty := isDirty existingBlock;
                        weakness := weakness existingBlock |}]> (blocks state))
            state
      end
  | SET_WEAK_BLOCKS weaknesses =>
      {| pdfFile := pdfFile state; pdfUrl := pdfUrl state;
         extractionResult := extractionResult state; blocks := blocks state;
         weakBlocks := new_weak_blocks weaknesses;
         selectedBlockId := selectedBlockId state;
         isAnalyzing := isAnalyzing state; isExporting := isExporting state;
         scale := scale state; currentPage := currentPage state |}
  | SELECT_BLOCK payload =>
      {| pdfFile := pdfFile state; pdfUrl := pdfUrl state;
         extractionResult := extractionResult state; blocks := blocks state;
         weakBlocks := weakBlocks state; selectedBlockId := payload;
         isAnalyzing := isAnalyzing state; isExporting := isExporting state;
         scale := scale state; currentPage := currentPage state |}
  | SET_ANALYZING payload =>
      {| pdfFile := pdfFile state; pdfUrl := pdfUrl state;
         extractionResult := extractionResult state; blocks := blocks state;
         weakBlocks := weakBlocks state; selectedBlockId := selectedBlockId state;
         isAnalyzing := payload; isExporting := isExporting state;
         scale := scale state; currentPage := currentPage state |}
  | SET_EXPORTING payload =>
      {| pdfFile := pdfFile state; pdfUrl := pdfUrl state;
         extractionResult := extractionResult state; blocks := blocks state;
         weakBlocks := weakBlocks state; selectedBlockId := selectedBlockId state;
         isAnalyzing := isAnalyzing state; isExporting := payload;
         scale := scale state; currentPage := currentPage state |}
  | SET_SCALE payload =>
      {| pdfFile := pdfFile state; pdfUrl := pdfUrl state;
         extractionResult := extractionResult state; blocks := blocks state;
         weakBlocks := weakBlocks state; selectedBlockId := selectedBlockId state;
         isAnalyzing := isAnalyzing state; isExporting := isExporting state;
         scale := payload; currentPage := currentPage state |}
  | SET_PAGE payload =>
      {| pdfFile := pdfFile state; pdfUrl := pdfUrl state;
         extractionResult := extractionResult state; blocks := blocks state;
         weakBlocks := weakBlocks state; selectedBlockId := selectedBlockId state;
         isAnalyzing := isAnalyzing state; isExporting := isExporting state;
         scale := scale state; currentPage := payload |}
  | RESET => initialState
  end.

(** The selectors of the hook.  [getCurrentTexts] is the dictionary it
    builds; [hasUnsavedChanges] is its loop over the block states. *)
Definition getCurrentTexts (state : EditorState) : gmap string string :=
  currentText <$> blocks state.

Definition hasUnsavedChanges (state : EditorState) : bool :=
  fold_left (fun hasChanges block => if isDirty block then true else hasChanges)
    (map_to_list (blocks state)).*2 false.

Definition weakBlockCount (state : EditorState) : nat := size (weakBlocks state).

End UseEditorState.

(* ===================================================================== *)
(** * Vocabulary of the properties and example data *)
(* ===================================================================== *)

Section FontVocabulary.
Import JsString FontMapper.

(** Some keyword of the list occurs in the lower-cased identifier. *)
Definition matches_keywords (patterns : list string) (fontName : string) : Prop :=
  exists p, In p patterns /\ Substring p (toLowerCase fontName).

Fixpoint all_digits (s : string) : bool :=
  match s with
  | EmptyString => true
  | String c s' => is_digit c && all_digits s'
  end.

(** The shape [/^[a-z]_d\d+_f\d+$/i] describes: a letter, an underscore,
    [d] and one or more digits, an underscore, [f] and one or more digits. *)
Definition GenericShape (s : string) : Prop :=
  exists c d f ds1 ds2,
    s = String c (String "_" (String d (ds1 +:+ String "_" (String f ds2)))) /\
    is_letter c = true /\ is_char_ci 100 d = true /\ is_char_ci 102 f = true /\
    all_digits ds1 = true /\ ds1 <> "" /\ all_digits ds2 = true /\ ds2 <> "".

End FontVocabulary.

Section StoreExamples.
Import JsString EditorStorage.

Definition stored_a : LocalStorage :=
  saveEditsToStorage [Build_BlockUpdate "block-1-0" "2024" "2025" None]
    "a.pdf" true 100 empty_storage.

Definition stored_b : LocalStorage :=
  saveEditsToStorage [Build_BlockUpdate "block-1-1" "Engineer" "Developer" None]
    "b.pdf" true 200 stored_a.

(** Updates for b.pdf, the second of them under the name [__proto__]. *)
Definition two_updates_for_b : list BlockUpdate :=
  [ Build_BlockUpdate "block-1-1" "Engineer" "Developer" None;
    Build_BlockUpdate "__proto__" "" "Manager" None ].

End StoreExamples.

Section ReconciliationExamples.
Import JsString EditorStorage EditorTypes EditorApi.

(** The stored record written by [handleBlur] for one edited block. *)
Definition dirty_local : LocalStorage :=
  markEditsDirty
    (saveEditsToStorage [Build_BlockUpdate "block-1-0" "2024" "2025" (Some "content")]
       "current_resume" true 100 empty_storage).

Definition backend_saved : gmap string string := {[ "block-1-0" := "2026" ]}.

Definition one_block : TextBlock :=
  {| id := "block-1-0"; text := "2024"; x := 10; y := 10; width := 40;
     height := 12; page := 0; font_size := 12; font_name := "g_d0_f1";
     block_type := DateEntry; section := None |}.

Definition one_page_result : PDFExtractionResult :=
  {| pages := [ {| page_number := 1; page_width := 595; page_height := 842;
                   width_mm := 210; height_mm := 297 |} ];
     blocks := [one_block]; sections := ∅; total_pages := 1;
     filename := "current_resume" |}.

End ReconciliationExamples.

Section RemoteSaveExamples.
Import JsString EditorStorage EditorApi.

Definition world_of (net : nat -> Exchange) : World :=
  {| pendingRequests := ∅; network := net; sent := [];
     storage := empty_storage; clock := 0 |}.

Definition accepted : UpdateResumeResponse :=
  {| success := true; message := "saved"; atsScore := None;
     atsScoreDetails := None; updatedBlocks := None |}.

Definition edit_2025 : BlockUpdate :=
  Build_BlockUpdate "block-1-0" "2024" "2025" None.

(** A backend whose first answer takes longer than the default timeout
    and which answers every later request at once. *)
Definition slow_then_fine (n : nat) : Exchange :=
  match n with
  | O => {| latency := 15000; reply := HttpOk accepted |}
  | S _ => {| latency := 20; reply := HttpOk accepted |}
  end.

(** A backend that cannot be reached for the first request only. *)
Definition down_then_fine (n : nat) : Exchange :=
  match n with
  | O => {| latency := 20; reply := NetworkFailure |}
  | S _ => {| latency := 20; reply := HttpOk accepted |}
  end.

End RemoteSaveExamples.

Section ControllerVocabulary.
Import JsString EditorStorage DocumentCanvas.

(** What every state of a session satisfies.  A block is filed under the
    id of its span; its rollback snapshot is its committed text; the span
    shows that text unless it has the focus; a pending save is filed under
    the id it is for; only a span on screen has the focus. *)
Record Inv (s : Canvas) : Prop := {
  inv_id : forall span b, blocks s !! span = Some b -> id b = span;
  inv_snapshot : forall span b,
    blocks s !! span = Some b -> originalTextRef s !! span = Some (text b);
  inv_shown : forall span b,
    blocks s !! span = Some b -> focused s <> Some span ->
    textContent s span = text b;
  inv_pending : forall k u, pendingSaves s !! k = Some u -> blockId u = k;
  inv_focus : forall span, focused s = Some span -> is_Some (blocks s !! span)
}.

(** A portrait A4 page at scale 1: the page transform flips the y axis. *)
Definition a4_viewport : Matrix :=
  {| ma := 1; mb := 0; mc := 0; md := -1; me := 0; mf := 842 |}.

Definition run_engineer : TextItem :=
  {| str := "Engineer"; dir := "ltr";
     transform := {| ma := 12; mb := 0; mc := 0; md := 12; me := 10; mf := 700 |};
     item_width := 48; item_height := 12; fontName := "g_d0_f1"; hasEOL := false |}.

Definition run_blank : TextItem :=
  {| str := "  "; dir := "ltr";
     transform := {| ma := 12; mb := 0; mc := 0; md := 12; me := 10; mf := 720 |};
     item_width := 6; item_height := 12; fontName := "g_d0_f1"; hasEOL := false |}.

(** The page is laid out: one block, block-1-2. *)
Definition laid_out : Canvas :=
  (renderPage Util_transform 1 1 a4_viewport
     [TextRun run_blank; MarkedContent; TextRun run_engineer] init).2.

(** The user clicks into the block and types. *)
Definition typing : Canvas :=
  typeText "block-1-2" "Enginer" (dom_focus "block-1-2" laid_out).

(** The user leaves the block: the edit is committed and queued. *)
Definition committed : Canvas := dom_blur "block-1-2" typing.

(** A flush has started and its saves are in flight. *)
Definition flushing : Canvas := (saveChanges_begin committed).2.

(** While that flush is in flight the user edits the block again. *)
Definition requeued : Canvas :=
  dom_blur "block-1-2"
    (typeText "block-1-2" "Engineer II" (dom_focus "block-1-2" flushing)).

(** The host locks the editor while the user is typing. *)
Definition locked_while_typing : Canvas := set_isLocked true typing.

(** The geometry [renderPage] gives the block of a text run. *)
Definition placed (compose : Matrix -> Matrix -> Matrix) (pageNumber : nat)
    (scale : float) (viewportTransform : Matrix) (b : ResumeBlock)
    (t : TextItem) : Prop :=
  let tx := compose viewportTransform (transform t) in
  fontSize b = PrimFloat.sqrt (ma tx * ma tx + mb tx * mb tx)%float /\
  y b = (mf tx - fontSize b)%float /\
  x b = me tx /\
  height b = fontSize b /\
  width b = (item_width t * scale)%float /\
  id b = block_id pageNumber (spanIndex b).

End ControllerVocabulary.

Section ExportVocabulary.
Import JsString FontMapper EditorTypes PdfExport.

(** A metric that gives every character half the font size. *)
Definition half_em (f : StandardFont) (t : string) (size : float) : option float :=
  Some (PrimFloat.of_uint63 (Uint63.of_Z (Z.of_nat (String.length t))) * size * 0.5)%float.

Definition one_page_doc : PDFDocument :=
  {| doc_pages := [ {| pageHeight := 842; items := [Original "BT (2024) Tj ET"] |} ];
     doc_fonts := [] |}.

Definition block_2024 : TextBlock :=
  {| id := "block-1-0"; text := "2024"; x := 10; y := 10; width := 40;
     height := 12; page := 0; font_size := 12; font_name := "g_d0_f1";
     block_type := DateEntry; section := None |}.

Definition clean_state : EditableBlockState :=
  {| state_id := "block-1-0"; originalText := "2024"; currentText := "2024";
     isEditing := false; isDirty := false; weakness := None |}.

Definition dirty_state : EditableBlockState :=
  {| state_id := "block-1-0"; originalText := "2024"; currentText := "2025";
     isEditing := false; isDirty := true; weakness := None |}.

(** An encoding for the examples: a line can be encoded when all its
    characters are printable ASCII characters. *)
Definition printable_ascii (f : StandardFont) (t : string) : bool :=
  forallb (fun c => Nat.leb 32 (code c) && Nat.ltb (code c) 127)
    (list_ascii_of_string t).

(** [q] is page [p] with possibly more drawn on top. *)
Definition extends_page (p q : PDFPage) : Prop :=
  pageHeight q = pageHeight p /\ exists added, items q = items p ++ added.

End ExportVocabulary.

Section FontFaceVocabulary.
Import JsString FontMapper.

(** The family of a standard font, and whether it is a bold or a slanted
    (italic or oblique) face. *)
Definition family (f : StandardFont) : FontCategory :=
  match f with
  | TimesRoman | TimesRomanBold | TimesRomanItalic | TimesRomanBoldItalic => Serif
  | Helvetica | HelveticaBold | HelveticaOblique | HelveticaBoldOblique => SansSerif
  | Courier | CourierBold | CourierOblique | CourierBoldOblique => Monospace
  end.

Definition bold_face (f : StandardFont) : bool :=
  match f with
  | TimesRomanBold | TimesRomanBoldItalic | HelveticaBold | HelveticaBoldOblique
  | CourierBold | CourierBoldOblique => true
  | _ => false
  end.

Definition slanted_face (f : StandardFont) : bool :=
  match f with
  | TimesRomanItalic | TimesRomanBoldItalic | HelveticaOblique
  | HelveticaBoldOblique | CourierOblique | CourierBoldOblique => true
  | _ => false
  end.

(** The memo table of [getFontInfo] after it has been asked for [names] in
    turn, starting from the empty table. *)
Definition cache_after (names : list string) : gmap string ParsedFontInfo :=
  fold_left (fun fontCache n => (getFontInfo fontCache n).2) names ∅.

End FontFaceVocabulary.

Section MergeVocabulary.
Import JsString EditorStorage EditorTypes EditorApi.

(** [b'] is [b] with possibly another text: the id, the geometry, the page,
    the font and the section are those of [b]. *)
Definition same_but_text (b b' : TextBlock) : Prop := b' = with_text b (text b').

(** What the request key is made of. *)
Definition key_part (u : BlockUpdate) : string * string := (blockId u, newText u).

End MergeVocabulary.

Section EditorStateVocabulary.
Import JsString EditorTypes UseEditorState.

(** The state after the actions have been dispatched in turn. *)
Definition dispatch_all (actions : list EditorAction) (state : EditorState)
    : EditorState :=
  fold_left editorReducer actions state.

(** What the reducer keeps true of the block states: a state is filed
    under its id, it is dirty exactly when its current text differs from its
    original text, and its original text is the text of a block of that id
    in the extraction result the state holds. *)
Definition Tracked (state : EditorState) : Prop :=
  forall k st, UseEditorState.blocks state !! k = Some st ->
    state_id st = k /\
    isDirty st = negb (String.eqb (currentText st) (originalText st)) /\
    exists result b,
      extractionResult state = Some result /\
      In b (EditorTypes.blocks result) /\
      EditorTypes.id b = k /\ EditorTypes.text b = originalText st.

End EditorStateVocabulary.

Section QueueVocabulary.
Import JsString EditorStorage DocumentCanvas.

(** What every state of a session satisfies about the save queue: the
    pending flag shown to the host is set exactly when a save is queued, a
    queued save changes the text, and its block is marked as changed. *)
Record QueueInv (s : Canvas) : Prop := {
  queue_flag : hasPendingChanges s = true <-> pendingSaves s <> ∅;
  queue_changed : forall k u, pendingSaves s !! k = Some u -> oldText u <> newText u;
  queue_marked : forall k u, pendingSaves s !! k = Some u -> k ∈ pendingChanges s
}.

(** [s'] differs from [s] in the blocks, the spans and the snapshots at
    most. *)
Definition same_frame (s s' : Canvas) : Prop :=
  pendingSaves s' = pendingSaves s /\ hasPendingChanges s' = hasPendingChanges s /\
  pendingChanges s' = pendingChanges s /\ storage s' = storage s /\
  updatedBlocks s' = updatedBlocks s /\ isLocked s' = isLocked s /\
  isSaving s' = isSaving s /\ clock s' = clock s /\ textChanges s' = textChanges s /\
  focused s' = focused s.

(** Every span on screen is named by an id that [renderPage] made. *)
Definition laid_out_ids (s : Canvas) : Prop :=
  forall span, is_Some (blocks s !! span) ->
    exists pageNumber index, span = block_id pageNumber index.

(** The block of the example page as [renderPage] lays it out. *)
Definition block_engineer : ResumeBlock :=
  {| id := "block-1-2"; text := "Engineer"; section := "content"; spanIndex := 2;
     x := 10; y := 130; width := 48; height := 12; fontSize := 12;
     fontFamily := "g_d0_f1"; isEdited := false |}.

End QueueVocabulary.

Section OverlayVocabulary.
Import JsString FontMapper EditorTypes PdfExport.

(** The memo table holds only what [parsePdfFont] computes. *)
Definition coherent (fontCache : gmap string ParsedFontInfo) : Prop :=
  forall n info, fontCache !! n = Some info -> info = parsePdfFont n.

(** The rectangle and the text the current [exportToPDF] draws for a block
    with current text [t] on a page of height [h], [tw] being the width of
    the text in the block's font and size. *)
Definition cover_of (block : TextBlock) (h tw : float) : PageItem :=
  Rectangle (EditorTypes.x block - 4)%float
    (h - EditorTypes.y block - height block - font_size block * 0.3)%float
    (Math_max (width block) tw + 10)%float (font_size block * 1.4)%float white.

Definition text_of (block : TextBlock) (h : float) (t : string) : PageItem :=
  Text t (EditorTypes.x block) (h - EditorTypes.y block - height block)%float
    (font_size block) (pdfLibFont (parsePdfFont (font_name block))) black.

(** The block is one the export paints: its state is dirty and its page
    exists; [st] is its state and [pg] its page in the loaded document. *)
Definition painted (blockStates : gmap string EditableBlockState)
    (pgs : list PDFPage) (block : TextBlock) (st : EditableBlockState)
    (pg : PDFPage) : Prop :=
  blockStates !! EditorTypes.id block = Some st /\ isDirty st = true /\
  page_at pgs (page block) = Some pg.

(** The export of the example document after the block "2024" has been
    edited to "2025": the metric [half_em] gives the text the width 24. *)
Definition exported_2025 : PDFDocument * gmap string ParsedFontInfo :=
  ({| doc_pages :=
        [ {| pageHeight := 842;
             items := [ Original "BT (2024) Tj ET";
                        cover_of block_2024 842 24;
                        text_of block_2024 842 "2025" ] |} ];
      doc_fonts :=
        [ TimesRoman; TimesRomanBold; TimesRomanItalic; TimesRomanBoldItalic;
          Helvetica; HelveticaBold; HelveticaOblique; HelveticaBoldOblique;
          Courier; CourierBold; CourierOblique; CourierBoldOblique ] |},
   {[ "g_d0_f1" := parsePdfFont "g_d0_f1" ]}).

(** A font that can encode no text: the metric has no value. *)
Definition no_width (f : StandardFont) (t : string) (size : float) : option float :=
  None.

(** The texts drawn on a page, oldest first. *)
Definition drawn_texts (pg : PDFPage) : list string :=
  omap (fun it => match it with Text t _ _ _ _ _ => Some t | _ => None end) (items pg).

(** The line feed, the separator of [split('\n')]. *)
Definition line_feed : string := String (ascii_of_nat 10) EmptyString.

Fixpoint has_line_feed (s : string) : bool :=
  match s with
  | EmptyString => false
  | String c s' => Nat.eqb (code c) 10 || has_line_feed s'
  end.

End OverlayVocabulary.

(* ===================================================================== *)
(** * Properties *)
(* ===================================================================== *)

(** ** Strings *)

Section StringFacts.
Import JsString.

Lemma startsWith_spec (s p : string) :
  startsWith s p = true <-> exists post, s = p +:+ post.
Proof.
  revert s. induction p as [|a p IH]; intros s; simpl.
  - split; [intros _; exists s; reflexivity | intros _; now destruct s].
  - destruct s as [|b s]; simpl.
    + split; [discriminate | intros [post H]; discriminate].
    + rewrite andb_true_iff, Ascii.eqb_eq, IH. split.
      * intros [-> [post ->]]. exists post. reflexivity.
      * intros [post H]. injection H as -> ->. split; [reflexivity | eauto].
Qed.

Lemma includes_spec (s p : string) :
  includes s p = true <-> Substring p s.
Proof.
  unfold Substring. induction s as [|c s IH].
  - cbn [includes]. rewrite orb_false_r, startsWith_spec. split.
    + intros [post H]. exists EmptyString, post. exact H.
    + intros [pre [post H]]. destruct pre as [|a pre]; [eauto | discriminate].
  - cbn [includes]. rewrite orb_true_iff, startsWith_spec, IH. split.
    + intros [[post H] | [pre [post H]]].
      * exists EmptyString, post. exact H.
      * exists (String c pre), post. simpl. now rewrite H.
    + intros [pre [post H]]. destruct pre as [|a pre].
      * left. exists post. exact H.
      * right. simpl in H. injection H as _ H. eauto.
Qed.

Lemma some_includes_spec (patterns : list string) (s : string) :
  some_includes patterns s = true <->
  exists p, In p patterns /\ Substring p s.
Proof.
  unfold some_includes. rewrite existsb_exists.
  split; intros [p [Hin H]]; exists p; split; auto; now apply includes_spec.
Qed.

Lemma some_includes_false (patterns : list string) (s : string) :
  some_includes patterns s = false <->
  ~ exists p, In p patterns /\ Substring p s.
Proof.
  rewrite <- some_includes_spec. destruct (some_includes patterns s); split; intros H;
    try reflexivity; try discriminate; try (intros ?; discriminate).
  exfalso. now apply H.
Qed.

Lemma trimEnd_all_whitespace (s : string) :
  all_whitespace s = true -> trimEnd s = EmptyString.
Proof.
  induction s as [|c s IH]; simpl; [reflexivity|].
  rewrite andb_true_iff. intros [Hc Hs]. now rewrite (IH Hs), Hc.
Qed.

Lemma trimEnd_empty (s : string) :
  trimEnd s = EmptyString -> all_whitespace s = true.
Proof.
  induction s as [|c s IH]; simpl; [reflexivity|].
  destruct (trimEnd s) eqn:E; [|discriminate].
  destruct (is_whitespace c); [|discriminate].
  intros _. now rewrite IH.
Qed.

Lemma trimStart_all_whitespace (s : string) :
  all_whitespace (trimStart s) = all_whitespace s.
Proof.
  induction s as [|c s IH]; simpl; [reflexivity|].
  destruct (is_whitespace c) eqn:E; simpl; [exact IH | now rewrite E].
Qed.

(** [s.trim()] is empty exactly when [s] holds white space only. *)
Lemma trim_empty_iff (s : string) :
  trim s = EmptyString <-> all_whitespace s = true.
Proof.
  unfold trim. split.
  - intros H. rewrite <- trimStart_all_whitespace. now apply trimEnd_empty.
  - intros H. apply trimEnd_all_whitespace. now rewrite trimStart_all_whitespace.
Qed.

End StringFacts.

(** ** Font classification (C9) *)

Section FontClassification.
Import JsString FontMapper.

Example detect_courier_sans :
  detectFontCategory "Courier-Sans" = Monospace.
Proof. reflexivity. Qed.

Example detect_arial_roman :
  detectFontCategory "ArialRoman" = SansSerif.
Proof. reflexivity. Qed.

Example detect_times :
  detectFontCategory "TimesNewRomanPS-BoldMT" = Serif.
Proof. reflexivity. Qed.

Example detect_generic :
  detectFontCategory "g_d0_f1" = Serif /\ detectFontCategory "A_D12_F3" = Serif.
Proof. split; reflexivity. Qed.

Example detect_unknown :
  detectFontCategory "" = SansSerif /\ detectFontCategory "x_d_f1" = SansSerif.
Proof. split; reflexivity. Qed.

Lemma append_empty_r (s : string) : s +:+ "" = s.
Proof.
  induction s as [|a s IH]; [reflexivity|].
  change (String a (s +:+ "") = String a s). now f_equal.
Qed.

Lemma code_eq (c : ascii) (n : nat) :
  Nat.eqb (code c) n = true -> c = ascii_of_nat n.
Proof.
  intros H. apply Nat.eqb_eq in H. rewrite <- H. unfold code.
  symmetry. apply ascii_nat_embedding.
Qed.

(** After a run of digits that is followed by something that is no digit,
    [skip_digits] stops exactly there. *)
Lemma skip_digits_app (ds rest : string) :
  all_digits ds = true ->
  match rest with String c _ => is_digit c = false | EmptyString => True end ->
  skip_digits (ds +:+ rest) = rest.
Proof.
  intros Hds Hrest. induction ds as [|c ds IH]; simpl.
  - destruct rest as [|c r]; [reflexivity|]. simpl. now rewrite Hrest.
  - simpl in Hds. apply andb_true_iff in Hds. destruct Hds as [Hc Hds].
    rewrite Hc. now apply IH.
Qed.

Lemma skip_digits_split (s : string) :
  exists ds, all_digits ds = true /\ s = ds +:+ skip_digits s.
Proof.
  induction s as [|c s [ds [Hds E]]]; [exists EmptyString; split; reflexivity|].
  simpl. destruct (is_digit c) eqn:Hc.
  - exists (String c ds). split; [simpl; now rewrite Hc, Hds|].
    change (String c s = String c (ds +:+ skip_digits s)). f_equal. exact E.
  - exists EmptyString. split; reflexivity.
Qed.

Lemma digits1_spec (s rest : string) :
  match rest with String c _ => is_digit c = false | EmptyString => True end ->
  digits1 s = Some rest <->
  exists ds, all_digits ds = true /\ ds <> "" /\ s = ds +:+ rest.
Proof.
  intros Hrest. unfold digits1. split.
  - destruct s as [|c s]; [discriminate|].
    destruct (is_digit c) eqn:Hc; [|discriminate]. intros [= <-].
    destruct (skip_digits_split s) as [ds [Hds E]].
    exists (String c ds). split; [simpl; now rewrite Hc, Hds|].
    split; [discriminate|].
    change (String c s = String c (ds +:+ skip_digits s)). f_equal. exact E.
  - intros [ds [Hds [Hne ->]]]. destruct ds as [|c ds]; [congruence|].
    simpl in *. apply andb_true_iff in Hds. destruct Hds as [Hc Hds].
    rewrite Hc. f_equal. now apply skip_digits_app.
Qed.

(** The hand-written matcher accepts exactly the strings of the shape the
    regular expression describes. *)
Lemma generic_regex_spec (s : string) :
  generic_regex s = true <-> GenericShape s.
Proof.
  unfold GenericShape. split.
  - unfold generic_regex.
    destruct s as [|c0 [|u1 [|d rest]]]; try discriminate.
    rewrite !andb_true_iff. intros [[[Hc Hu] Hd] H].
    destruct (digits1 rest) as [[|u2 [|f rest']]|] eqn:E1; try discriminate.
    apply andb_true_iff in H. destruct H as [H H2].
    apply andb_true_iff in H. destruct H as [Hu2 Hf].
    destruct (digits1 rest') as [[|? ?]|] eqn:E2; try discriminate.
    apply code_eq in Hu, Hu2. subst u1 u2.
    apply digits1_spec in E1; [|reflexivity]. destruct E1 as [ds1 [Hds1 [Hne1 ->]]].
    apply digits1_spec in E2; [|exact I]. destruct E2 as [ds2 [Hds2 [Hne2 ->]]].
    exists c0, d, f, ds1, ds2. repeat split; try assumption.
    now rewrite append_empty_r.
  - intros (c & d & f & ds1 & ds2 & -> & Hc & Hd & Hf & Hds1 & Hne1 & Hds2 & Hne2).
    unfold generic_regex. rewrite Hc, Hd. cbn [andb code nat_of_ascii].
    assert (E1 : digits1 (ds1 +:+ String "_" (String f ds2))
                 = Some (String "_" (String f ds2))).
    { apply digits1_spec; [reflexivity|]. now exists ds1. }
    rewrite E1. rewrite Hf.
    assert (E2 : digits1 ds2 = Some EmptyString).
    { apply digits1_spec; [exact I|]. exists ds2. repeat split; try assumption.
      now rewrite append_empty_r. }
    rewrite E2. reflexivity.
Qed.

(** C9.  The category of a font identifier is decided by the first test
    that succeeds, in this order: a monospace keyword, a sans-serif keyword,
    a serif keyword (each as a substring of the lower-cased identifier), the
    generic-identifier heuristic (serif), and otherwise sans-serif.  Exactly
    one of the five cases applies to every identifier, so the classification
    always returns monospace, sans-serif or serif. *)
Theorem detectFontCategory_first_match (fontName : string) :
  (matches_keywords MONOSPACE_PATTERNS fontName /\
   detectFontCategory fontName = Monospace) \/
  (~ matches_keywords MONOSPACE_PATTERNS fontName /\
   matches_keywords SANS_SERIF_PATTERNS fontName /\
   detectFontCategory fontName = SansSerif) \/
  (~ matches_keywords MONOSPACE_PATTERNS fontName /\
   ~ matches_keywords SANS_SERIF_PATTERNS fontName /\
   matches_keywords SERIF_PATTERNS fontName /\
   detectFontCategory fontName = Serif) \/
  (~ matches_keywords MONOSPACE_PATTERNS fontName /\
   ~ matches_keywords SANS_SERIF_PATTERNS fontName /\
   ~ matches_keywords SERIF_PATTERNS fontName /\
   is_generic_name fontName = true /\
   detectFontCategory fontName = Serif) \/
  (~ matches_keywords MONOSPACE_PATTERNS fontName /\
   ~ matches_keywords SANS_SERIF_PATTERNS fontName /\
   ~ matches_keywords SERIF_PATTERNS fontName /\
   is_generic_name fontName = false /\
   detectFontCategory fontName = SansSerif).
Proof.
  unfold matches_keywords, detectFontCategory.
  destruct (some_includes MONOSPACE_PATTERNS (toLowerCase fontName)) eqn:Hm.
  { left. split; [now apply some_includes_spec | reflexivity]. }
  right. apply some_includes_false in Hm.
  destruct (some_includes SANS_SERIF_PATTERNS (toLowerCase fontName)) eqn:Hs.
  { left. repeat split; [exact Hm | now apply some_includes_spec]. }
  right. apply some_includes_false in Hs.
  destruct (some_includes SERIF_PATTERNS (toLowerCase fontName)) eqn:Hr.
  { left. repeat split; [exact Hm | exact Hs | now apply some_includes_spec]. }
  right. apply some_includes_false in Hr.
  destruct (is_generic_name fontName) eqn:Hg; [left | right]; repeat split; assumption.
Qed.

(** The memo table does not change the answer as long as it holds only
    what [parsePdfFont] computed. *)
Lemma getFontInfo_cached (fontCache : gmap string ParsedFontInfo) (name : string) :
  (forall n info, fontCache !! n = Some info -> info = parsePdfFont n) ->
  (getFontInfo fontCache name).1 = parsePdfFont name /\
  (forall n info, (getFontInfo fontCache name).2 !! n = Some info ->
                  info = parsePdfFont n).
Proof.
  intros Hc. unfold getFontInfo.
  destruct (fontCache !! name) as [info|] eqn:E; simpl.
  - split; [now apply Hc | exact Hc].
  - split; [reflexivity|]. intros n info.
    rewrite lookup_insert. case_decide as Hn.
    + intros [= <-]. now subst.
    + apply Hc.
Qed.

End FontClassification.

(** ** The edit store (C5) *)

Section EditStore.
Import JsString EditorStorage.

Lemma object_set_ordinary (k v : string) (o : gmap string string) :
  k <> "__proto__" -> object_set k v o = <[k := v]> o.
Proof.
  intros Hk. unfold object_set. apply String.eqb_neq in Hk. now rewrite Hk.
Qed.

Lemma object_set_other (k v other : string) (o : gmap string string) :
  other <> k -> object_set k v o !! other = o !! other.
Proof.
  intros Hne. unfold object_set. destruct (_ && _); [reflexivity|].
  now rewrite lookup_insert_ne by congruence.
Qed.

(** What an assignment leaves under a name is what was there or the
    assigned text. *)
Lemma object_set_lookup (k v name t : string) (o : gmap string string) :
  object_set k v o !! name = Some t -> o !! name = Some t \/ (k = name /\ v = t).
Proof.
  unfold object_set. destruct (_ && _); [auto|].
  rewrite lookup_insert. case_decide; [intros [= <-]; auto | auto].
Qed.

Lemma merge_updates_snoc (updates : list BlockUpdate) (u : BlockUpdate)
    (e : gmap string string) :
  merge_updates (updates ++ [u]) e
  = object_set (blockId u) (newText u) (merge_updates updates e).
Proof. unfold merge_updates. now rewrite fold_left_app. Qed.

(** An id that no update names keeps what the map held for it. *)
Lemma merge_updates_other (updates : list BlockUpdate) (e : gmap string string)
    (bid : string) :
  ~ In bid (map blockId updates) -> merge_updates updates e !! bid = e !! bid.
Proof.
  induction updates as [|u updates IH] using rev_ind; intros Hnot; [reflexivity|].
  rewrite merge_updates_snoc. rewrite map_app, in_app_iff in Hnot. simpl in Hnot.
  rewrite object_set_other by (intros ->; tauto). apply IH. tauto.
Qed.

(** The last update for an id decides its text. *)
Lemma merge_updates_last (updates : list BlockUpdate) (u : BlockUpdate)
    (e : gmap string string) :
  blockId u <> "__proto__" ->
  merge_updates (updates ++ [u]) e !! blockId u = Some (newText u).
Proof.
  intros Hu. rewrite merge_updates_snoc, object_set_ordinary by exact Hu.
  apply lookup_insert_eq.
Qed.

Lemma merge_updates_app (pre post : list BlockUpdate) (e : gmap string string) :
  merge_updates (pre ++ post) e = merge_updates post (merge_updates pre e).
Proof. unfold merge_updates. apply fold_left_app. Qed.

(** The text the merge leaves for the id of an update that no later update
    of the list names. *)
Lemma merge_updates_last_writer (pre post : list BlockUpdate) (u : BlockUpdate)
    (e : gmap string string) :
  ~ In (blockId u) (map blockId post) ->
  blockId u <> "__proto__" ->
  merge_updates (pre ++ u :: post) e !! blockId u = Some (newText u).
Proof.
  intros Hpost Hu.
  change (pre ++ u :: post) with (pre ++ [u] ++ post).
  rewrite app_assoc, merge_updates_app, merge_updates_other by exact Hpost.
  now apply merge_updates_last.
Qed.

(** Every text the merge leaves was there before or is the new text of an
    update. *)
Lemma merge_updates_lookup (updates : list BlockUpdate) (e : gmap string string)
    (bid t : string) :
  merge_updates updates e !! bid = Some t ->
  e !! bid = Some t \/ exists u, In u updates /\ blockId u = bid /\ newText u = t.
Proof.
  induction updates as [|u updates IH] using rev_ind; [now left|].
  rewrite merge_updates_snoc. intros H. apply object_set_lookup in H.
  destruct H as [H|[Hk Hv]].
  - destruct (IH H) as [He|[u' [Hin Hu']]]; [now left|].
    right. exists u'. rewrite in_app_iff. auto.
  - right. exists u. rewrite in_app_iff. cbn. auto.
Qed.

(** The name [__proto__] gets no entry through a merge. *)
Lemma merge_updates_proto (updates : list BlockUpdate) (e : gmap string string) :
  e !! "__proto__" = None -> merge_updates updates e !! "__proto__" = None.
Proof.
  intros He. induction updates as [|u updates IH] using rev_ind; [exact He|].
  rewrite merge_updates_snoc.
  destruct (String.eqb_spec (blockId u) "__proto__") as [Hu|Hu].
  - unfold object_set. rewrite Hu, String.eqb_refl, IH. cbn. exact IH.
  - now rewrite object_set_other by congruence.
Qed.

Lemma getStoredEdits_saveEditsToStorage (updates : list BlockUpdate)
    (name : string) (markDirty : bool) (now : Z) (ls : LocalStorage) :
  name <> "" ->
  exists e,
    getStoredEdits (saveEditsToStorage updates name markDirty now ls) =
      Some {| edits := e; timestamp := now; pdfName := name; isDirty := markDirty |} /\
    e = merge_updates updates
          (match getStoredEdits ls with
           | Some ex => if String.eqb (pdfName ex) name then edits ex else ∅
           | None => ∅
           end).
Proof.
  intros Hname. eexists. split; [|reflexivity].
  unfold saveEditsToStorage, getStoredEdits at 1. cbn.
  destruct name as [|c name]; [congruence|]. cbn.
  do 2 f_equal. destruct markDirty; reflexivity.
Qed.

(** C5, as stated, fails: the store holds the record of a.pdf with an edit
    of block-1-0; a merge for b.pdf, with no [clear] in between, leaves a
    record of b.pdf that holds the new edit only.  The edit of a.pdf is not
    retained. *)
Lemma merge_for_other_document_starts_fresh :
  getStoredEdits stored_a =
    Some {| edits := {[ "block-1-0" := "2025" ]}; timestamp := 100;
            pdfName := "a.pdf"; isDirty := true |} /\
  getStoredEdits stored_b =
    Some {| edits := {[ "block-1-1" := "Developer" ]}; timestamp := 200;
            pdfName := "b.pdf"; isDirty := true |} /\
  (edits <$> getStoredEdits stored_b) ≫= (fun e => e !! "block-1-0") = None.
Proof. repeat split. Qed.

(** C5, amended.  A merge for a document identity other than the stored
    one starts a fresh record by itself: afterwards the store holds the
    record of the new identity, with the time and the dirty flag of the
    call, and its edits come from the updates of that call alone, assigned
    in order to an empty object.  So the record has no entry for a block id
    the call did not name (none of the other document's edits is
    retained); every entry it has is the new text of an update of the call
    for that id; and the id of an update that no later update of the call
    names holds that update's new text, unless the id is [__proto__]: the
    assignment to that name stores nothing, and the record has no entry
    for it. *)
Theorem saveEditsToStorage_other_identity (updates : list BlockUpdate)
    (name : string) (markDirty : bool) (now : Z) (ls : LocalStorage)
    (ex : StoredEdits) :
  getStoredEdits ls = Some ex ->
  pdfName ex <> name ->
  name <> "" ->
  exists e,
    getStoredEdits (saveEditsToStorage updates name markDirty now ls) =
      Some {| edits := e; timestamp := now; pdfName := name; isDirty := markDirty |} /\
    e = merge_updates updates ∅ /\
    (forall bid, ~ In bid (map blockId updates) -> e !! bid = None) /\
    (forall bid t, e !! bid = Some t ->
       exists u, In u updates /\ blockId u = bid /\ newText u = t) /\
    (forall pre u post, updates = pre ++ u :: post ->
       ~ In (blockId u) (map blockId post) ->
       blockId u <> "__proto__" ->
       e !! blockId u = Some (newText u)) /\
    e !! "__proto__" = None.
Proof.
  intros Hex Hne Hname.
  destruct (getStoredEdits_saveEditsToStorage updates name markDirty now ls Hname)
    as [e [Hget He]].
  rewrite Hex in He.
  destruct (String.eqb_spec (pdfName ex) name) as [Heq|_]; [contradiction|].
  exists e. split; [exact Hget|]. split; [exact He|]. subst e.
  split; [|split; [|split]].
  - intros bid Hbid. now rewrite merge_updates_other.
  - intros bid t Ht. apply merge_updates_lookup in Ht.
    destruct Ht as [Ht|Ht]; [discriminate Ht | exact Ht].
  - intros pre u post -> Hpost Hu. now apply merge_updates_last_writer.
  - now apply merge_updates_proto.
Qed.

Lemma saveEditsToStorage_other_identity_witness :
  exists e,
    getStoredEdits (saveEditsToStorage two_updates_for_b "b.pdf" true 200 stored_a) =
      Some {| edits := e; timestamp := 200; pdfName := "b.pdf"; isDirty := true |} /\
    e = merge_updates two_updates_for_b ∅ /\
    (forall bid, ~ In bid (map blockId two_updates_for_b) -> e !! bid = None) /\
    (forall bid t, e !! bid = Some t ->
       exists u, In u two_updates_for_b /\ blockId u = bid /\ newText u = t) /\
    (forall pre u post, two_updates_for_b = pre ++ u :: post ->
       ~ In (blockId u) (map blockId post) ->
       blockId u <> "__proto__" ->
       e !! blockId u = Some (newText u)) /\
    e !! "__proto__" = None.
Proof.
  apply (saveEditsToStorage_other_identity two_updates_for_b "b.pdf" true 200 stored_a
           {| edits := {[ "block-1-0" := "2025" ]}; timestamp := 100;
              pdfName := "a.pdf"; isDirty := true |}).
  - reflexivity.
  - discriminate.
  - discriminate.
Defined.

(** Merges for the stored identity accumulate. *)
Lemma saveEditsToStorage_same_identity (updates : list BlockUpdate)
    (markDirty : bool) (now : Z) (ls : LocalStorage) (ex : StoredEdits) :
  getStoredEdits ls = Some ex ->
  getStoredEdits (saveEditsToStorage updates (pdfName ex) markDirty now ls) =
    Some {| edits := merge_updates updates (edits ex); timestamp := now;
            pdfName := pdfName ex; isDirty := markDirty |}.
Proof.
  intros Hex.
  assert (Hname : pdfName ex <> "").
  { unfold getStoredEdits in Hex.
    destruct (ls_edits ls), (ls_timestamp ls), (ls_pdf_name ls) as [n|]; try discriminate.
    destruct n; [discriminate|]. injection Hex as <-. discriminate. }
  destruct (getStoredEdits_saveEditsToStorage updates (pdfName ex) markDirty now ls Hname)
    as [e [Hget ->]].
  rewrite Hex, String.eqb_refl in Hget. exact Hget.
Qed.

(** A record written under the empty name cannot be read back. *)
Lemma saveEditsToStorage_empty_name (updates : list BlockUpdate)
    (markDirty : bool) (now : Z) (ls : LocalStorage) :
  getStoredEdits (saveEditsToStorage updates "" markDirty now ls) = None.
Proof. reflexivity. Qed.

Lemma clearStoredEdits_empty (ls : LocalStorage) :
  getStoredEdits (clearStoredEdits ls) = None.
Proof. reflexivity. Qed.

End EditStore.

(** ** Reconciliation of local and remote edits (C1) *)

Section Reconciliation.
Import JsString EditorStorage EditorTypes EditorApi.

Lemma lookup_map {A B : Type} (f : A -> B) (l : list A) (i : nat) :
  map f l !! i = f <$> l !! i.
Proof.
  revert i. induction l as [|a l IH]; intros [|i]; simpl; try reflexivity. apply IH.
Qed.

Lemma apply_edits_length (e : gmap string string) (bs : list TextBlock) :
  length (apply_edits e bs) = length bs.
Proof. unfold apply_edits. apply length_map. Qed.

Lemma apply_edits_lookup (e : gmap string string) (bs : list TextBlock)
    (i : nat) (b : TextBlock) (t : string) :
  bs !! i = Some b -> e !! id b = Some t -> t <> "" ->
  apply_edits e bs !! i = Some (with_text b t).
Proof.
  intros Hb He Ht. unfold apply_edits.
  rewrite lookup_map, Hb. simpl. rewrite He.
  destruct t; [congruence | reflexivity].
Qed.

(** Blocks without a (non-empty) edit pass through unchanged. *)
Lemma apply_edits_lookup_none (e : gmap string string) (bs : list TextBlock)
    (i : nat) (b : TextBlock) :
  bs !! i = Some b -> e !! id b = None -> apply_edits e bs !! i = Some b.
Proof.
  intros Hb He. unfold apply_edits.
  rewrite lookup_map, Hb. simpl. now rewrite He.
Qed.

(** C1, as stated, fails in [getResolvedText]: the store holds a dirty
    edit "2025" of block-1-0 and the backend-saved blocks hold "2026" for
    the same id; the text resolved for display is the backend one. *)
Lemma getResolvedText_prefers_backend :
  getStoredEdits dirty_local =
    Some {| edits := {[ "block-1-0" := "2025" ]}; timestamp := 100;
            pdfName := "current_resume"; EditorStorage.isDirty := true |} /\
  backend_saved !! "block-1-0" = Some "2026" /\
  DocumentCanvas.getResolvedText (Some backend_saved) dirty_local "block-1-0" "2024"
    = "2026".
Proof. repeat split. Qed.

(** C1, amended.  Let a block id have a non-empty local entry in a dirty
    store whose document name matches, and a different remote entry.  Then
    [extractPDFBlocks] gives every block of that id the local text, whatever
    the backend holds; and [getResolvedText], the resolution used when the
    overlay is laid out, returns the entry of the backend-saved blocks. *)
Theorem local_edit_wins_at_extraction (fileName : string)
    (data : PDFExtractionResult) (ls : LocalStorage)
    (remoteEdits : gmap string string) (st : StoredEdits)
    (bid localText remoteText originalText : string) :
  getStoredEdits ls = Some st ->
  pdfName st = fileName ->
  EditorStorage.isDirty st = true ->
  edits st !! bid = Some localText ->
  localText <> "" ->
  remoteEdits !! bid = Some remoteText ->
  localText <> remoteText ->
  (exists res,
     extractPDFBlocks fileName (ExtractBody true data) ls
       (EditsBody (Some remoteEdits)) = inr res /\
     length (blocks res) = length (blocks data) /\
     forall i b, blocks data !! i = Some b -> id b = bid ->
       blocks res !! i = Some (with_text b localText)) /\
  DocumentCanvas.getResolvedText (Some remoteEdits) ls bid originalText = remoteText.
Proof.
  intros Hst Hname Hdirty Hlocal Hne Hremote _. split.
  - exists (with_blocks data (apply_edits (edits st) (blocks data))).
    unfold extractPDFBlocks. rewrite Hst, Hname, String.eqb_refl, Hdirty. simpl.
    split; [reflexivity|]. split; [apply apply_edits_length|].
    intros i b Hb Hid. apply apply_edits_lookup; [exact Hb | now rewrite Hid | exact Hne].
  - unfold DocumentCanvas.getResolvedText. simpl. now rewrite Hremote.
Qed.

Lemma local_edit_wins_at_extraction_witness :
  (exists res,
     extractPDFBlocks "current_resume" (ExtractBody true one_page_result)
       dirty_local (EditsBody (Some backend_saved)) = inr res /\
     length (blocks res) = length (blocks one_page_result) /\
     forall i b, blocks one_page_result !! i = Some b -> id b = "block-1-0" ->
       blocks res !! i = Some (with_text b "2025")) /\
  DocumentCanvas.getResolvedText (Some backend_saved) dirty_local "block-1-0" "2024"
    = "2026".
Proof.
  apply (local_edit_wins_at_extraction "current_resume" one_page_result dirty_local
           backend_saved
           {| edits := {[ "block-1-0" := "2025" ]}; timestamp := 100;
              pdfName := "current_resume"; EditorStorage.isDirty := true |}
           "block-1-0" "2025" "2026" "2024").
  - reflexivity.
  - reflexivity.
  - reflexivity.
  - reflexivity.
  - discriminate.
  - reflexivity.
  - discriminate.
Defined.

(** An emptied block: the stored edit is the empty string, which the
    truthiness test of [extractPDFBlocks] takes for no edit, so the block
    keeps the extracted text (and the backend is not asked). *)
Example extractPDFBlocks_skips_empty_edit :
  extractPDFBlocks "current_resume" (ExtractBody true one_page_result)
    (markEditsDirty
       (saveEditsToStorage [Build_BlockUpdate "block-1-0" "2024" "" None]
          "current_resume" true 100 empty_storage))
    (EditsBody (Some backend_saved))
  = inr one_page_result.
Proof. reflexivity. Qed.

(** When the backend-saved blocks have no entry for the id,
    [getResolvedText] returns a non-empty stored edit, whatever the name
    and the dirty flag of the store are. *)
Lemma getResolvedText_local (updated : option (gmap string string))
    (ls : LocalStorage) (st : StoredEdits) (bid localText originalText : string) :
  updated ≫= (fun m => m !! bid) = None ->
  getStoredEdits ls = Some st ->
  edits st !! bid = Some localText ->
  localText <> "" ->
  DocumentCanvas.getResolvedText updated ls bid originalText = localText.
Proof.
  intros Hu Hst Hl Hne. unfold DocumentCanvas.getResolvedText.
  rewrite Hu, Hst, Hl. destruct localText; [congruence | reflexivity].
Qed.

(** Without any edit the original text is shown. *)
Lemma getResolvedText_original (bid originalText : string) :
  DocumentCanvas.getResolvedText None empty_storage bid originalText = originalText.
Proof. reflexivity. Qed.

(** Once the store is marked synced, [extractPDFBlocks] takes a non-empty
    remote edit over the extracted text. *)
Lemma remote_edit_wins_when_synced (fileName : string)
    (data : PDFExtractionResult) (ls : LocalStorage)
    (remoteEdits : gmap string string) (st : StoredEdits) :
  getStoredEdits ls = Some st ->
  EditorStorage.isDirty st = false ->
  extractPDFBlocks fileName (ExtractBody true data) ls (EditsBody (Some remoteEdits))
    = inr (with_blocks data (apply_edits remoteEdits (blocks data))).
Proof.
  intros Hst Hd. unfold extractPDFBlocks. rewrite Hst, Hd, andb_false_r. simpl.
  destruct (Nat.ltb_spec 0 (size remoteEdits)) as [_|Hz]; [reflexivity|].
  assert (remoteEdits = ∅) as -> by (apply map_size_empty_iff; lia).
  f_equal. destruct data; unfold with_blocks, apply_edits; simpl. f_equal.
  induction blocks0 as [|b bs IH]; simpl; [reflexivity|].
  rewrite lookup_empty. now rewrite <- IH at 1.
Qed.

End Reconciliation.

(** ** Remote saves: retries, timeouts and filtering (C4, C10) *)

Section RemoteSave.
Import JsString EditorStorage EditorApi.

Lemma updateResumeBlocks_empty (retry : nat) (timeout : Z) (w : World) :
  updateResumeBlocks retry timeout [] w = (Resolved no_changes, w).
Proof. destruct retry; reflexivity. Qed.

Lemma updateResumeBlocks_existing (retry : nat) (timeout : Z)
    (bs : list BlockUpdate) (w : World) :
  bs <> [] -> getRequestKey bs ∈ pendingRequests w ->
  updateResumeBlocks retry timeout bs w = (ExistingRequest (getRequestKey bs), w).
Proof.
  intros Hbs Hin. destruct bs as [|b bs]; [congruence|].
  destruct retry; simpl; (destruct (decide _) as [_|Hn]; [reflexivity | contradiction]).
Qed.

(** Every POST of a call carries the list the call was given, and a call
    makes at most one POST more than its retry budget. *)
Lemma updateResumeBlocks_sent (retry : nat) (timeout : Z)
    (bs : list BlockUpdate) (w : World) :
  exists n, n <= S retry /\
    sent (updateResumeBlocks retry timeout bs w).2 = sent w ++ repeat bs n.
Proof.
  revert w. induction retry as [|retry IH]; intros w.
  - destruct bs as [|b bs]; [exists 0; split; [lia | simpl; now rewrite app_nil_r]|].
    cbn [updateResumeBlocks].
    destruct (decide _) as [Hin|Hnot];
      [exists 0; split; [lia | simpl; now rewrite app_nil_r]|].
    unfold fetch.
    destruct (Z.leb timeout _); [exists 1; split; [lia | reflexivity]|].
    destruct (reply _) as [r|status body| |msg];
      exists 1; (split; [lia | reflexivity]).
  - destruct bs as [|b bs]; [exists 0; split; [lia | simpl; now rewrite app_nil_r]|].
    cbn [updateResumeBlocks].
    destruct (decide _) as [Hin|Hnot];
      [exists 0; split; [lia | simpl; now rewrite app_nil_r]|].
    unfold fetch.
    destruct (Z.leb timeout _); [exists 1; split; [lia | reflexivity]|].
    destruct (reply _) as [r|status body| |msg];
      try (exists 1; (split; [lia | reflexivity])).
    match goal with
    | |- context [updateResumeBlocks retry timeout (b :: bs) ?w2] =>
        destruct (IH w2) as [n [Hn Hs]];
        destruct (updateResumeBlocks retry timeout (b :: bs) w2) as [r3 w3] eqn:E
    end.
    exists (S n). split; [lia|]. simpl in *. rewrite Hs.
    now rewrite <- app_assoc.
Qed.

(** C4, as stated, fails for timeouts: the first answer comes after the
    default timeout of 10000 ms and a second request would have succeeded,
    yet the call is rejected with the time-out error after a single POST. *)
Lemma timeout_is_surfaced_without_retry :
  (updateResumeBlocks default_retry default_timeout [edit_2025]
     (world_of slow_then_fine)).1 = Rejected timed_out /\
  sent (updateResumeBlocks default_retry default_timeout [edit_2025]
          (world_of slow_then_fine)).2 = [[edit_2025]] /\
  reply (slow_then_fine 1) = HttpOk accepted.
Proof. repeat split. Qed.

(** C4, amended.  For every remote save request that is actually sent
    (some block to save, no request with the same key in flight): the call
    makes at most [1 + retry] POSTs, that is at most one automatic retry
    under the default [retry = 1]; and when the answer does not arrive
    within [timeout] milliseconds (10000 by default) the call is rejected at
    once with the NETWORK_ERROR "Request timed out. Please try again.",
    after that single POST and without any retry. *)
Theorem updateResumeBlocks_retry_budget_and_timeout (retry : nat)
    (timeout : Z) (bs : list BlockUpdate) (w : World) :
  bs <> [] ->
  getRequestKey bs ∉ pendingRequests w ->
  length (sent (updateResumeBlocks retry timeout bs w).2)
    <= length (sent w) + 1 + retry /\
  ((timeout <= latency (network w (length (sent w))))%Z ->
   (updateResumeBlocks retry timeout bs w).1 = Rejected timed_out /\
   error_code timed_out = NETWORK_ERROR /\
   sent (updateResumeBlocks retry timeout bs w).2 = sent w ++ [bs]).
Proof.
  intros Hbs Hnot. split.
  - destruct (updateResumeBlocks_sent retry timeout bs w) as [n [Hn ->]].
    rewrite length_app, repeat_length. lia.
  - intros Hlate. apply Z.leb_le in Hlate.
    destruct bs as [|b bs]; [congruence|].
    destruct retry; cbn [updateResumeBlocks];
      (destruct (decide _) as [Hin|_]; [contradiction|]);
      unfold fetch; rewrite Hlate; repeat split.
Qed.

Lemma updateResumeBlocks_retry_budget_and_timeout_witness :
  length (sent (updateResumeBlocks default_retry default_timeout [edit_2025]
                  (world_of slow_then_fine)).2)
    <= length (sent (world_of slow_then_fine)) + 1 + default_retry /\
  ((default_timeout <=
      latency (network (world_of slow_then_fine)
                 (length (sent (world_of slow_then_fine)))))%Z ->
   (updateResumeBlocks default_retry default_timeout [edit_2025]
      (world_of slow_then_fine)).1 = Rejected timed_out /\
   error_code timed_out = NETWORK_ERROR /\
   sent (updateResumeBlocks default_retry default_timeout [edit_2025]
           (world_of slow_then_fine)).2
     = sent (world_of slow_then_fine) ++ [[edit_2025]]).
Proof.
  apply (updateResumeBlocks_retry_budget_and_timeout default_retry default_timeout
           [edit_2025] (world_of slow_then_fine)).
  - discriminate.
  - vm_compute. intros H. discriminate H.
Defined.

(** A network failure met with no retry left is surfaced as a
    NETWORK_ERROR. *)
Lemma network_failure_without_budget (timeout : Z) (bs : list BlockUpdate)
    (w : World) :
  bs <> [] ->
  getRequestKey bs ∉ pendingRequests w ->
  (latency (network w (length (sent w))) < timeout)%Z ->
  reply (network w (length (sent w))) = NetworkFailure ->
  (updateResumeBlocks 0 timeout bs w).1 = Rejected network_error.
Proof.
  intros Hbs Hnot Hlat Hrep. destruct bs as [|b bs]; [congruence|].
  cbn [updateResumeBlocks]. destruct (decide _) as [Hin|_]; [contradiction|].
  unfold fetch. apply Z.leb_gt in Hlat. rewrite Hlat, Hrep. reflexivity.
Qed.

(** The retry itself.  The recursive call is made while the key of the
    failed request is still in [pendingRequests] (the [finally] block has
    not run yet), so it finds its own request there and returns that
    promise: no second POST is made, and the promise the caller holds is
    settled with the promise registered under its own key. *)
Lemma network_failure_retry_joins_own_request (retry : nat) (timeout : Z)
    (bs : list BlockUpdate) (w : World) :
  bs <> [] ->
  getRequestKey bs ∉ pendingRequests w ->
  (latency (network w (length (sent w))) < timeout)%Z ->
  reply (network w (length (sent w))) = NetworkFailure ->
  (updateResumeBlocks (S retry) timeout bs w).1 = ExistingRequest (getRequestKey bs) /\
  sent (updateResumeBlocks (S retry) timeout bs w).2 = sent w ++ [bs].
Proof.
  intros Hbs Hnot Hlat Hrep. destruct bs as [|b bs]; [congruence|].
  cbn [updateResumeBlocks]. destruct (decide _) as [Hin|_]; [contradiction|].
  unfold fetch. apply Z.leb_gt in Hlat. rewrite Hlat, Hrep.
  rewrite updateResumeBlocks_existing; [split; reflexivity | discriminate |].
  cbn. set_solver.
Qed.

Example retry_with_default_options :
  (updateResumeBlocks default_retry default_timeout [edit_2025]
     (world_of down_then_fine)).1 = ExistingRequest "block-1-0:2025" /\
  sent (updateResumeBlocks default_retry default_timeout [edit_2025]
          (world_of down_then_fine)).2 = [[edit_2025]].
Proof. split; reflexivity. Qed.

(** A successful save writes the saved texts to the store and marks it
    synced. *)
Example successful_save_syncs_store :
  getStoredEdits
    (storage (updateResumeBlocks default_retry default_timeout [edit_2025]
                (world_of (fun _ => {| latency := 20; reply := HttpOk accepted |}))).2)
  = Some {| edits := {[ "block-1-0" := "2025" ]}; timestamp := 0;
            pdfName := "current_resume"; isDirty := false |}.
Proof. reflexivity. Qed.

Lemma is_valid_update_spec (u : BlockUpdate) :
  is_valid_update u = true <->
  oldText u <> newText u /\ all_whitespace (newText u) = false.
Proof.
  unfold is_valid_update. rewrite andb_true_iff, negb_true_iff, String.eqb_neq.
  rewrite Nat.ltb_lt. split; intros [H1 H2]; split; try exact H1.
  - destruct (all_whitespace (newText u)) eqn:E; [|reflexivity].
    apply trim_empty_iff in E. rewrite E in H2. simpl in H2. lia.
  - destruct (trim (newText u)) eqn:E; [|simpl; lia].
    apply trim_empty_iff in E. congruence.
Qed.

(** C10.  Every payload [batchUpdateBlocks] posts consists of updates of
    the given list whose new text differs from the old text and is not
    blank, so an unchanged or blank update is never transmitted.  If every
    update is unchanged or blank, the call resolves with the message
    "No changes to save" and leaves the world as it was, with nothing
    posted; [updateResumeBlocks] does the same for the empty list. *)
Theorem batchUpdateBlocks_transmits_valid_updates_only
    (bs : list BlockUpdate) (w : World) (retry : nat) (timeout : Z) :
  (exists posted,
     sent (batchUpdateBlocks bs w).2 = sent w ++ posted /\
     forall payload u, In payload posted -> In u payload ->
       In u bs /\ oldText u <> newText u /\ all_whitespace (newText u) = false) /\
  ((forall u, In u bs ->
      oldText u = newText u \/ all_whitespace (newText u) = true) ->
   batchUpdateBlocks bs w = (Resolved no_changes, w) /\
   message no_changes = "No changes to save" /\ success no_changes = true) /\
  updateResumeBlocks retry timeout [] w = (Resolved no_changes, w).
Proof.
  split; [|split].
  - unfold batchUpdateBlocks.
    destruct (List.filter is_valid_update bs) as [|v vs] eqn:Hf.
    + exists []. split; [simpl; now rewrite app_nil_r | intros ? ? []].
    + destruct (updateResumeBlocks_sent default_retry default_timeout (v :: vs) w)
        as [n [_ Hs]].
      exists (repeat (v :: vs) n). split; [exact Hs|].
      intros payload u Hp Hu. apply repeat_spec in Hp. subst payload.
      rewrite <- Hf in Hu. apply filter_In in Hu. destruct Hu as [Hin Hv].
      apply is_valid_update_spec in Hv. tauto.
  - intros Hall. unfold batchUpdateBlocks.
    destruct (List.filter is_valid_update bs) as [|v vs] eqn:Hf; [repeat split|].
    exfalso.
    assert (Hv : In v (List.filter is_valid_update bs)) by (rewrite Hf; now left).
    apply filter_In in Hv. destruct Hv as [Hin Hv].
    apply is_valid_update_spec in Hv. destruct (Hall v Hin); intuition congruence.
  - apply updateResumeBlocks_empty.
Qed.

Example batch_drops_unchanged_and_blank :
  sent (batchUpdateBlocks
          [ Build_BlockUpdate "block-1-0" "2024" "2024" None;
            Build_BlockUpdate "block-1-1" "Engineer" "   " None;
            edit_2025 ]
          (world_of (fun _ => {| latency := 20; reply := HttpOk accepted |}))).2
  = [[edit_2025]].
Proof. reflexivity. Qed.

End RemoteSave.

(** ** The overlay controller: invariants of a session *)

Section ControllerInvariant.
Import JsString EditorStorage DocumentCanvas.

Lemma Inv_init : Inv init.
Proof.
  split; simpl; intros *; try (rewrite lookup_empty; discriminate); discriminate.
Qed.

(** The invariant reads five fields only. *)
Lemma Inv_ext (s s' : Canvas) :
  blocks s' = blocks s -> spanText s' = spanText s -> focused s' = focused s ->
  originalTextRef s' = originalTextRef s -> pendingSaves s' = pendingSaves s ->
  Inv s -> Inv s'.
Proof.
  intros Hb Ht Hf Ho Hp [H1 H2 H3 H4 H5].
  split; unfold textContent; rewrite ?Hb, ?Ht, ?Hf, ?Ho, ?Hp; assumption.
Qed.

Lemma queueBlockSave_fields (bid old new : string) (sec : option string) (s : Canvas) :
  blocks (queueBlockSave bid old new sec s) = blocks s /\
  spanText (queueBlockSave bid old new sec s) = spanText s /\
  focused (queueBlockSave bid old new sec s) = focused s /\
  originalTextRef (queueBlockSave bid old new sec s) = originalTextRef s /\
  storage (queueBlockSave bid old new sec s) = storage s /\
  isLocked (queueBlockSave bid old new sec s) = isLocked s /\
  isSaving (queueBlockSave bid old new sec s) = isSaving s.
Proof. unfold queueBlockSave. destruct (String.eqb old new); repeat split. Qed.

Lemma queueBlockSave_pending (bid old new : string) (sec : option string) (s : Canvas) :
  old <> new ->
  pendingSaves (queueBlockSave bid old new sec s) =
    <[bid := Build_BlockUpdate bid old new sec]> (pendingSaves s).
Proof.
  intros Hne. unfold queueBlockSave.
  destruct (String.eqb_spec old new); [contradiction | reflexivity].
Qed.

Lemma queueBlockSave_unchanged (bid old : string) (sec : option string) (s : Canvas) :
  queueBlockSave bid old old sec s = s.
Proof. unfold queueBlockSave. now rewrite String.eqb_refl. Qed.

Lemma queueBlockSave_Inv (bid old new : string) (sec : option string) (s : Canvas) :
  Inv s -> Inv (queueBlockSave bid old new sec s).
Proof.
  intros HI. destruct (String.eqb_spec old new) as [->|Hne].
  - now rewrite queueBlockSave_unchanged.
  - destruct (queueBlockSave_fields bid old new sec s) as (Hb & Ht & Hf & Ho & _).
    destruct HI as [H1 H2 H3 H4 H5].
    split; unfold textContent; rewrite ?Hb, ?Ht, ?Hf, ?Ho; try assumption.
    intros k u. rewrite queueBlockSave_pending by assumption.
    rewrite lookup_insert. case_decide as Hk.
    + intros [= <-]. now subst.
    + apply H4.
Qed.

(** The snapshot that [handleBlur] compares with is the committed text. *)
Lemma rollback_text (s : Canvas) (span : string) (b : ResumeBlock) :
  Inv s -> blocks s !! span = Some b ->
  match originalTextRef s !! id b with
  | Some o => if truthy o then o else text b
  | None => text b
  end = text b.
Proof.
  intros HI Hb. rewrite (inv_id s HI span b Hb), (inv_snapshot s HI span b Hb).
  now destruct (truthy (text b)).
Qed.

Lemma commit_edit_fields (span : string) (b : ResumeBlock) (old new : string)
    (s : Canvas) :
  blocks (commit_edit span b old new s) = <[span := commit_text b new]> (blocks s) /\
  spanText (commit_edit span b old new s) = spanText s /\
  focused (commit_edit span b old new s) = focused s /\
  originalTextRef (commit_edit span b old new s) = <[id b := new]> (originalTextRef s) /\
  isLocked (commit_edit span b old new s) = isLocked s /\
  isSaving (commit_edit span b old new s) = isSaving s.
Proof.
  unfold commit_edit. cbn.
  match goal with
  | |- context [queueBlockSave ?a ?b ?c ?d ?e] =>
      destruct (queueBlockSave_fields a b c d e) as (-> & -> & -> & -> & _ & -> & ->)
  end.
  repeat split.
Qed.

Lemma textContent_ext (s s' : Canvas) (span : string) :
  spanText s' = spanText s -> textContent s' span = textContent s span.
Proof. unfold textContent. now intros ->. Qed.

Lemma commit_edit_pending (span : string) (b : ResumeBlock) (old new : string)
    (s : Canvas) :
  old <> new ->
  pendingSaves (commit_edit span b old new s) =
    <[id b := Build_BlockUpdate (id b) old new (Some (section b))]> (pendingSaves s).
Proof.
  intros Hne. unfold commit_edit. cbn. now rewrite queueBlockSave_pending.
Qed.

Lemma dom_blur_Inv (span : string) (s : Canvas) : Inv s -> Inv (dom_blur span s).
Proof.
  intros HI. unfold dom_blur. destruct (decide _) as [Hf|_]; [|exact HI].
  destruct (inv_focus s HI span Hf) as [b Hb].
  unfold handleBlur. cbn [blocks set_focused]. rewrite Hb.
  change (originalTextRef (set_focused None s)) with (originalTextRef s).
  rewrite (rollback_text s span b HI Hb).
  change (textContent (set_focused None s) span) with (textContent s span).
  pose proof (inv_id s HI span b Hb) as Hid.
  destruct (String.eqb_spec (textContent s span) (text b)) as [Heq|Hne].
  - destruct HI as [H1 H2 H3 H4 H5]. split; cbn; try assumption.
    + intros sp b' Hb' _. destruct (decide (sp = span)) as [->|Hsp].
      * rewrite Hb in Hb'. injection Hb' as <-. exact Heq.
      * apply H3; [exact Hb' | congruence].
    + discriminate.
  - destruct (commit_edit_fields span b (text b) (textContent s span)
                (set_focused None s)) as (Eb & Et & Ef & Eo & _).
    pose proof (commit_edit_pending span b (text b) (textContent s span)
                  (set_focused None s) (not_eq_sym Hne)) as Ep.
    destruct HI as [H1 H2 H3 H4 H5].
    split; rewrite ?Eb, ?Ef, ?Eo, ?Ep; try setoid_rewrite (textContent_ext _ _ _ Et); cbn.
    + intros sp b'. rewrite lookup_insert. case_decide as Hk.
      * intros [= <-]. cbn. congruence.
      * apply H1.
    + intros sp b'. rewrite Hid, !lookup_insert. case_decide as Hk.
      * intros [= <-]. reflexivity.
      * apply H2.
    + intros sp b'. rewrite lookup_insert. case_decide as Hk.
      * intros [= <-] _. subst sp. reflexivity.
      * intros Hb' _. apply H3; [exact Hb' | congruence].
    + intros k u. rewrite lookup_insert. case_decide as Hk.
      * intros [= <-]. exact Hk.
      * apply H4.
    + discriminate.
Qed.

Lemma dom_blur_focused (span : string) (s : Canvas) :
  focused (dom_blur span s) = if decide (focused s = Some span) then None else focused s.
Proof.
  unfold dom_blur. destruct (decide _) as [Hf|_]; [|reflexivity].
  unfold handleBlur. cbn [blocks set_focused]. destruct (blocks s !! span); [|reflexivity].
  destruct (String.eqb _ _); [reflexivity|].
  now destruct (commit_edit_fields span r
    match originalTextRef (set_focused None s) !! id r with
    | Some o => if truthy o then o else text r
    | None => text r
    end (textContent (set_focused None s) span) (set_focused None s))
    as (_ & _ & -> & _).
Qed.

Lemma dom_blur_dom (span sp : string) (s : Canvas) :
  is_Some (blocks (dom_blur span s) !! sp) <-> is_Some (blocks s !! sp).
Proof.
  unfold dom_blur. destruct (decide _) as [Hf|_]; [|reflexivity].
  unfold handleBlur. cbn [blocks set_focused].
  destruct (blocks s !! span) as [b|] eqn:Hb; [|reflexivity].
  destruct (String.eqb _ _); [reflexivity|].
  destruct (commit_edit_fields span b
    match originalTextRef (set_focused None s) !! id b with
    | Some o => if truthy o then o else text b
    | None => text b
    end (textContent (set_focused None s) span) (set_focused None s))
    as (-> & _).
  cbn. rewrite lookup_insert. case_decide as Hk; [|reflexivity].
  subst sp. rewrite Hb. split; eauto.
Qed.

Lemma dom_blur_isLocked (span : string) (s : Canvas) :
  isLocked (dom_blur span s) = isLocked s.
Proof.
  unfold dom_blur. destruct (decide _) as [Hf|_]; [|reflexivity].
  unfold handleBlur. cbn [blocks set_focused].
  destruct (blocks s !! span) as [b|]; [|reflexivity].
  destruct (String.eqb _ _); [reflexivity|].
  now destruct (commit_edit_fields span b
    match originalTextRef (set_focused None s) !! id b with
    | Some o => if truthy o then o else text b
    | None => text b
    end (textContent (set_focused None s) span) (set_focused None s))
    as (_ & _ & _ & _ & -> & _).
Qed.

Lemma handleTextMutation_fields (targets : list string) (s : Canvas) :
  blocks (handleTextMutation targets s) = blocks s /\
  spanText (handleTextMutation targets s) = spanText s /\
  focused (handleTextMutation targets s) = focused s /\
  originalTextRef (handleTextMutation targets s) = originalTextRef s /\
  pendingSaves (handleTextMutation targets s) = pendingSaves s /\
  storage (handleTextMutation targets s) = storage s /\
  isLocked (handleTextMutation targets s) = isLocked s.
Proof.
  unfold handleTextMutation. revert s.
  induction targets as [|t targets IH]; intros s; [repeat split|].
  cbn [fold_left].
  destruct (blocks s !! t) as [b|]; [|apply IH].
  destruct (String.eqb _ _); [apply IH|].
  match goal with |- context [fold_left ?f targets ?s0] => destruct (IH s0) as (-> & -> & -> & -> & -> & -> & ->) end.
  repeat split.
Qed.

Lemma handleTextMutation_Inv (targets : list string) (s : Canvas) :
  Inv s -> Inv (handleTextMutation targets s).
Proof.
  destruct (handleTextMutation_fields targets s) as (Hb & Ht & Hf & Ho & Hp & _).
  now apply Inv_ext.
Qed.

Lemma Inv_focus_moved (span : string) (s : Canvas) :
  Inv s -> focused s = None -> is_Some (blocks s !! span) ->
  Inv (set_focused (Some span) s).
Proof.
  intros [H1 H2 H3 H4 H5] Hf Hsome. split; cbn; try assumption.
  - intros sp b Hb _. apply H3; [exact Hb | congruence].
  - intros sp [= <-]. exact Hsome.
Qed.

(** Taking the snapshot when the span shows its committed text changes
    nothing. *)
Lemma handleFocus_Inv (span : string) (s : Canvas) :
  Inv s ->
  (forall b, blocks s !! span = Some b -> textContent s span = text b) ->
  Inv (handleFocus span s).
Proof.
  intros HI Hshown. unfold handleFocus. destruct (isLocked s); [now apply dom_blur_Inv|].
  destruct (blocks s !! span) as [b|] eqn:Hb; [|exact HI].
  rewrite (inv_id s HI span b Hb), (Hshown b eq_refl).
  rewrite (insert_id (originalTextRef s) span (text b)) by now apply (inv_snapshot s HI).
  eapply Inv_ext; [..|exact HI]; reflexivity.
Qed.

Lemma dom_focus_Inv (span : string) (s : Canvas) :
  Inv s -> is_Some (blocks s !! span) -> Inv (dom_focus span s).
Proof.
  intros HI Hsome. unfold dom_focus. destruct (decide _) as [_|Hnf]; [exact HI|].
  set (s1 := match focused s with Some other => dom_blur other s | None => s end).
  assert (HI1 : Inv s1).
  { unfold s1. destruct (focused s); [now apply dom_blur_Inv | exact HI]. }
  assert (Hf1 : focused s1 = None).
  { unfold s1. destruct (focused s) as [other|] eqn:Hf; [|exact Hf].
    rewrite dom_blur_focused. now rewrite decide_True. }
  assert (Hs1 : is_Some (blocks s1 !! span)).
  { unfold s1. destruct (focused s); [now apply dom_blur_dom | exact Hsome]. }
  apply handleFocus_Inv; [now apply Inv_focus_moved|].
  intros b Hb. cbn in Hb.
  change (textContent (set_focused (Some span) s1) span) with (textContent s1 span).
  apply (inv_shown s1 HI1 span b Hb). congruence.
Qed.

Lemma typeText_Inv (span t : string) (s : Canvas) :
  Inv s -> focused s = Some span -> Inv (typeText span t s).
Proof.
  intros [H1 H2 H3 H4 H5] Hf. unfold typeText. apply handleTextMutation_Inv.
  split; cbn; try assumption.
  intros sp b Hb Hsp. unfold textContent. cbn.
  rewrite lookup_insert_ne by congruence. now apply H3.
Qed.

Lemma handleKeyDown_Inv (key : Key) (shiftKey : bool) (span : string) (s : Canvas) :
  Inv s -> focused s = Some span -> Inv (handleKeyDown key shiftKey span s).
Proof.
  intros HI Hf. unfold handleKeyDown. destruct (isLocked s); [exact HI|].
  destruct (blocks s !! span) as [b|] eqn:Hb; [|exact HI].
  destruct key.
  - destruct shiftKey; cbn; [exact HI | now apply dom_blur_Inv].
  - apply dom_blur_Inv. destruct (originalTextRef s !! id b) as [o|]; [|exact HI].
    destruct HI as [H1 H2 H3 H4 H5]. split; cbn; try assumption.
    intros sp b' Hb' Hsp. unfold textContent. cbn.
    rewrite lookup_insert_ne by congruence. now apply H3.
  - exact HI.
Qed.

Lemma keydown_Inv (key : Key) (shiftKey : bool) (span : string) (s : Canvas) :
  Inv s -> focused s = Some span -> Inv (keydown key shiftKey span s).
Proof.
  intros HI Hf. unfold keydown.
  pose proof (handleKeyDown_Inv key shiftKey span s HI Hf) as HK.
  destruct key; try exact HK.
  destruct (blocks s !! span); [|exact HK].
  destruct (_ && _); [now apply handleTextMutation_Inv | exact HK].
Qed.

Lemma render_text_item_Inv compose pageNumber scale viewportTransform
    (savedTexts : gmap string string) (index : nat) (textItem : TextItem)
    (sectionGuess : string) (s : Canvas) :
  Inv s -> focused s = None ->
  Inv (render_text_item compose pageNumber scale viewportTransform savedTexts
         index textItem sectionGuess s).2 /\
  focused (render_text_item compose pageNumber scale viewportTransform savedTexts
             index textItem sectionGuess s).2 = None.
Proof.
  intros [H1 H2 H3 H4 H5] Hf. unfold render_text_item. cbn. split; [|exact Hf].
  split; cbn; try assumption.
  - intros sp b. rewrite lookup_insert. case_decide as Hk; [|apply H1].
    now intros [= <-].
  - intros sp b. rewrite !lookup_insert. case_decide as Hk; [|apply H2].
    now intros [= <-].
  - intros sp b. unfold textContent. cbn. rewrite !lookup_insert.
    case_decide as Hk; [now intros [= <-]|]. apply H3.
  - rewrite Hf. discriminate.
Qed.

Lemma render_items_Inv compose pageNumber scale viewportTransform
    (savedTexts : gmap string string) (items : list ContentItem) (index : nat)
    (sectionGuess : string) (s : Canvas) :
  Inv s -> focused s = None ->
  Inv (render_items compose pageNumber scale viewportTransform savedTexts
         items index sectionGuess s).2.
Proof.
  revert index sectionGuess s.
  induction items as [|item items IH]; intros index sectionGuess s HI Hf; [exact HI|].
  destruct item as [t|]; cbn [render_items]; [|now apply IH].
  destruct (truthy (trim (str t))); [|now apply IH].
  destruct (render_text_item_Inv compose pageNumber scale viewportTransform
              savedTexts index t
              (guess_section (toLowerCase (str t)) sectionGuess) s HI Hf)
    as [HI' Hf'].
  destruct (render_text_item _ _ _ _ _ _ _ _ _) as [block s'].
  specialize (IH (S index) (guess_section (toLowerCase (str t)) sectionGuess) s' HI' Hf').
  destruct (render_items _ _ _ _ _ _ _ _ _) as [extracted s'']. exact IH.
Qed.

Lemma renderPage_Inv compose pageNumber scale viewportTransform
    (items : list ContentItem) (s : Canvas) :
  Inv s -> Inv (renderPage compose pageNumber scale viewportTransform items s).2.
Proof.
  intros [H1 H2 H3 H4 H5]. unfold renderPage. apply render_items_Inv; [|reflexivity].
  split; cbn; try assumption; intros *; try (rewrite lookup_empty; discriminate);
    try discriminate.
Qed.

(** Every state of a session satisfies the invariant. *)
Lemma reachable_Inv (s : Canvas) : reachable s -> Inv s.
Proof.
  induction 1 as [| ? ? ? ? ? s _ IH | span s _ IH Hsome | span s _ IH
                 | span t s _ IH Hf | key shiftKey span s _ IH Hf | v s _ IH
                 | v s _ IH | s _ IH | ok s _ IH _ | ls s _ IH | now s _ IH].
  - exact Inv_init.
  - now apply renderPage_Inv.
  - now apply dom_focus_Inv.
  - now apply dom_blur_Inv.
  - now apply typeText_Inv.
  - now apply keydown_Inv.
  - eapply Inv_ext; [..|exact IH]; reflexivity.
  - eapply Inv_ext; [..|exact IH]; reflexivity.
  - unfold saveChanges_begin. destruct (_ || _); [exact IH|].
    eapply Inv_ext; [..|exact IH]; reflexivity.
  - unfold saveChanges_settle. destruct ok; cbn.
    + destruct IH as [H1 H2 H3 H4 H5]. split; cbn; try assumption.
      intros k u. rewrite lookup_empty. discriminate.
    + eapply Inv_ext; [..|exact IH]; reflexivity.
  - eapply Inv_ext; [..|exact IH]; reflexivity.
  - eapply Inv_ext; [..|exact IH]; reflexivity.
Qed.

End ControllerInvariant.

(** ** The overlay controller: a session used as running example *)

Section ExampleSession.
Import JsString EditorStorage DocumentCanvas.

Lemma reachable_typing : reachable typing.
Proof.
  apply reach_type; [|reflexivity].
  apply reach_focus; [|vm_compute; eauto].
  apply reach_render. apply reach_init.
Qed.

Lemma reachable_committed : reachable committed.
Proof. apply reach_blur. exact reachable_typing. Qed.

Lemma reachable_flushing : reachable flushing.
Proof. apply reach_flush_begin. exact reachable_committed. Qed.

Lemma reachable_requeued : reachable requeued.
Proof.
  apply reach_blur. apply reach_type; [|reflexivity].
  apply reach_focus; [|vm_compute; eauto]. exact reachable_flushing.
Qed.

Lemma reachable_locked_while_typing : reachable locked_while_typing.
Proof. apply reach_lock. exact reachable_typing. Qed.

Example committed_queue :
  pendingSaves committed =
    {[ "block-1-2" :=
         Build_BlockUpdate "block-1-2" "Engineer" "Enginer" (Some "content") ]} /\
  getStoredEdits (storage committed) =
    Some {| edits := {[ "block-1-2" := "Enginer" ]}; timestamp := 0;
            pdfName := "current_resume"; isDirty := true |}.
Proof. split; reflexivity. Qed.

End ExampleSession.

(** ** Flush (C2) *)

Section Flush.
Import JsString EditorStorage DocumentCanvas.

(** C2, as stated, fails while a flush is in flight: in the state
    [flushing] of the example session one save is pending and
    [isSavingRef] is set; a second call of [saveChanges] returns [true] at
    once, calls nothing, and the save is still pending afterwards. *)
Lemma saveChanges_true_with_pending_saves :
  isSaving flushing = true /\
  (saveChanges (Some (fun _ => true)) flushing).1 = (true, []) /\
  size (pendingSaves (saveChanges (Some (fun _ => true)) flushing).2) = 1 /\
  handle_hasPendingChanges (saveChanges (Some (fun _ => true)) flushing).2 = true.
Proof. repeat split. Qed.

(** C2, amended.  For every controller state in which no flush is in
    flight, [saveChanges] returns [true] if and only if no pending save
    remains after it; this covers the case where nothing was pending. *)
Theorem saveChanges_true_iff_nothing_pending
    (saveCallback : option (BlockUpdate -> bool)) (s : Canvas) :
  isSaving s = false ->
  (saveChanges saveCallback s).1.1 = true <->
  pendingSaves (saveChanges saveCallback s).2 = ∅.
Proof.
  intros Hs. unfold saveChanges, saveChanges_begin. rewrite Hs, orb_false_r.
  destruct (Nat.eqb_spec (size (pendingSaves s)) 0) as [Hz|Hnz]; cbn.
  - split; [intros _; now apply map_size_empty_iff | reflexivity].
  - destruct saveCallback as [cb|]; cbn; [|split; reflexivity].
    destruct (forallb cb (pending_updates s)); cbn; [split; reflexivity|].
    split; [discriminate|]. intros He. rewrite He, map_size_empty in Hnz. lia.
Qed.

Lemma saveChanges_true_iff_nothing_pending_witness :
  (saveChanges (Some (fun _ => false)) committed).1.1 = true <->
  pendingSaves (saveChanges (Some (fun _ => false)) committed).2 = ∅.
Proof.
  apply (saveChanges_true_iff_nothing_pending (Some (fun _ => false)) committed).
  reflexivity.
Defined.

(** While a flush is in flight a further call changes nothing. *)
Lemma saveChanges_in_flight (saveCallback : option (BlockUpdate -> bool)) (s : Canvas) :
  isSaving s = true -> saveChanges saveCallback s = (true, [], s).
Proof.
  intros Hs. unfold saveChanges, saveChanges_begin. now rewrite Hs, orb_true_r.
Qed.

(** With nothing pending the call is trivially successful. *)
Lemma saveChanges_nothing_pending (saveCallback : option (BlockUpdate -> bool))
    (s : Canvas) :
  pendingSaves s = ∅ -> saveChanges saveCallback s = (true, [], s).
Proof.
  intros He. unfold saveChanges, saveChanges_begin. now rewrite He, map_size_empty.
Qed.

(** A failed flush keeps every pending save for the next attempt. *)
Lemma saveChanges_failure_keeps_queue (cb : BlockUpdate -> bool) (s : Canvas) :
  isSaving s = false -> pendingSaves s <> ∅ ->
  forallb cb (pending_updates s) = false ->
  (saveChanges (Some cb) s).1.1 = false /\
  pendingSaves (saveChanges (Some cb) s).2 = pendingSaves s /\
  isSaving (saveChanges (Some cb) s).2 = false.
Proof.
  intros Hs Hne Hf. unfold saveChanges, saveChanges_begin. rewrite Hs, orb_false_r.
  destruct (Nat.eqb_spec (size (pendingSaves s)) 0) as [Hz|Hnz].
  - apply map_size_empty_iff in Hz. contradiction.
  - cbn. rewrite Hf. repeat split.
Qed.

End Flush.

(** ** Deduplication of queued saves (C3) *)

Section Dedup.
Import JsString EditorStorage DocumentCanvas.

Lemma filter_none {A : Type} (P : A -> Prop) `{!forall x, Decision (P x)} (l : list A) :
  (forall x, x ∈ l -> ~ P x) -> filter P l = [].
Proof.
  induction l as [|a l IH]; intros Hall; [reflexivity|].
  rewrite filter_cons_False by (apply Hall; left).
  apply IH. intros x Hx. apply Hall. now right.
Qed.

(** In a map whose entries are filed under their own block id, the
    updates for one id are the entry stored under it, if any. *)
Lemma updates_for_id (m : gmap string BlockUpdate) (bid : string) (u : BlockUpdate) :
  (forall k v, m !! k = Some v -> blockId v = k) ->
  m !! bid = Some u ->
  filter (fun v => blockId v = bid) (map_to_list m).*2 = [u].
Proof.
  intros Hkeys Hu.
  rewrite <- (insert_id m bid u Hu), <- insert_delete_eq.
  apply Permutation_singleton_r.
  rewrite map_to_list_insert by apply lookup_delete_eq.
  rewrite fmap_cons. cbn [snd].
  rewrite filter_cons_True by (now apply (Hkeys bid u)).
  apply Permutation_cons; [reflexivity|].
  rewrite filter_none; [reflexivity|].
  intros v Hv Hb. apply list_elem_of_fmap in Hv. destruct Hv as [[k v'] [-> Hin]].
  apply elem_of_map_to_list in Hin. cbn in Hb.
  destruct (decide (k = bid)) as [->|Hk].
  - rewrite lookup_delete_eq in Hin. discriminate.
  - rewrite lookup_delete_ne in Hin by congruence.
    apply Hkeys in Hin. congruence.
Qed.

(** C3, as stated, fails while a flush is in flight.  In the example
    session the save of "Enginer" is in flight when the user edits the block
    again to "Engineer II": the queue holds the newer save, but a flush
    called now returns at once and hands nothing to the save callback; and
    when the flush in flight succeeds it empties the queue, so a later flush
    has nothing to send for the block either. *)
Lemma flush_in_flight_sends_no_newer_save :
  isSaving flushing = true /\
  pendingSaves flushing !! "block-1-2"
    = Some (Build_BlockUpdate "block-1-2" "Engineer" "Enginer" (Some "content")) /\
  pendingSaves requeued !! "block-1-2"
    = Some (Build_BlockUpdate "block-1-2" "Enginer" "Engineer II" (Some "content")) /\
  (saveChanges (Some (fun _ => true)) requeued).1 = (true, []) /\
  pendingSaves (saveChanges_settle true requeued).2 = ∅ /\
  (saveChanges (Some (fun _ => true)) (saveChanges_settle true requeued).2).1
    = (true, []).
Proof. repeat split. Qed.

(** C3, amended.  Let two saves be queued for one block id, one after the
    other, in a state of a session in which no flush is in flight (each is a
    save: its new text differs from its old text).  Then the queue holds the
    second save under that id, the second save is the only pending update
    for that id (it has replaced the first), and a flush that follows hands
    the save callback exactly one update for that id, carrying the latest
    text. *)
Theorem queueBlockSave_keeps_latest_save_only (s : Canvas)
    (bid old1 new1 old2 new2 : string) (sec1 sec2 : option string)
    (cb : BlockUpdate -> bool) :
  reachable s ->
  isSaving s = false ->
  old1 <> new1 ->
  old2 <> new2 ->
  pendingSaves (queueBlockSave bid old2 new2 sec2
                  (queueBlockSave bid old1 new1 sec1 s)) !! bid
    = Some (Build_BlockUpdate bid old2 new2 sec2) /\
  filter (fun u => blockId u = bid)
    (pending_updates (queueBlockSave bid old2 new2 sec2
                        (queueBlockSave bid old1 new1 sec1 s)))
    = [Build_BlockUpdate bid old2 new2 sec2] /\
  filter (fun u => blockId u = bid)
    (saveChanges (Some cb) (queueBlockSave bid old2 new2 sec2
                              (queueBlockSave bid old1 new1 sec1 s))).1.2
    = [Build_BlockUpdate bid old2 new2 sec2].
Proof.
  intros Hreach Hsaving Hne1 Hne2.
  set (s2 := queueBlockSave bid old2 new2 sec2 (queueBlockSave bid old1 new1 sec1 s)).
  assert (HI : Inv s2).
  { unfold s2. do 2 apply queueBlockSave_Inv. now apply reachable_Inv. }
  assert (Hlook : pendingSaves s2 !! bid = Some (Build_BlockUpdate bid old2 new2 sec2)).
  { unfold s2. rewrite queueBlockSave_pending by assumption. apply lookup_insert_eq. }
  assert (Hupd : filter (fun u => blockId u = bid) (pending_updates s2)
                 = [Build_BlockUpdate bid old2 new2 sec2]).
  { unfold pending_updates. apply updates_for_id; [apply (inv_pending s2 HI) | exact Hlook]. }
  split; [exact Hlook|]. split; [exact Hupd|].
  unfold saveChanges, saveChanges_begin.
  assert (Hs2 : isSaving s2 = false).
  { unfold s2.
    destruct (queueBlockSave_fields bid old2 new2 sec2 (queueBlockSave bid old1 new1 sec1 s))
      as (_ & _ & _ & _ & _ & _ & ->).
    destruct (queueBlockSave_fields bid old1 new1 sec1 s) as (_ & _ & _ & _ & _ & _ & ->).
    exact Hsaving. }
  rewrite Hs2, orb_false_r.
  destruct (Nat.eqb_spec (size (pendingSaves s2)) 0) as [Hz|_].
  - apply map_size_empty_iff in Hz. rewrite Hz, lookup_empty in Hlook. discriminate.
  - cbn. destruct (forallb cb (pending_updates s2)); exact Hupd.
Qed.

Lemma queueBlockSave_keeps_latest_save_only_witness :
  pendingSaves (queueBlockSave "block-1-2" "Enginer" "Engineer II" None
                  (queueBlockSave "block-1-2" "Engineer" "Enginer" None typing))
    !! "block-1-2"
    = Some (Build_BlockUpdate "block-1-2" "Enginer" "Engineer II" None) /\
  filter (fun u => blockId u = "block-1-2")
    (pending_updates (queueBlockSave "block-1-2" "Enginer" "Engineer II" None
                        (queueBlockSave "block-1-2" "Engineer" "Enginer" None typing)))
    = [Build_BlockUpdate "block-1-2" "Enginer" "Engineer II" None] /\
  filter (fun u => blockId u = "block-1-2")
    (saveChanges (Some (fun _ => true))
       (queueBlockSave "block-1-2" "Enginer" "Engineer II" None
          (queueBlockSave "block-1-2" "Engineer" "Enginer" None typing))).1.2
    = [Build_BlockUpdate "block-1-2" "Enginer" "Engineer II" None].
Proof.
  apply (queueBlockSave_keeps_latest_save_only typing "block-1-2"
           "Engineer" "Enginer" "Enginer" "Engineer II" None None (fun _ => true)).
  - apply reach_type; [|reflexivity].
    apply reach_focus; [|vm_compute; eauto].
    apply reach_render. apply reach_init.
  - reflexivity.
  - discriminate.
  - discriminate.
Defined.

(** A call whose new text equals its old text queues nothing. *)
Lemma queueBlockSave_same_text (bid t : string) (sec : option string) (s : Canvas) :
  queueBlockSave bid t t sec s = s.
Proof. apply queueBlockSave_unchanged. Qed.

(** Saves for other blocks stay in the queue. *)
Lemma queueBlockSave_other (bid other old new : string) (sec : option string)
    (s : Canvas) :
  other <> bid ->
  pendingSaves (queueBlockSave bid old new sec s) !! other = pendingSaves s !! other.
Proof.
  intros Hne. destruct (String.eqb_spec old new) as [->|Hd].
  - now rewrite queueBlockSave_unchanged.
  - rewrite queueBlockSave_pending by assumption. now rewrite lookup_insert_ne.
Qed.

(** The request key of the API layer is made of the block ids and the new
    texts only. *)
Example request_key_of_two_updates :
  EditorApi.getRequestKey
    [ Build_BlockUpdate "block-1-0" "2024" "2025" None;
      Build_BlockUpdate "block-1-2" "Engineer" "Enginer" (Some "content") ]
  = "block-1-0:2025|block-1-2:Enginer".
Proof. reflexivity. Qed.

End Dedup.

(** ** Escape reverts an edit (C6) *)

Section EscapeToRevert.
Import JsString EditorStorage DocumentCanvas.

(** C6, as stated, fails while the editor is locked: the user is typing
    "Enginer" over "Engineer" in block-1-2 when the host locks the editor;
    the Escape key is then swallowed, the span keeps the typed text and the
    focus, and nothing is reverted. *)
Lemma escape_is_ignored_while_locked :
  focused locked_while_typing = Some "block-1-2" /\
  originalTextRef locked_while_typing !! "block-1-2" = Some "Engineer" /\
  keydown Escape false "block-1-2" locked_while_typing = locked_while_typing /\
  textContent (keydown Escape false "block-1-2" locked_while_typing) "block-1-2"
    = "Enginer" /\
  focused (keydown Escape false "block-1-2" locked_while_typing) = Some "block-1-2".
Proof. repeat split. Qed.

(** A span that shows the snapshot of its block is left as it is. *)
Lemma handleBlur_unchanged (s : Canvas) (span : string) (b : ResumeBlock) :
  blocks s !! span = Some b ->
  originalTextRef s !! id b = Some (text b) ->
  textContent s span = text b ->
  handleBlur span s = s.
Proof.
  intros Hb Hsnap Hshown. unfold handleBlur. rewrite Hb, Hsnap, Hshown.
  destruct (truthy (text b)); now rewrite String.eqb_refl.
Qed.

(** What Escape does in an unlocked editor: the span shows the snapshot
    again and loses the focus; nothing else changes. *)
Lemma keydown_Escape_unlocked (s : Canvas) (span o : string) (shiftKey : bool) :
  Inv s ->
  isLocked s = false ->
  focused s = Some span ->
  originalTextRef s !! span = Some o ->
  keydown Escape shiftKey span s =
    set_focused None (set_spanText (<[span := o]> (spanText s)) s).
Proof.
  intros HI Hunlocked Hf Ho.
  destruct (inv_focus s HI span Hf) as [b Hb].
  pose proof (inv_id s HI span b Hb) as Hid.
  pose proof (inv_snapshot s HI span b Hb) as Hsnap.
  assert (o = text b) as -> by congruence.
  assert (Hshown : forall s0, spanText s0 = <[span := text b]> (spanText s) ->
                              textContent s0 span = text b).
  { intros s0 E. unfold textContent. now rewrite E, lookup_insert_eq. }
  assert (Hblur : dom_blur span (set_spanText (<[span := text b]> (spanText s)) s)
                  = set_focused None (set_spanText (<[span := text b]> (spanText s)) s)).
  { unfold dom_blur. rewrite decide_True by exact Hf.
    apply (handleBlur_unchanged _ span b); [exact Hb | now rewrite Hid | now apply Hshown]. }
  unfold keydown, handleKeyDown. rewrite Hunlocked, Hb, Hid, Hsnap. cbn [negb andb].
  rewrite Hblur, bool_decide_eq_true_2 by eauto.
  unfold handleTextMutation. cbn [fold_left].
  change (blocks (set_focused None (set_spanText (<[span := text b]> (spanText s)) s)))
    with (blocks s).
  rewrite Hb, Hshown by reflexivity. now rewrite String.eqb_refl.
Qed.

(** C6, amended.  In an editor that is not locked, for every block that is
    being edited (its span has the focus) with rollback snapshot
    [originalText]: pressing Escape makes the span show the snapshot again
    and takes the focus away, so the block is clean with its current text
    equal to the snapshot; no save is queued (the pending-save queue and the
    pending flag are as before) and neither the stored edits nor the block's
    committed text change. *)
Theorem escape_reverts_to_snapshot (s : Canvas) (span originalText : string)
    (shiftKey : bool) :
  reachable s ->
  isLocked s = false ->
  focused s = Some span ->
  originalTextRef s !! span = Some originalText ->
  textContent (keydown Escape shiftKey span s) span = originalText /\
  focused (keydown Escape shiftKey span s) = None /\
  originalTextRef (keydown Escape shiftKey span s) !! span = Some originalText /\
  pendingSaves (keydown Escape shiftKey span s) = pendingSaves s /\
  hasPendingChanges (keydown Escape shiftKey span s) = hasPendingChanges s /\
  storage (keydown Escape shiftKey span s) = storage s /\
  blocks (keydown Escape shiftKey span s) = blocks s.
Proof.
  intros Hreach Hunlocked Hf Ho.
  rewrite (keydown_Escape_unlocked s span originalText shiftKey
             (reachable_Inv s Hreach) Hunlocked Hf Ho).
  unfold textContent. cbn. rewrite lookup_insert_eq. repeat split. exact Ho.
Qed.

Lemma escape_reverts_to_snapshot_witness :
  textContent (keydown Escape false "block-1-2" typing) "block-1-2" = "Engineer" /\
  focused (keydown Escape false "block-1-2" typing) = None /\
  originalTextRef (keydown Escape false "block-1-2" typing) !! "block-1-2"
    = Some "Engineer" /\
  pendingSaves (keydown Escape false "block-1-2" typing) = pendingSaves typing /\
  hasPendingChanges (keydown Escape false "block-1-2" typing)
    = hasPendingChanges typing /\
  storage (keydown Escape false "block-1-2" typing) = storage typing /\
  blocks (keydown Escape false "block-1-2" typing) = blocks typing.
Proof.
  apply (escape_reverts_to_snapshot typing "block-1-2" "Engineer" false).
  - apply reach_type; [|reflexivity].
    apply reach_focus; [|vm_compute; eauto].
    apply reach_render. apply reach_init.
  - reflexivity.
  - reflexivity.
  - reflexivity.
Defined.

(** The scenario of the specification, evaluated: "Engineer" is on the
    page, the user types "Enginer" and presses Escape. *)
Example escape_scenario :
  textContent typing "block-1-2" = "Enginer" /\
  textContent (keydown Escape false "block-1-2" typing) "block-1-2" = "Engineer" /\
  pendingSaves (keydown Escape false "block-1-2" typing) = ∅ /\
  getStoredEdits (storage (keydown Escape false "block-1-2" typing)) = None.
Proof. repeat split. Qed.

(** Leaving the span instead commits the edit and queues its save. *)
Example blur_scenario :
  pendingSaves (dom_blur "block-1-2" typing) !! "block-1-2"
    = Some (Build_BlockUpdate "block-1-2" "Engineer" "Enginer" (Some "content")).
Proof. reflexivity. Qed.

End EscapeToRevert.

(** ** Extraction of positioned blocks (C8) *)

Section ExtractionProperties.
Import JsString EditorStorage DocumentCanvas.

Context (compose : Matrix -> Matrix -> Matrix) (pageNumber : nat)
        (scale : float) (viewportTransform : Matrix).

Lemma render_text_item_placed (savedTexts : gmap string string) (index : nat)
    (t : TextItem) (sectionGuess : string) (s : Canvas) :
  placed compose pageNumber scale viewportTransform
    (render_text_item compose pageNumber scale viewportTransform savedTexts
       index t sectionGuess s).1 t /\
  spanIndex (render_text_item compose pageNumber scale viewportTransform savedTexts
               index t sectionGuess s).1 = index.
Proof. unfold placed, render_text_item. cbn. repeat split. Qed.

(** The blocks extracted from [items], whose first entry has index [k]:
    each comes from a text run that is not blank, at the index the block
    records, and the indices increase. *)
Lemma render_items_extracted (savedTexts : gmap string string)
    (items : list ContentItem) (k : nat) (sectionGuess : string) (s : Canvas) :
  let extracted :=
    (render_items compose pageNumber scale viewportTransform savedTexts
       items k sectionGuess s).1 in
  Forall (fun b => k <= spanIndex b /\
                   exists t, items !! (spanIndex b - k) = Some (TextRun t) /\
                             trim (str t) <> "" /\ placed compose pageNumber scale viewportTransform b t) extracted /\
  (forall j t, items !! j = Some (TextRun t) -> trim (str t) <> "" ->
               exists b, In b extracted /\ spanIndex b = k + j) /\
  NoDup (map spanIndex extracted).
Proof.
  revert k sectionGuess s. induction items as [|item items IH]; intros k sectionGuess s.
  - cbn. split; [constructor|]. split; [intros j t Hj; discriminate | constructor].
  - assert (Hshift : forall k' sg s',
      let ex := (render_items compose pageNumber scale viewportTransform savedTexts
                   items (S k') sg s').1 in
      Forall (fun b => k' <= spanIndex b /\
                exists t, (item :: items) !! (spanIndex b - k') = Some (TextRun t) /\
                          trim (str t) <> "" /\ placed compose pageNumber scale viewportTransform b t) ex /\
      (forall j t, items !! j = Some (TextRun t) -> trim (str t) <> "" ->
                   exists b, In b ex /\ spanIndex b = k' + S j) /\
      NoDup (map spanIndex ex) /\
      Forall (fun b => S k' <= spanIndex b) ex).
    { intros k' sg s'. destruct (IH (S k') sg s') as (Hall & Hex & Hnd).
      cbn zeta. split; [|split; [|split]].
      - eapply List.Forall_impl; [|exact Hall]. cbn. intros b [Hle [t [Ht Hrest]]].
        split; [lia|]. exists t. split; [|exact Hrest].
        replace (spanIndex b - k') with (S (spanIndex b - S k')) by lia. exact Ht.
      - intros j t Hj Hne. destruct (Hex j t Hj Hne) as [b [Hin Hb]].
        exists b. split; [exact Hin | lia].
      - exact Hnd.
      - eapply List.Forall_impl; [|exact Hall]. cbn. intros b [Hle _]. exact Hle. }
    destruct item as [t|]; cbn [render_items].
    + destruct (truthy (trim (str t))) eqn:Htrim.
      * destruct (render_text_item_placed savedTexts k t
                    (guess_section (toLowerCase (str t)) sectionGuess) s)
          as [Hplaced Hindex].
        destruct (render_text_item _ _ _ _ _ _ _ _ _) as [block s'] eqn:Eitem.
        cbn [fst] in Hplaced, Hindex.
        specialize (Hshift k (guess_section (toLowerCase (str t)) sectionGuess) s').
        destruct (render_items _ _ _ _ _ items _ _ _) as [extracted s''].
        cbn [fst] in *. destruct Hshift as (Hall & Hex & Hnd & Hge).
        split; [|split].
        -- constructor; [|exact Hall]. split; [lia|]. exists t.
           rewrite Hindex, Nat.sub_diag. split; [reflexivity|].
           split; [|exact Hplaced]. intros E. rewrite E in Htrim. discriminate.
        -- intros [|j] t' Hj Hne.
           ++ exists block. split; [now left | lia].
           ++ destruct (Hex j t' Hj Hne) as [b [Hin Hb]]. exists b. split; [now right | exact Hb].
        -- cbn [map]. constructor; [|exact Hnd]. rewrite Hindex. intros Hin.
           apply list_elem_of_In, in_map_iff in Hin. destruct Hin as [b [Hb Hin]].
           rewrite Forall_forall in Hge. specialize (Hge b (proj2 (list_elem_of_In _ _) Hin)). lia.
      * specialize (Hshift k sectionGuess s).
        destruct (render_items _ _ _ _ _ items _ _ _) as [extracted s''].
        cbn [fst] in *. destruct Hshift as (Hall & Hex & Hnd & _).
        split; [exact Hall|]. split; [|exact Hnd].
        intros [|j] t' Hj Hne.
        -- injection Hj as <-. destruct (trim (str t)); [congruence | discriminate].
        -- apply (Hex j t' Hj Hne).
    + specialize (Hshift k sectionGuess s).
      destruct (render_items _ _ _ _ _ items _ _ _) as [extracted s''].
      cbn [fst] in *. destruct Hshift as (Hall & Hex & Hnd & _).
      split; [exact Hall|]. split; [|exact Hnd].
      intros [|j] t' Hj Hne; [discriminate|]. apply (Hex j t' Hj Hne).
Qed.

(** C8.  Of the entries of a page's text content, exactly the text runs
    whose trimmed text is not empty produce a block, one each (a run whose
    trimmed text is empty, and an entry that is no text run, produce none).
    For the block of such a run, with [tx] the run's text-space transform
    composed with the page transform: its [fontSize] is
    [sqrt (tx.a * tx.a + tx.b * tx.b)] and its [y] is [tx.f - fontSize] (the
    transformed baseline minus the font size, from the top-left origin). *)
Theorem renderPage_blocks_of_text_runs (items : list ContentItem) (s : Canvas) :
  (forall i,
     (exists b,
        In b (renderPage compose pageNumber scale viewportTransform items s).1 /\
        spanIndex b = i) <->
     (exists t, items !! i = Some (TextRun t) /\ trim (str t) <> "")) /\
  NoDup (map spanIndex
           (renderPage compose pageNumber scale viewportTransform items s).1) /\
  (forall b,
     In b (renderPage compose pageNumber scale viewportTransform items s).1 ->
     exists t,
       items !! spanIndex b = Some (TextRun t) /\
       trim (str t) <> "" /\
       fontSize b =
         PrimFloat.sqrt
           (ma (compose viewportTransform (transform t)) *
              ma (compose viewportTransform (transform t)) +
            mb (compose viewportTransform (transform t)) *
              mb (compose viewportTransform (transform t)))%float /\
       y b = (mf (compose viewportTransform (transform t)) - fontSize b)%float).
Proof.
  unfold renderPage.
  match goal with
  | |- context [render_items _ _ _ _ ?saved items 0 ?sg ?s0] =>
      destruct (render_items_extracted saved items 0 sg s0) as (Hall & Hex & Hnd);
      set (extracted := (render_items compose pageNumber scale viewportTransform
                           saved items 0 sg s0).1) in *
  end.
  rewrite Forall_forall in Hall.
  split; [|split; [exact Hnd|]].
  - intros i. split.
    + intros [b [Hin <-]].
      destruct (Hall b (proj2 (list_elem_of_In _ _) Hin)) as [_ [t [Ht [Hne _]]]].
      rewrite Nat.sub_0_r in Ht. eauto.
    + intros [t [Ht Hne]]. destruct (Hex i t Ht Hne) as [b [Hin Hb]]. eauto.
  - intros b Hin.
    destruct (Hall b (proj2 (list_elem_of_In _ _) Hin)) as [_ [t [Ht [Hne Hp]]]].
    rewrite Nat.sub_0_r in Ht. exists t. unfold placed in Hp. cbn zeta in Hp.
    destruct Hp as (Hfs & Hy & _). repeat split; assumption.
Qed.

End ExtractionProperties.

Section ExtractionExample.
Import JsString EditorStorage DocumentCanvas.

(** The example page: the blank run and the marked-content entry give no
    block; "Engineer", set at 12 pt with its baseline 700 pt above the
    bottom of an A4 page, gets font size 12 and its top edge at 130. *)
Example extraction_of_example_page :
  map (fun b => (id b, text b, spanIndex b, fontSize b, x b, y b))
    (renderPage Util_transform 1 1 a4_viewport
       [TextRun run_blank; MarkedContent; TextRun run_engineer] init).1
  = [("block-1-2", "Engineer", 2, 12%float, 10%float, 130%float)].
Proof. reflexivity. Qed.

(** A rotated or scaled run: the font size is the length of the first
    column of the composed transform. *)
Example font_size_of_scaled_run :
  map fontSize
    (renderPage Util_transform 1 2
       {| ma := 2; mb := 0; mc := 0; md := -2; me := 0; mf := 1684 |}
       [TextRun {| str := "x"; dir := "ltr";
                   transform := {| ma := 3; mb := 4; mc := -4; md := 3;
                                   me := 10; mf := 700 |};
                   item_width := 5; item_height := 5; fontName := "";
                   hasEOL := false |}] init).1
  = [10%float].
Proof. reflexivity. Qed.

End ExtractionExample.

(** ** Export (C7) *)

Section ExportProperties.
Import JsString FontMapper EditorTypes PdfExport.

Context (widthOfTextAtSize : StandardFont -> string -> float -> option float)
        (canEncode : StandardFont -> string -> bool).

Lemma embedAllFonts_pages (doc : PDFDocument) :
  doc_pages (embedAllFonts doc) = doc_pages doc.
Proof. reflexivity. Qed.

(** A block whose state is missing or not dirty is skipped. *)
Lemma export_block_clean (blockStates : gmap string EditableBlockState)
    (block : TextBlock) (acc : PDFDocument * gmap string ParsedFontInfo) :
  (forall st, blockStates !! id block = Some st -> isDirty st = false) ->
  export_block widthOfTextAtSize blockStates block acc = Some acc.
Proof.
  intros Hclean. unfold export_block. destruct acc as [doc fontCache].
  destruct (blockStates !! id block) as [st|]; [|reflexivity].
  now rewrite (Hclean st eq_refl).
Qed.

Lemma export_block_v1_clean (blockStates : gmap string EditableBlockState)
    (block : TextBlock) (doc : PDFDocument) :
  (forall st, blockStates !! id block = Some st -> isDirty st = false) ->
  export_block_v1 canEncode blockStates doc block = Some doc.
Proof.
  intros Hclean. unfold export_block_v1.
  destruct (blockStates !! id block) as [st|]; [|reflexivity].
  now rewrite (Hclean st eq_refl).
Qed.

(** C7.  When no block state is dirty, the export draws nothing: the
    exported document has exactly the pages of the loaded one, each with the
    content it had (no rectangle and no text is added), and only the
    standard fonts have been embedded.  This holds for the current
    [exportToPDF] and for its first version, neither of which can fail in
    this case. *)
Theorem exportToPDF_without_dirty_blocks
    (fontCache : gmap string ParsedFontInfo) (pdfDoc : PDFDocument)
    (bs : list TextBlock) (blockStates : gmap string EditableBlockState) :
  (forall k st, blockStates !! k = Some st -> isDirty st = false) ->
  exportToPDF widthOfTextAtSize fontCache pdfDoc bs blockStates
    = Some (embedAllFonts pdfDoc, fontCache) /\
  doc_pages (embedAllFonts pdfDoc) = doc_pages pdfDoc /\
  exportToPDF_v1 canEncode pdfDoc bs blockStates
    = Some (embedFont HelveticaBold (embedFont Helvetica pdfDoc)) /\
  doc_pages <$> exportToPDF_v1 canEncode pdfDoc bs blockStates
    = Some (doc_pages pdfDoc).
Proof.
  intros Hclean.
  assert (H1 : forall acc, export_blocks widthOfTextAtSize blockStates bs acc = Some acc).
  { induction bs as [|block rest IH]; intros acc; [reflexivity|].
    cbn [export_blocks]. rewrite export_block_clean by (intros st; apply Hclean).
    apply IH. }
  assert (H2 : forall doc, export_blocks_v1 canEncode blockStates bs doc = Some doc).
  { clear H1. induction bs as [|block rest IH]; intros doc; [reflexivity|].
    cbn [export_blocks_v1]. rewrite export_block_v1_clean by (intros st; apply Hclean).
    apply IH. }
  unfold exportToPDF, exportToPDF_v1. rewrite H1, H2. repeat split.
Qed.

End ExportProperties.

Section ExportExample.
Import JsString FontMapper EditorTypes PdfExport.

Lemma exportToPDF_without_dirty_blocks_witness :
  exportToPDF half_em ∅ one_page_doc [block_2024] {[ "block-1-0" := clean_state ]}
    = Some (embedAllFonts one_page_doc, ∅) /\
  doc_pages (embedAllFonts one_page_doc) = doc_pages one_page_doc /\
  exportToPDF_v1 printable_ascii one_page_doc [block_2024]
    {[ "block-1-0" := clean_state ]}
    = Some (embedFont HelveticaBold (embedFont Helvetica one_page_doc)) /\
  doc_pages <$> exportToPDF_v1 printable_ascii one_page_doc [block_2024]
                  {[ "block-1-0" := clean_state ]}
    = Some (doc_pages one_page_doc).
Proof.
  apply (exportToPDF_without_dirty_blocks half_em printable_ascii ∅ one_page_doc
           [block_2024] {[ "block-1-0" := clean_state ]}).
  intros k st. rewrite lookup_singleton. case_decide; [|discriminate].
  intros [= <-]. reflexivity.
Defined.

(** The end-to-end scenario of the specification: the block "2024" of a
    one-page document is edited to "2025"; the export covers the block's
    box ([outY = 842 - 10 - 12]) and draws "2025" at the block's font size
    in the font its identifier is classified to (a generic identifier:
    serif, Times Roman). *)
Example export_of_dirty_block :
  (fun r => doc_pages r.1) <$>
    exportToPDF half_em ∅ one_page_doc [block_2024] {[ "block-1-0" := dirty_state ]}
  = Some [ {| pageHeight := 842;
              items := [ Original "BT (2024) Tj ET";
                         Rectangle 6 (820 - 12 * 0.3) 50 (12 * 1.4) white;
                         Text "2025" 10 820 12 TimesRoman black ] |} ].
Proof. reflexivity. Qed.

End ExportExample.

Section ExportFrame.
Import JsString FontMapper EditorTypes PdfExport.

Lemma extends_page_refl (p : PDFPage) : extends_page p p.
Proof. split; [reflexivity|]. exists []. now rewrite app_nil_r. Qed.

Lemma extends_page_trans (p q r : PDFPage) :
  extends_page p q -> extends_page q r -> extends_page p r.
Proof.
  intros [H1 [a1 E1]] [H2 [a2 E2]]. split; [congruence|].
  exists (a1 ++ a2). now rewrite E2, E1, app_assoc.
Qed.

Lemma draw_extends (n : Z) (it : PageItem) (doc : PDFDocument) :
  Forall2 extends_page (doc_pages doc) (doc_pages (draw n it doc)).
Proof.
  unfold draw. cbn. generalize (Z.to_nat n) as i.
  induction (doc_pages doc) as [|p ps IH]; intros i; [constructor|].
  destruct i as [|i]; cbn.
  - constructor.
    + split; [reflexivity|]. now exists [it].
    + clear IH. induction ps; constructor; [apply extends_page_refl | assumption].
  - constructor; [apply extends_page_refl | apply IH].
Qed.

Lemma Forall2_extends_trans (l1 l2 l3 : list PDFPage) :
  Forall2 extends_page l1 l2 -> Forall2 extends_page l2 l3 ->
  Forall2 extends_page l1 l3.
Proof.
  intros H12. revert l3. induction H12 as [|p q l1 l2 Hpq _ IH]; intros l3 H23.
  - inversion H23. constructor.
  - inversion H23 as [|q' r l2' l3' Hqr Hrest]; subst.
    constructor; [eapply extends_page_trans; eassumption | now apply IH].
Qed.

Lemma Forall2_extends_refl (l : list PDFPage) : Forall2 extends_page l l.
Proof. induction l; constructor; [apply extends_page_refl | assumption]. Qed.

Lemma export_blocks_only_adds
    (widthOfTextAtSize : StandardFont -> string -> float -> option float)
    (blockStates : gmap string EditableBlockState) (bs : list TextBlock)
    (acc res : PDFDocument * gmap string ParsedFontInfo) :
  export_blocks widthOfTextAtSize blockStates bs acc = Some res ->
  Forall2 extends_page (doc_pages acc.1) (doc_pages res.1).
Proof.
  revert acc. induction bs as [|block rest IH]; intros acc H.
  - injection H as <-. apply Forall2_extends_refl.
  - cbn [export_blocks] in H.
    destruct (export_block widthOfTextAtSize blockStates block acc) as [acc1|] eqn:E;
      [|discriminate].
    apply (Forall2_extends_trans _ (doc_pages acc1.1)); [|now apply IH].
    clear H IH. unfold export_block in E. destruct acc as [doc fc].
    destruct (blockStates !! id block) as [st|];
      [|injection E as <-; apply Forall2_extends_refl].
    destruct (negb (isDirty st)); [injection E as <-; apply Forall2_extends_refl|].
    destruct (page_at (doc_pages doc) (page block)) as [pg|];
      [|injection E as <-; apply Forall2_extends_refl].
    destruct (getFontInfo fc (font_name block)) as [fontInfo fc'].
    destruct (widthOfTextAtSize _ _ _) as [w|]; [|discriminate].
    injection E as <-. cbn [fst].
    eapply Forall2_extends_trans; apply draw_extends.
Qed.

(** Whatever is dirty, the export keeps the number of pages, their
    heights and everything they held: it only draws on top. *)
Lemma exportToPDF_only_adds
    (widthOfTextAtSize : StandardFont -> string -> float -> option float)
    (fontCache : gmap string ParsedFontInfo) (pdfDoc : PDFDocument)
    (bs : list TextBlock) (blockStates : gmap string EditableBlockState)
    (result : PDFDocument * gmap string ParsedFontInfo) :
  exportToPDF widthOfTextAtSize fontCache pdfDoc bs blockStates = Some result ->
  Forall2 extends_page (doc_pages pdfDoc) (doc_pages result.1).
Proof.
  unfold exportToPDF. intros H.
  apply export_blocks_only_adds in H. exact H.
Qed.

End ExportFrame.

(* ===================================================================== *)
(** * Further properties of the code *)
(* ===================================================================== *)

(** ** The edit store: what is read back after a write *)

Section EditStoreReadBack.
Import JsString EditorStorage.

Lemma getStoredEdits_name (ls : LocalStorage) (st : StoredEdits) :
  getStoredEdits ls = Some st -> pdfName st <> "".
Proof.
  unfold getStoredEdits.
  destruct (ls_edits ls), (ls_timestamp ls), (ls_pdf_name ls) as [n|]; try discriminate.
  destruct n; [discriminate|]. intros [= <-]. discriminate.
Qed.

(** X1.  Merging updates for the document the store already holds
    accumulates: the record keeps its name, takes the new time and dirty
    flag, every block id the call does not name keeps the text stored for
    it, and a block id named by the call, other than [__proto__], gets the
    text of the last update that names it (a later update overwrites an
    earlier one).  An update for the id [__proto__] stores nothing in a
    record that has no entry under that name. *)
Theorem saveEditsToStorage_accumulates (updates : list BlockUpdate)
    (markDirty : bool) (now : Z) (ls : LocalStorage) (ex : StoredEdits) :
  getStoredEdits ls = Some ex ->
  exists st,
    getStoredEdits (saveEditsToStorage updates (pdfName ex) markDirty now ls) = Some st /\
    pdfName st = pdfName ex /\ timestamp st = now /\ isDirty st = markDirty /\
    (forall bid, ~ In bid (map blockId updates) -> edits st !! bid = edits ex !! bid) /\
    (forall pre u post, updates = pre ++ u :: post ->
       ~ In (blockId u) (map blockId post) ->
       blockId u <> "__proto__" ->
       edits st !! blockId u = Some (newText u)) /\
    (edits ex !! "__proto__" = None -> edits st !! "__proto__" = None).
Proof.
  intros Hex. eexists. split; [now apply saveEditsToStorage_same_identity|].
  cbn. split; [reflexivity|]. split; [reflexivity|]. split; [reflexivity|].
  split; [|split].
  - intros bid Hbid. now apply merge_updates_other.
  - intros pre u post -> Hpost Hu. now apply merge_updates_last_writer.
  - apply merge_updates_proto.
Qed.

Lemma saveEditsToStorage_accumulates_witness :
  exists st,
    getStoredEdits
      (saveEditsToStorage
         [ Build_BlockUpdate "block-1-1" "Engineer" "Enginer" None;
           Build_BlockUpdate "block-1-1" "Enginer" "Developer" None ]
         "a.pdf" false 300 stored_a) = Some st /\
    pdfName st = "a.pdf" /\ timestamp st = 300%Z /\ isDirty st = false /\
    (forall bid,
       ~ In bid (map blockId
                   [ Build_BlockUpdate "block-1-1" "Engineer" "Enginer" None;
                     Build_BlockUpdate "block-1-1" "Enginer" "Developer" None ]) ->
       edits st !! bid =
         edits {| edits := {[ "block-1-0" := "2025" ]}; timestamp := 100;
                  pdfName := "a.pdf"; isDirty := true |} !! bid) /\
    (forall pre u post,
       [ Build_BlockUpdate "block-1-1" "Engineer" "Enginer" None;
         Build_BlockUpdate "block-1-1" "Enginer" "Developer" None ] = pre ++ u :: post ->
       ~ In (blockId u) (map blockId post) ->
       blockId u <> "__proto__" ->
       edits st !! blockId u = Some (newText u)) /\
    (edits {| edits := {[ "block-1-0" := "2025" ]}; timestamp := 100;
              pdfName := "a.pdf"; isDirty := true |} !! "__proto__" = None ->
     edits st !! "__proto__" = None).
Proof.
  apply (saveEditsToStorage_accumulates
           [ Build_BlockUpdate "block-1-1" "Engineer" "Enginer" None;
             Build_BlockUpdate "block-1-1" "Enginer" "Developer" None ]
           false 300 stored_a
           {| edits := {[ "block-1-0" := "2025" ]}; timestamp := 100;
              pdfName := "a.pdf"; isDirty := true |}).
  reflexivity.
Defined.

(** X2.  What the readers of the store answer after a write under a
    non-empty document name: the dirty flag and the time of the write are
    reported for that name; for any other name the store reports no edits,
    nothing dirty and nothing newer; and [mergeWithStoredEdits] returns, for
    the id of an update that no later update of the call names, the text it
    was given under any other name and, unless the id is [__proto__], the
    new text of that update under the written name (also when that text is
    empty).  For an id without an entry in the written record it returns,
    under the written name, the member of [Object.prototype] of that name
    if there is one, and else the text it was given. *)
Theorem saveEditsToStorage_read_back (updates : list BlockUpdate)
    (name other : string) (markDirty : bool) (now : Z) (ls : LocalStorage) :
  name <> "" ->
  other <> name ->
  hasDirtyEdits name (saveEditsToStorage updates name markDirty now ls) = markDirty /\
  (forall t, hasNewerEdits name t (saveEditsToStorage updates name markDirty now ls)
             = Z.ltb t now) /\
  getEditsForPdf other (saveEditsToStorage updates name markDirty now ls) = None /\
  hasDirtyEdits other (saveEditsToStorage updates name markDirty now ls) = false /\
  (forall t, hasNewerEdits other t (saveEditsToStorage updates name markDirty now ls)
             = false) /\
  (forall pre u post orig, updates = pre ++ u :: post ->
     ~ In (blockId u) (map blockId post) ->
     (blockId u <> "__proto__" ->
      mergeWithStoredEdits (blockId u) orig name
        (saveEditsToStorage updates name markDirty now ls) = newText u) /\
     mergeWithStoredEdits (blockId u) orig other
       (saveEditsToStorage updates name markDirty now ls) = orig) /\
  (forall bid orig,
     getEditsForPdf name (saveEditsToStorage updates name markDirty now ls) ≫=
       (fun e => e !! bid) = None ->
     mergeWithStoredEdits bid orig name
       (saveEditsToStorage updates name markDirty now ls) =
     if bool_decide (bid ∈ OBJECT_PROTOTYPE_MEMBERS) then JsMember bid else JsText orig).
Proof.
  intros Hname Hother.
  destruct (getStoredEdits_saveEditsToStorage updates name markDirty now ls Hname)
    as [e [Hget He]].
  assert (Hno : String.eqb name other = false).
  { apply String.eqb_neq. congruence. }
  unfold hasDirtyEdits, hasNewerEdits, getEditsForPdf, mergeWithStoredEdits.
  rewrite Hget. cbn. rewrite String.eqb_refl, Hno. cbn.
  do 5 (split; [reflexivity|]). split.
  - intros pre u post orig -> Hpost. split; [|reflexivity].
    intros Hu. unfold object_get. subst e.
    now rewrite merge_updates_last_writer.
  - intros bid orig Hbid. unfold object_get. rewrite Hbid.
    now destruct (bool_decide _).
Qed.

Lemma saveEditsToStorage_read_back_witness :
  hasDirtyEdits "a.pdf"
    (saveEditsToStorage [Build_BlockUpdate "block-1-0" "2024" "" None]
       "a.pdf" true 300 stored_b) = true /\
  (forall t, hasNewerEdits "a.pdf" t
               (saveEditsToStorage [Build_BlockUpdate "block-1-0" "2024" "" None]
                  "a.pdf" true 300 stored_b) = Z.ltb t 300) /\
  getEditsForPdf "b.pdf"
    (saveEditsToStorage [Build_BlockUpdate "block-1-0" "2024" "" None]
       "a.pdf" true 300 stored_b) = None /\
  hasDirtyEdits "b.pdf"
    (saveEditsToStorage [Build_BlockUpdate "block-1-0" "2024" "" None]
       "a.pdf" true 300 stored_b) = false /\
  (forall t, hasNewerEdits "b.pdf" t
               (saveEditsToStorage [Build_BlockUpdate "block-1-0" "2024" "" None]
                  "a.pdf" true 300 stored_b) = false) /\
  (forall pre u post orig,
     [Build_BlockUpdate "block-1-0" "2024" "" None] = pre ++ u :: post ->
     ~ In (blockId u) (map blockId post) ->
     (blockId u <> "__proto__" ->
      mergeWithStoredEdits (blockId u) orig "a.pdf"
        (saveEditsToStorage [Build_BlockUpdate "block-1-0" "2024" "" None]
           "a.pdf" true 300 stored_b) = newText u) /\
     mergeWithStoredEdits (blockId u) orig "b.pdf"
       (saveEditsToStorage [Build_BlockUpdate "block-1-0" "2024" "" None]
          "a.pdf" true 300 stored_b) = orig) /\
  (forall bid orig,
     getEditsForPdf "a.pdf"
       (saveEditsToStorage [Build_BlockUpdate "block-1-0" "2024" "" None]
          "a.pdf" true 300 stored_b) ≫= (fun e => e !! bid) = None ->
     mergeWithStoredEdits bid orig "a.pdf"
       (saveEditsToStorage [Build_BlockUpdate "block-1-0" "2024" "" None]
          "a.pdf" true 300 stored_b) =
     if bool_decide (bid ∈ OBJECT_PROTOTYPE_MEMBERS) then JsMember bid else JsText orig).
Proof.
  apply (saveEditsToStorage_read_back
           [Build_BlockUpdate "block-1-0" "2024" "" None] "a.pdf" "b.pdf" true 300
           stored_b).
  - discriminate.
  - discriminate.
Defined.

(** The updates [two_updates_for_b] written for b.pdf: the update under
    [__proto__] leaves no entry, and a read under that name, or under
    [constructor], gives the member inherited from [Object.prototype], not
    the text handed in. *)
Example update_under_proto_stores_nothing :
  getStoredEdits (saveEditsToStorage two_updates_for_b "b.pdf" true 200 stored_a) =
    Some {| edits := {[ "block-1-1" := "Developer" ]}; timestamp := 200;
            pdfName := "b.pdf"; isDirty := true |} /\
  mergeWithStoredEdits "__proto__" "Lead" "b.pdf"
    (saveEditsToStorage two_updates_for_b "b.pdf" true 200 stored_a)
    = JsMember "__proto__" /\
  mergeWithStoredEdits "constructor" "Lead" "b.pdf"
    (saveEditsToStorage two_updates_for_b "b.pdf" true 200 stored_a)
    = JsMember "constructor" /\
  mergeWithStoredEdits "block-1-7" "Lead" "b.pdf"
    (saveEditsToStorage two_updates_for_b "b.pdf" true 200 stored_a)
    = JsText "Lead".
Proof. repeat split. Qed.

Lemma getStoredEdits_markEditsSynced (now : Z) (ls : LocalStorage) (st : StoredEdits) :
  getStoredEdits ls = Some st ->
  getStoredEdits (markEditsSynced now ls) =
    Some {| edits := edits st; timestamp := now; pdfName := pdfName st;
            isDirty := false |}.
Proof.
  intros Hst. unfold getStoredEdits in *. cbn.
  destruct (ls_edits ls), (ls_timestamp ls), (ls_pdf_name ls) as [n|]; try discriminate.
  destruct (truthy n); [|discriminate]. now injection Hst as <-.
Qed.

Lemma getStoredEdits_markEditsDirty (ls : LocalStorage) (st : StoredEdits) :
  getStoredEdits ls = Some st ->
  getStoredEdits (markEditsDirty ls) =
    Some {| edits := edits st; timestamp := timestamp st; pdfName := pdfName st;
            isDirty := true |}.
Proof.
  intros Hst. unfold getStoredEdits in *. cbn.
  destruct (ls_edits ls), (ls_timestamp ls), (ls_pdf_name ls) as [n|]; try discriminate.
  destruct (truthy n); [|discriminate]. now injection Hst as <-.
Qed.

(** X3.  Marking the store synced or dirty changes the flag only (and,
    for synced, the time): the edits and the document name of the record
    are kept, and afterwards the record of that document is reported clean,
    respectively dirty.  Where the store holds nothing, marking creates no
    record. *)
Theorem marking_keeps_the_edits (now : Z) (ls : LocalStorage) (st : StoredEdits) :
  getStoredEdits ls = Some st ->
  getStoredEdits (markEditsSynced now ls) =
    Some {| edits := edits st; timestamp := now; pdfName := pdfName st;
            isDirty := false |} /\
  getStoredEdits (markEditsDirty ls) =
    Some {| edits := edits st; timestamp := timestamp st; pdfName := pdfName st;
            isDirty := true |} /\
  hasDirtyEdits (pdfName st) (markEditsSynced now ls) = false /\
  hasDirtyEdits (pdfName st) (markEditsDirty ls) = true /\
  getEditsForPdf (pdfName st) (markEditsSynced now ls) = Some (edits st) /\
  getEditsForPdf (pdfName st) (markEditsDirty ls) = Some (edits st) /\
  getStoredEdits (markEditsSynced now (clearStoredEdits ls)) = None /\
  getStoredEdits (markEditsDirty (clearStoredEdits ls)) = None.
Proof.
  intros Hst.
  pose proof (getStoredEdits_markEditsSynced now ls st Hst) as Hs.
  pose proof (getStoredEdits_markEditsDirty ls st Hst) as Hd.
  unfold hasDirtyEdits, getEditsForPdf. rewrite Hs, Hd. cbn.
  rewrite String.eqb_refl. repeat split.
Qed.

Lemma marking_keeps_the_edits_witness :
  getStoredEdits (markEditsSynced 500 stored_a) =
    Some {| edits := {[ "block-1-0" := "2025" ]}; timestamp := 500;
            pdfName := "a.pdf"; isDirty := false |} /\
  getStoredEdits (markEditsDirty stored_a) =
    Some {| edits := {[ "block-1-0" := "2025" ]}; timestamp := 100;
            pdfName := "a.pdf"; isDirty := true |} /\
  hasDirtyEdits "a.pdf" (markEditsSynced 500 stored_a) = false /\
  hasDirtyEdits "a.pdf" (markEditsDirty stored_a) = true /\
  getEditsForPdf "a.pdf" (markEditsSynced 500 stored_a)
    = Some {[ "block-1-0" := "2025" ]} /\
  getEditsForPdf "a.pdf" (markEditsDirty stored_a)
    = Some {[ "block-1-0" := "2025" ]} /\
  getStoredEdits (markEditsSynced 500 (clearStoredEdits stored_a)) = None /\
  getStoredEdits (markEditsDirty (clearStoredEdits stored_a)) = None.
Proof.
  exact (marking_keeps_the_edits 500 stored_a
           {| edits := {[ "block-1-0" := "2025" ]}; timestamp := 100;
              pdfName := "a.pdf"; isDirty := true |} eq_refl).
Defined.

(** X4.  [clearEditsForPdf] clears the edits of the named document and of
    no other: afterwards the store reports no edits and nothing dirty for
    that name and [mergeWithStoredEdits] returns the text it is given; a
    store that holds the record of another document, or none, is left as
    it is. *)
Theorem clearEditsForPdf_clears_that_document_only (name : string)
    (ls : LocalStorage) :
  getEditsForPdf name (clearEditsForPdf name ls) = None /\
  hasDirtyEdits name (clearEditsForPdf name ls) = false /\
  (forall bid orig, mergeWithStoredEdits bid orig name (clearEditsForPdf name ls) = orig) /\
  (forall st, getStoredEdits ls = Some st -> pdfName st = name ->
              clearEditsForPdf name ls = empty_storage) /\
  (forall st, getStoredEdits ls = Some st -> pdfName st <> name ->
              clearEditsForPdf name ls = ls) /\
  (getStoredEdits ls = None -> clearEditsForPdf name ls = ls).
Proof.
  unfold clearEditsForPdf, getEditsForPdf, hasDirtyEdits, mergeWithStoredEdits.
  destruct (getStoredEdits ls) as [st|] eqn:Hst.
  - destruct (String.eqb_spec (pdfName st) name) as [Heq|Hne].
    + cbn. repeat split; intros; congruence.
    + rewrite Hst. apply String.eqb_neq in Hne. rewrite Hne. cbn.
      apply String.eqb_neq in Hne.
      repeat split; intros; congruence.
  - rewrite Hst. repeat split; intros; congruence.
Qed.

End EditStoreReadBack.

(** ** Fonts: what the export draws with *)

Section FontFaces.
Import JsString FontMapper PdfExport.

Lemma cache_coherent_step (fontCache : gmap string ParsedFontInfo) (names : list string) :
  (forall n info, fontCache !! n = Some info -> info = parsePdfFont n) ->
  forall n info,
    fold_left (fun c n => (getFontInfo c n).2) names fontCache !! n = Some info ->
    info = parsePdfFont n.
Proof.
  revert fontCache. induction names as [|name names IH]; intros fontCache Hc; [exact Hc|].
  cbn [fold_left]. apply IH. now apply getFontInfo_cached.
Qed.

Lemma cache_after_coherent (names : list string) (n : string) (info : ParsedFontInfo) :
  cache_after names !! n = Some info -> info = parsePdfFont n.
Proof.
  apply cache_coherent_step. intros n' info'. rewrite lookup_empty. discriminate.
Qed.

Lemma detectFontCategory_cases (name : string) :
  detectFontCategory name = Serif \/ detectFontCategory name = SansSerif \/
  detectFontCategory name = Monospace.
Proof.
  unfold detectFontCategory.
  repeat match goal with |- context [if ?c then _ else _] => destruct c end; auto.
Qed.

(** X5.  The memo table of [getFontInfo] is transparent: whatever names
    were looked up before, the answer for a name is what [parsePdfFont]
    computes for it; and the font [exportToPDF] picks for it
    ([getEmbeddedFont]) is the standard font the mapper recorded in
    [pdfLibFont]: the two tables agree.  Asking for a name a second time
    gives the same answer and table. *)
Theorem getFontInfo_memo_is_transparent (names : list string) (name : string) :
  (getFontInfo (cache_after names) name).1 = parsePdfFont name /\
  getEmbeddedFont (getFontInfo (cache_after names) name).1
    = pdfLibFont (parsePdfFont name) /\
  (forall fontCache,
     getFontInfo (getFontInfo fontCache name).2 name = getFontInfo fontCache name).
Proof.
  assert (H1 : (getFontInfo (cache_after names) name).1 = parsePdfFont name).
  { apply getFontInfo_cached. apply cache_after_coherent. }
  split; [exact H1|]. split.
  - rewrite H1. unfold getEmbeddedFont, parsePdfFont, getPdfLibFont. cbn.
    destruct (detectFontCategory name); reflexivity.
  - intros fontCache. unfold getFontInfo.
    destruct (fontCache !! name) as [info|] eqn:E; cbn.
    + now rewrite E.
    + now rewrite lookup_insert_eq.
Qed.

(** X6.  The standard font chosen for a font identifier has the family of
    the detected category (Times for serif, Helvetica for sans-serif,
    Courier for monospace), is a bold face exactly when the detected weight
    is bold (a light weight gets the regular face), and is a slanted face
    exactly when the detected style is italic. *)
Theorem pdfLibFont_follows_classification (name : string) :
  family (pdfLibFont (parsePdfFont name)) = detectFontCategory name /\
  bold_face (pdfLibFont (parsePdfFont name)) = is_bold (detectFontWeight name) /\
  slanted_face (pdfLibFont (parsePdfFont name)) = is_italic (detectFontStyle name).
Proof.
  unfold parsePdfFont, getPdfLibFont. cbn.
  destruct (detectFontCategory_cases name) as [-> | [-> | ->]];
    destruct (detectFontWeight name), (detectFontStyle name); repeat split.
Qed.

(** X7.  Weight and style are decided by keywords of the lower-cased
    identifier: the weight is bold exactly when a bold keyword occurs, light
    exactly when a light keyword and no bold keyword occurs (bold wins), and
    normal otherwise; the style is italic exactly when a keyword of the
    italic list occurs (which holds "oblique" and "slant") and normal
    otherwise. *)
Theorem detectFontWeight_and_style_by_keyword (name : string) :
  (detectFontWeight name = WeightBold <-> matches_keywords BOLD_PATTERNS name) /\
  (detectFontWeight name = WeightLight <->
     ~ matches_keywords BOLD_PATTERNS name /\ matches_keywords LIGHT_PATTERNS name) /\
  (detectFontWeight name = WeightNormal <->
     ~ matches_keywords BOLD_PATTERNS name /\ ~ matches_keywords LIGHT_PATTERNS name) /\
  (detectFontStyle name = StyleItalic <-> matches_keywords ITALIC_PATTERNS name) /\
  (detectFontStyle name = StyleNormal <-> ~ matches_keywords ITALIC_PATTERNS name).
Proof.
  unfold matches_keywords, detectFontWeight, detectFontStyle.
  pose proof (some_includes_spec BOLD_PATTERNS (toLowerCase name)) as Hb.
  pose proof (some_includes_spec LIGHT_PATTERNS (toLowerCase name)) as Hl.
  pose proof (some_includes_spec ITALIC_PATTERNS (toLowerCase name)) as Hi.
  destruct (some_includes BOLD_PATTERNS (toLowerCase name));
    destruct (some_includes LIGHT_PATTERNS (toLowerCase name));
    destruct (some_includes ITALIC_PATTERNS (toLowerCase name));
    intuition discriminate.
Qed.

End FontFaces.

(** ** Remote saves: how a request ends *)

Section RemoteSaveOutcomes.
Import JsString EditorStorage EditorApi.

Lemma pending_restored (k : string) (p : gset string) :
  k ∉ p -> ({[k]} ∪ p) ∖ {[k]} = p.
Proof.
  intros Hk. apply set_eq. intros x.
  rewrite elem_of_difference, elem_of_union, elem_of_singleton.
  split; [tauto|]. intros Hx. split; [now right | congruence].
Qed.

(** X8.  A response whose status is not ok ends the call at once: the
    promise is rejected with the error made from the response, after the
    single POST and whatever the retry budget is, and the stored edits are
    not touched.  The error code is VALIDATION_ERROR exactly for status 422
    and SERVER_ERROR for every other status; the details are the text
    "HTTP" followed by the status; for status 404 the message is the fixed
    text about the save endpoint. *)
Theorem http_error_is_surfaced_without_retry (retry : nat) (timeout : Z)
    (bs : list BlockUpdate) (w : World) (status : Z) (body : ErrorBody) :
  bs <> [] ->
  getRequestKey bs ∉ pendingRequests w ->
  (latency (network w (length (sent w))) < timeout)%Z ->
  reply (network w (length (sent w))) = HttpError status body ->
  (updateResumeBlocks retry timeout bs w).1 = Rejected (http_error status body) /\
  sent (updateResumeBlocks retry timeout bs w).2 = sent w ++ [bs] /\
  storage (updateResumeBlocks retry timeout bs w).2 = storage w /\
  (error_code (http_error status body) = VALIDATION_ERROR <-> status = 422%Z) /\
  (status <> 422%Z -> error_code (http_error status body) = SERVER_ERROR) /\
  error_details (http_error status body) = Some ("HTTP " +:+ pretty status) /\
  (status = 404%Z ->
   error_message (http_error status body) =
     "Save endpoint not found. Make sure backend is running on http://localhost:8000").
Proof.
  intros Hbs Hnot Hlat Hrep. apply Z.leb_gt in Hlat.
  destruct bs as [|b bs]; [congruence|].
  split; [|split; [|split]].
  1-3: destruct retry; cbn [updateResumeBlocks];
    (destruct (decide _) as [Hin|_]; [contradiction|]);
    unfold fetch; rewrite Hlat, Hrep; reflexivity.
  unfold http_error.
  destruct (Z.eqb_spec status 404) as [->|H404]; cbn.
  - repeat split; intros; try discriminate; try lia.
  - destruct (Z.eqb_spec status 422) as [->|H422]; cbn;
      repeat split; intros; try discriminate; try lia; try congruence.
Qed.

Lemma http_error_is_surfaced_without_retry_witness :
  (updateResumeBlocks default_retry default_timeout [edit_2025]
     (world_of (fun _ => {| latency := 20;
                            reply := HttpError 422 (ErrorJson (Some "Invalid block") None) |}))).1
    = Rejected (http_error 422 (ErrorJson (Some "Invalid block") None)) /\
  sent (updateResumeBlocks default_retry default_timeout [edit_2025]
     (world_of (fun _ => {| latency := 20;
                            reply := HttpError 422 (ErrorJson (Some "Invalid block") None) |}))).2
    = [] ++ [[edit_2025]] /\
  storage (updateResumeBlocks default_retry default_timeout [edit_2025]
     (world_of (fun _ => {| latency := 20;
                            reply := HttpError 422 (ErrorJson (Some "Invalid block") None) |}))).2
    = empty_storage /\
  (error_code (http_error 422 (ErrorJson (Some "Invalid block") None)) = VALIDATION_ERROR
   <-> 422%Z = 422%Z) /\
  (422%Z <> 422%Z ->
   error_code (http_error 422 (ErrorJson (Some "Invalid block") None)) = SERVER_ERROR) /\
  error_details (http_error 422 (ErrorJson (Some "Invalid block") None))
    = Some ("HTTP " +:+ pretty 422%Z) /\
  (422%Z = 404%Z ->
   error_message (http_error 422 (ErrorJson (Some "Invalid block") None)) =
     "Save endpoint not found. Make sure backend is running on http://localhost:8000").
Proof.
  apply (http_error_is_surfaced_without_retry default_retry default_timeout [edit_2025]
           (world_of (fun _ => {| latency := 20;
                                  reply := HttpError 422 (ErrorJson (Some "Invalid block") None) |}))
           422 (ErrorJson (Some "Invalid block") None)).
  - discriminate.
  - vm_compute. intros H. discriminate H.
  - reflexivity.
  - reflexivity.
Defined.

(** X9.  A save that the backend accepts in time resolves with the
    backend's answer after one POST and is recorded in the store: the
    record is filed under "current_resume", is marked synced (not dirty)
    at the time of the call, holds for every saved block id other than
    [__proto__] the text of the last update that names it, and keeps, for
    the other block ids, what a record of "current_resume" held before. *)
Theorem successful_save_is_recorded (retry : nat) (timeout : Z)
    (bs : list BlockUpdate) (w : World) (r : UpdateResumeResponse) :
  bs <> [] ->
  getRequestKey bs ∉ pendingRequests w ->
  (latency (network w (length (sent w))) < timeout)%Z ->
  reply (network w (length (sent w))) = HttpOk r ->
  (updateResumeBlocks retry timeout bs w).1 = Resolved r /\
  sent (updateResumeBlocks retry timeout bs w).2 = sent w ++ [bs] /\
  exists st,
    getStoredEdits (storage (updateResumeBlocks retry timeout bs w).2) = Some st /\
    pdfName st = "current_resume" /\ isDirty st = false /\ timestamp st = clock w /\
    hasDirtyEdits "current_resume" (storage (updateResumeBlocks retry timeout bs w).2)
      = false /\
    (forall pre u post, bs = pre ++ u :: post ->
       ~ In (blockId u) (map blockId post) ->
       blockId u <> "__proto__" ->
       edits st !! blockId u = Some (newText u)) /\
    (forall bid, ~ In bid (map blockId bs) ->
       edits st !! bid =
         getEditsForPdf "current_resume" (storage w) ≫= (fun e => e !! bid)).
Proof.
  intros Hbs Hnot Hlat Hrep. apply Z.leb_gt in Hlat.
  destruct bs as [|b bs]; [congruence|].
  assert (Hname : "current_resume" <> "") by discriminate.
  destruct (getStoredEdits_saveEditsToStorage (b :: bs) "current_resume" false
              (clock w) (storage w) Hname) as [e [Hget He]].
  apply (getStoredEdits_markEditsSynced (clock w)) in Hget.
  cbn [edits pdfName] in Hget.
  assert (Hst : storage (updateResumeBlocks retry timeout (b :: bs) w).2 =
                markEditsSynced (clock w)
                  (saveEditsToStorage (b :: bs) "current_resume" false (clock w)
                     (storage w))).
  { destruct retry; cbn [updateResumeBlocks];
      (destruct (decide _) as [Hin|_]; [contradiction|]);
      unfold fetch; rewrite Hlat, Hrep; reflexivity. }
  split; [|split].
  1-2: destruct retry; cbn [updateResumeBlocks];
    (destruct (decide _) as [Hin|_]; [contradiction|]);
    unfold fetch; rewrite Hlat, Hrep; reflexivity.
  rewrite Hst.
  exists {| edits := e; timestamp := clock w; pdfName := "current_resume";
            isDirty := false |}.
  split; [exact Hget|].
  unfold hasDirtyEdits. rewrite Hget. cbn.
  repeat split.
  - intros pre u post E Hpost Hu. rewrite He, E. now apply merge_updates_last_writer.
  - intros bid Hbid. rewrite He, merge_updates_other by exact Hbid.
    unfold getEditsForPdf. destruct (getStoredEdits (storage w)) as [ex|]; cbn.
    + destruct (String.eqb (pdfName ex) "current_resume"); cbn;
        [reflexivity | apply lookup_empty].
    + apply lookup_empty.
Qed.

Lemma successful_save_is_recorded_witness :
  (updateResumeBlocks default_retry default_timeout [edit_2025]
     (world_of (fun _ => {| latency := 20; reply := HttpOk accepted |}))).1
    = Resolved accepted /\
  sent (updateResumeBlocks default_retry default_timeout [edit_2025]
     (world_of (fun _ => {| latency := 20; reply := HttpOk accepted |}))).2
    = [] ++ [[edit_2025]] /\
  exists st,
    getStoredEdits (storage (updateResumeBlocks default_retry default_timeout [edit_2025]
       (world_of (fun _ => {| latency := 20; reply := HttpOk accepted |}))).2) = Some st /\
    pdfName st = "current_resume" /\ isDirty st = false /\ timestamp st = 0%Z /\
    hasDirtyEdits "current_resume"
      (storage (updateResumeBlocks default_retry default_timeout [edit_2025]
         (world_of (fun _ => {| latency := 20; reply := HttpOk accepted |}))).2) = false /\
    (forall pre u post, [edit_2025] = pre ++ u :: post ->
       ~ In (blockId u) (map blockId post) ->
       blockId u <> "__proto__" ->
       edits st !! blockId u = Some (newText u)) /\
    (forall bid, ~ In bid (map blockId [edit_2025]) ->
       edits st !! bid =
         getEditsForPdf "current_resume" empty_storage ≫= (fun e => e !! bid)).
Proof.
  apply (successful_save_is_recorded default_retry default_timeout [edit_2025]
           (world_of (fun _ => {| latency := 20; reply := HttpOk accepted |})) accepted).
  - discriminate.
  - vm_compute. intros H. discriminate H.
  - reflexivity.
  - reflexivity.
Defined.

(** X10.  Whatever the outcome, a call leaves the table of pending
    requests as it found it: the key it registers is removed again when the
    request has ended (also when it was rejected or joined a request in
    flight), and no other key is added or removed. *)
Theorem updateResumeBlocks_restores_pending (retry : nat) (timeout : Z)
    (bs : list BlockUpdate) (w : World) :
  pendingRequests (updateResumeBlocks retry timeout bs w).2 = pendingRequests w.
Proof.
  destruct bs as [|b bs]; [now rewrite updateResumeBlocks_empty|].
  destruct retry as [|retry]; cbn [updateResumeBlocks];
    (destruct (decide _) as [Hin|Hnot]; [reflexivity|]);
    unfold fetch; (destruct (Z.leb _ _); [cbn; now apply pending_restored|]);
    (destruct (reply _) as [r|status body| |msg]; try (cbn; now apply pending_restored)).
  rewrite updateResumeBlocks_existing; [cbn; now apply pending_restored | discriminate |].
  cbn. set_solver.
Qed.

Lemma getRequestKey_key_part (bs : list BlockUpdate) :
  getRequestKey bs = join "|" (map (fun p => p.1 +:+ ":" +:+ p.2) (map key_part bs)).
Proof. unfold getRequestKey. now rewrite map_map. Qed.

(** X11.  The request key is made of the block ids and the new texts
    only.  So while a request is in flight, a call for updates with the same
    ids and new texts (whatever their old texts and sections) is not sent:
    it gets the promise of the request in flight, nothing is posted and the
    store is not touched. *)
Theorem request_with_same_texts_in_flight_is_not_sent (retry : nat) (timeout : Z)
    (bs bs' : list BlockUpdate) (w : World) :
  bs <> [] ->
  map key_part bs' = map key_part bs ->
  getRequestKey bs ∈ pendingRequests w ->
  updateResumeBlocks retry timeout bs' w = (ExistingRequest (getRequestKey bs), w).
Proof.
  intros Hbs Hsame Hin.
  assert (Hkey : getRequestKey bs' = getRequestKey bs).
  { now rewrite !getRequestKey_key_part, Hsame. }
  rewrite <- Hkey in *. apply updateResumeBlocks_existing; [|exact Hin].
  intros ->. destruct bs; [congruence | discriminate].
Qed.

Lemma request_with_same_texts_in_flight_is_not_sent_witness :
  updateResumeBlocks default_retry default_timeout
    [Build_BlockUpdate "block-1-0" "2023" "2025" (Some "content")]
    (set_pending {[ "block-1-0:2025" ]} (world_of slow_then_fine))
  = (ExistingRequest (getRequestKey [edit_2025]),
     set_pending {[ "block-1-0:2025" ]} (world_of slow_then_fine)).
Proof.
  apply (request_with_same_texts_in_flight_is_not_sent default_retry default_timeout
           [edit_2025] [Build_BlockUpdate "block-1-0" "2023" "2025" (Some "content")]
           (set_pending {[ "block-1-0:2025" ]} (world_of slow_then_fine))).
  - discriminate.
  - reflexivity.
  - vm_compute. reflexivity.
Defined.

End RemoteSaveOutcomes.

(** ** Reconciliation: what a merge can change *)

Section MergeFrame.
Import JsString EditorStorage EditorTypes EditorApi.

Lemma same_but_text_refl (b : TextBlock) : same_but_text b b.
Proof. unfold same_but_text. now destruct b. Qed.

Lemma Forall2_same_but_text_refl (bs : list TextBlock) : Forall2 same_but_text bs bs.
Proof. induction bs; constructor; [apply same_but_text_refl | assumption]. Qed.

Lemma apply_edits_same_but_text (e : gmap string string) (bs : list TextBlock) :
  Forall2 same_but_text bs (apply_edits e bs).
Proof.
  induction bs as [|b bs IH]; [constructor|].
  cbn. constructor; [|exact IH].
  destruct (e !! id b) as [t|]; [|apply same_but_text_refl].
  destruct (truthy t); [reflexivity | apply same_but_text_refl].
Qed.

Lemma with_blocks_same (data : PDFExtractionResult) :
  with_blocks data (blocks data) = data.
Proof. now destruct data. Qed.

(** X12.  Neither merge adds, drops or reorders blocks, and neither
    changes anything of a block but its text: the blocks that
    [mergeCurrentEditsIntoBlocks] and a successful [extractPDFBlocks] return
    are, one for one, the given blocks with possibly another text.
    [extractPDFBlocks] succeeds only on an ok response whose [success]
    member is set, and it returns the pages, the sections, the page count
    and the file name of the response as they came. *)
Theorem merges_change_texts_only (fileName : string) (resp : ExtractResponse)
    (bs : list TextBlock) (ls : LocalStorage) (remote : EditsResponse) :
  Forall2 same_but_text bs (mergeCurrentEditsIntoBlocks bs ls remote) /\
  (forall res, extractPDFBlocks fileName resp ls remote = inr res ->
     exists data, resp = ExtractBody true data /\
       Forall2 same_but_text (blocks data) (blocks res) /\
       pages res = pages data /\ sections res = sections data /\
       total_pages res = total_pages data /\ filename res = filename data).
Proof.
  split.
  - unfold mergeCurrentEditsIntoBlocks.
    assert (H2 : Forall2 same_but_text bs
                   match saved_edits remote with
                   | Some savedEdits =>
                       if Nat.ltb 0 (size savedEdits) then apply_edits savedEdits bs else bs
                   | None => bs
                   end).
    { destruct (saved_edits remote) as [e|]; [|apply Forall2_same_but_text_refl].
      destruct (Nat.ltb 0 (size e));
        [apply apply_edits_same_but_text | apply Forall2_same_but_text_refl]. }
    destruct (getStoredEdits ls) as [st|]; [|exact H2].
    destruct (_ && _); [apply apply_edits_same_but_text | exact H2].
  - intros res. unfold extractPDFBlocks.
    destruct resp as [detail|[|] data]; try discriminate.
    intros Hres. exists data. split; [reflexivity|].
    assert (H3 : forall r,
      match saved_edits remote with
      | Some savedEdits =>
          if Nat.ltb 0 (size savedEdits)
          then with_blocks data (apply_edits savedEdits (blocks data))
          else data
      | None => data
      end = r ->
      Forall2 same_but_text (blocks data) (blocks r) /\
      pages r = pages data /\ sections r = sections data /\
      total_pages r = total_pages data /\ filename r = filename data).
    { intros r <-. destruct (saved_edits remote) as [e|];
        [|repeat split; apply Forall2_same_but_text_refl].
      destruct (Nat.ltb 0 (size e)); cbn;
        repeat split; try apply Forall2_same_but_text_refl.
      apply apply_edits_same_but_text. }
    destruct (getStoredEdits ls) as [st|]; [|injection Hres as Hres; now apply H3].
    destruct (_ && _); injection Hres as Hres; [|now apply H3].
    subst res. cbn. repeat split. apply apply_edits_same_but_text.
Qed.

(** X13.  The merge made before an analysis gives the texts the extraction
    gave: whenever a dirty stored record, if there is one, is the record of
    the extracted file and holds at least one edit, [extractPDFBlocks]
    returns the response with exactly the blocks that
    [mergeCurrentEditsIntoBlocks] makes of the response's blocks. *)
Theorem analysis_merge_agrees_with_extraction (fileName : string)
    (data : PDFExtractionResult) (ls : LocalStorage) (remote : EditsResponse) :
  (forall st, getStoredEdits ls = Some st -> EditorStorage.isDirty st = true ->
              pdfName st = fileName /\ edits st <> ∅) ->
  extractPDFBlocks fileName (ExtractBody true data) ls remote
    = inr (with_blocks data (mergeCurrentEditsIntoBlocks (blocks data) ls remote)).
Proof.
  intros Hdirty. unfold extractPDFBlocks, mergeCurrentEditsIntoBlocks.
  assert (H3 :
    match saved_edits remote with
    | Some savedEdits =>
        if Nat.ltb 0 (size savedEdits)
        then with_blocks data (apply_edits savedEdits (blocks data))
        else data
    | None => data
    end =
    with_blocks data
      match saved_edits remote with
      | Some savedEdits =>
          if Nat.ltb 0 (size savedEdits) then apply_edits savedEdits (blocks data)
          else blocks data
      | None => blocks data
      end).
  { destruct (saved_edits remote) as [e|]; [|now rewrite with_blocks_same].
    destruct (Nat.ltb 0 (size e)); [reflexivity | now rewrite with_blocks_same]. }
  destruct (getStoredEdits ls) as [st|]; [|now rewrite H3].
  destruct (EditorStorage.isDirty st) eqn:Hd.
  - destruct (Hdirty st eq_refl Hd) as [<- Hne].
    rewrite String.eqb_refl. cbn [andb].
    destruct (Nat.ltb_spec 0 (size (edits st))) as [_|Hz]; [reflexivity|].
    exfalso. apply Hne. apply map_size_empty_iff. lia.
  - rewrite andb_false_r. cbn [andb]. now rewrite H3.
Qed.

Lemma analysis_merge_agrees_with_extraction_witness :
  extractPDFBlocks "current_resume" (ExtractBody true one_page_result) dirty_local
    (EditsBody (Some backend_saved))
  = inr (with_blocks one_page_result
           (mergeCurrentEditsIntoBlocks (blocks one_page_result) dirty_local
              (EditsBody (Some backend_saved)))).
Proof.
  apply (analysis_merge_agrees_with_extraction "current_resume" one_page_result
           dirty_local (EditsBody (Some backend_saved))).
  intros st Hst _. vm_compute in Hst. injection Hst as <-.
  split; [reflexivity|]. intros H.
  apply (f_equal (fun m : gmap string string => m !! "block-1-0")) in H.
  vm_compute in H. discriminate H.
Defined.

End MergeFrame.

(** ** The editor state of the host page *)

Section EditorStateProperties.
Import JsString FontMapper EditorTypes PdfExport UseEditorState.

Lemma new_blocks_snoc (bs : list TextBlock) (b : TextBlock) :
  new_blocks (bs ++ [b]) = <[EditorTypes.id b := fresh_block b]> (new_blocks bs).
Proof. unfold new_blocks. now rewrite fold_left_app. Qed.

Lemma new_blocks_lookup (bs : list TextBlock) (k : string) (st : EditableBlockState) :
  new_blocks bs !! k = Some st ->
  exists b, In b bs /\ EditorTypes.id b = k /\ st = fresh_block b.
Proof.
  induction bs as [|b bs IH] using rev_ind.
  - unfold new_blocks. cbn. rewrite lookup_empty. discriminate.
  - rewrite new_blocks_snoc, lookup_insert. case_decide as Hk.
    + intros [= <-]. exists b. rewrite in_app_iff. cbn. auto.
    + intros H. destruct (IH H) as [b' [Hin Hb']]. exists b'.
      rewrite in_app_iff. auto.
Qed.

Lemma new_blocks_other (bs : list TextBlock) (k : string) :
  ~ In k (map EditorTypes.id bs) -> new_blocks bs !! k = None.
Proof.
  induction bs as [|b bs IH] using rev_ind; intros Hk.
  - apply lookup_empty.
  - rewrite map_app, in_app_iff in Hk. cbn in Hk.
    rewrite new_blocks_snoc, lookup_insert_ne by tauto. apply IH. tauto.
Qed.

Lemma new_blocks_last (pre post : list TextBlock) (b : TextBlock) :
  ~ In (EditorTypes.id b) (map EditorTypes.id post) ->
  new_blocks (pre ++ b :: post) !! EditorTypes.id b = Some (fresh_block b).
Proof.
  induction post as [|c post IH] using rev_ind; intros Hpost.
  - rewrite new_blocks_snoc. apply lookup_insert_eq.
  - rewrite map_app, in_app_iff in Hpost. cbn in Hpost.
    change (pre ++ b :: post ++ [c]) with (pre ++ (b :: post) ++ [c]).
    rewrite app_assoc, new_blocks_snoc, lookup_insert_ne by tauto.
    apply IH. tauto.
Qed.

Lemma Tracked_step (state : EditorState) (action : EditorAction) :
  Tracked state -> Tracked (editorReducer state action).
Proof.
  intros HT. destruct action as [file url|result|bid t|bid e|ws|sel|v|v|v|v|];
    try exact HT.
  - intros k st Hst. cbn in Hst.
    destruct (new_blocks_lookup _ _ _ Hst) as [b [Hin [Hid ->]]]. cbn.
    rewrite String.eqb_refl. repeat split; [exact Hid|].
    exists result, b. repeat split; assumption.
  - cbn. destruct (UseEditorState.blocks state !! bid) as [ex|] eqn:Hex; [|exact HT].
    intros k st. cbn. rewrite lookup_insert. case_decide as Hk.
    + intros [= <-]. cbn. destruct (HT bid ex Hex) as (Hid & _ & Hres).
      subst k. repeat split; assumption.
    + apply HT.
  - cbn. destruct (UseEditorState.blocks state !! bid) as [ex|] eqn:Hex; [|exact HT].
    intros k st. cbn. rewrite lookup_insert. case_decide as Hk.
    + intros [= <-]. cbn. destruct (HT bid ex Hex) as (Hid & Hd & Hres).
      subst k. repeat split; assumption.
    + apply HT.
  - intros k st. cbn. rewrite lookup_empty. discriminate.
Qed.

Lemma Tracked_dispatch_all (actions : list EditorAction) (state : EditorState) :
  Tracked state -> Tracked (dispatch_all actions state).
Proof.
  revert state. induction actions as [|a actions IH]; intros state HT; [exact HT|].
  apply IH. now apply Tracked_step.
Qed.

Lemma Tracked_initialState : Tracked initialState.
Proof. intros k st. cbn. rewrite lookup_empty. discriminate. Qed.

Lemma hasUnsavedChanges_fold (l : list EditableBlockState) (acc : bool) :
  fold_left (fun hasChanges block => if isDirty block then true else hasChanges) l acc
  = existsb isDirty l || acc.
Proof.
  revert acc. induction l as [|b l IH]; intros acc; [reflexivity|].
  cbn. rewrite IH. destruct (isDirty b); cbn; [now rewrite orb_true_r | reflexivity].
Qed.

Lemma hasUnsavedChanges_spec (state : EditorState) :
  hasUnsavedChanges state = true <->
  exists k st, UseEditorState.blocks state !! k = Some st /\ isDirty st = true.
Proof.
  unfold hasUnsavedChanges. rewrite hasUnsavedChanges_fold, orb_false_r, existsb_exists.
  split.
  - intros [st [Hin Hd]]. apply list_elem_of_In, list_elem_of_fmap in Hin.
    destruct Hin as [[k st'] [-> Hin]]. apply elem_of_map_to_list in Hin. eauto.
  - intros [k [st [Hst Hd]]]. exists st. split; [|exact Hd].
    apply list_elem_of_In, list_elem_of_fmap. exists (k, st).
    split; [reflexivity | now apply elem_of_map_to_list].
Qed.

(** X14.  Whatever actions are dispatched, starting from the initial
    state: every block state is filed under its own id, is marked dirty
    exactly when its current text differs from its original text, and has as
    original text the text of a block of that id in the extraction result
    held.  Hence [hasUnsavedChanges] is set exactly when some block's
    current text differs from its original text (an edit that is typed back
    leaves nothing unsaved). *)
Theorem editorReducer_keeps_blocks_tracked (actions : list EditorAction) :
  Tracked (dispatch_all actions initialState) /\
  (hasUnsavedChanges (dispatch_all actions initialState) = true <->
   exists k st,
     UseEditorState.blocks (dispatch_all actions initialState) !! k = Some st /\
     currentText st <> originalText st).
Proof.
  pose proof (Tracked_dispatch_all actions initialState Tracked_initialState) as HT.
  split; [exact HT|]. rewrite hasUnsavedChanges_spec.
  split; intros [k [st [Hst H]]]; exists k, st; (split; [exact Hst|]);
    destruct (HT k st Hst) as (_ & Hd & _); rewrite Hd in *.
  - apply negb_true_iff, String.eqb_neq in H. exact H.
  - apply negb_true_iff, String.eqb_neq. exact H.
Qed.

Lemma export_blocks_clean
    (widthOfTextAtSize : StandardFont -> string -> float -> option float)
    (blockStates : gmap string EditableBlockState) (bs : list TextBlock)
    (acc : PDFDocument * gmap string ParsedFontInfo) :
  (forall k st, blockStates !! k = Some st -> isDirty st = false) ->
  export_blocks widthOfTextAtSize blockStates bs acc = Some acc.
Proof.
  intros Hclean. induction bs as [|block rest IH]; [reflexivity|].
  cbn [export_blocks]. rewrite export_block_clean by (intros st; apply Hclean).
  exact IH.
Qed.

(** X15.  The export reads the dirty marks the reducer keeps: after any
    actions, if the current text of every block equals its original text
    (nothing was edited, or every edit was typed back), [exportToPDF] with
    the block states of the editor state draws nothing and returns the
    loaded pages as they are. *)
Theorem export_of_unedited_state_draws_nothing
    (widthOfTextAtSize : StandardFont -> string -> float -> option float)
    (fontCache : gmap string ParsedFontInfo) (pdfDoc : PDFDocument)
    (bs : list TextBlock) (actions : list EditorAction) :
  (forall k st,
     UseEditorState.blocks (dispatch_all actions initialState) !! k = Some st ->
     currentText st = originalText st) ->
  exportToPDF widthOfTextAtSize fontCache pdfDoc bs
    (UseEditorState.blocks (dispatch_all actions initialState))
    = Some (embedAllFonts pdfDoc, fontCache) /\
  hasUnsavedChanges (dispatch_all actions initialState) = false.
Proof.
  intros Hsame.
  pose proof (Tracked_dispatch_all actions initialState Tracked_initialState) as HT.
  assert (Hclean : forall k st,
            UseEditorState.blocks (dispatch_all actions initialState) !! k = Some st ->
            isDirty st = false).
  { intros k st Hst. destruct (HT k st Hst) as (_ & -> & _).
    rewrite (Hsame k st Hst), String.eqb_refl. reflexivity. }
  split; [now apply export_blocks_clean|].
  destruct (hasUnsavedChanges _) eqn:E; [|reflexivity].
  apply hasUnsavedChanges_spec in E. destruct E as [k [st [Hst Hd]]].
  rewrite (Hclean k st Hst) in Hd. discriminate.
Qed.

Lemma export_of_unedited_state_draws_nothing_witness :
  exportToPDF half_em ∅ one_page_doc [block_2024]
    (UseEditorState.blocks
       (dispatch_all [ SET_EXTRACTION_RESULT one_page_result;
                       UPDATE_BLOCK_TEXT "block-1-0" "2025";
                       UPDATE_BLOCK_TEXT "block-1-0" "2024" ] initialState))
    = Some (embedAllFonts one_page_doc, ∅) /\
  hasUnsavedChanges
    (dispatch_all [ SET_EXTRACTION_RESULT one_page_result;
                    UPDATE_BLOCK_TEXT "block-1-0" "2025";
                    UPDATE_BLOCK_TEXT "block-1-0" "2024" ] initialState) = false.
Proof.
  apply (export_of_unedited_state_draws_nothing half_em ∅ one_page_doc [block_2024]
           [ SET_EXTRACTION_RESULT one_page_result;
             UPDATE_BLOCK_TEXT "block-1-0" "2025";
             UPDATE_BLOCK_TEXT "block-1-0" "2024" ]).
  refine (bool_decide_unpack
            (map_Forall (fun _ st => currentText st = originalText st) _) _).
  vm_compute. exact I.
Defined.

(** X16.  Taking a new extraction result starts afresh: the block states
    are those of the ids of the result's blocks, each clean, not being
    edited and without weakness, with the text of the last block of the
    result that has its id as original and current text; no block is
    selected, no weak block is left and nothing is unsaved, whatever the
    state was before. *)
Theorem extraction_result_resets_the_blocks (state : EditorState)
    (result : PDFExtractionResult) :
  (forall k, is_Some (UseEditorState.blocks
                        (editorReducer state (SET_EXTRACTION_RESULT result)) !! k) <->
             In k (map EditorTypes.id (EditorTypes.blocks result))) /\
  (forall pre b post, EditorTypes.blocks result = pre ++ b :: post ->
     ~ In (EditorTypes.id b) (map EditorTypes.id post) ->
     UseEditorState.blocks (editorReducer state (SET_EXTRACTION_RESULT result))
       !! EditorTypes.id b
     = Some {| state_id := EditorTypes.id b; originalText := EditorTypes.text b;
               currentText := EditorTypes.text b; isEditing := false;
               isDirty := false; weakness := None |}) /\
  hasUnsavedChanges (editorReducer state (SET_EXTRACTION_RESULT result)) = false /\
  weakBlockCount (editorReducer state (SET_EXTRACTION_RESULT result)) = 0 /\
  selectedBlockId (editorReducer state (SET_EXTRACTION_RESULT result)) = None /\
  extractionResult (editorReducer state (SET_EXTRACTION_RESULT result)) = Some result.
Proof.
  cbn [editorReducer UseEditorState.blocks selectedBlockId extractionResult].
  split; [|split; [|split; [|repeat split]]].
  - intros k. split.
    + intros [st Hst]. destruct (new_blocks_lookup _ _ _ Hst) as [b [Hin [<- _]]].
      now apply in_map.
    + intros Hin. destruct (new_blocks (EditorTypes.blocks result) !! k) eqn:E; [eauto|].
      exfalso. apply in_map_iff in Hin. destruct Hin as [b [<- Hin]].
      apply in_split in Hin. destruct Hin as [pre [post Hsplit]].
      revert E. rewrite Hsplit. clear Hsplit. revert pre.
      induction post as [|c post IH] using rev_ind; intros pre.
      * rewrite new_blocks_snoc, lookup_insert_eq. discriminate.
      * change (pre ++ b :: post ++ [c]) with (pre ++ (b :: post) ++ [c]).
        rewrite app_assoc, new_blocks_snoc, lookup_insert.
        case_decide; [discriminate | apply IH].
  - intros pre b post -> Hpost. now apply new_blocks_last.
  - destruct (hasUnsavedChanges _) eqn:E; [|reflexivity].
    apply hasUnsavedChanges_spec in E. destruct E as [k [st [Hst Hd]]].
    cbn in Hst. destruct (new_blocks_lookup _ _ _ Hst) as [b [_ [_ ->]]]. discriminate.
Qed.

End EditorStateProperties.

(** ** The overlay controller: what a session keeps true *)

Section SessionProperties.
Import JsString EditorStorage DocumentCanvas.

(** X17.  In every state of a session (any interleaving of renders,
    focus changes, typing, key presses, locking, flushes and changes of the
    host's data), a block on screen is filed under its own id, its rollback
    snapshot is its committed text, its span shows that text unless it is
    the one being edited, only a span on screen has the focus, and every
    queued save is filed under the id of its block. *)
Theorem session_invariant (s : Canvas) (span : string) (b : ResumeBlock) :
  reachable s ->
  blocks s !! span = Some b ->
  id b = span /\
  originalTextRef s !! span = Some (text b) /\
  (focused s <> Some span -> textContent s span = text b) /\
  (forall other, focused s = Some other -> is_Some (blocks s !! other)) /\
  (forall k u, pendingSaves s !! k = Some u -> blockId u = k).
Proof.
  intros Hreach Hb. destruct (reachable_Inv s Hreach) as [H1 H2 H3 H4 H5].
  split; [now apply H1|]. split; [now apply H2|]. split; [now apply H3|].
  split; assumption.
Qed.

Lemma session_invariant_witness :
  id block_engineer = "block-1-2" /\
  originalTextRef typing !! "block-1-2" = Some (text block_engineer) /\
  (focused typing <> Some "block-1-2" ->
   textContent typing "block-1-2" = text block_engineer) /\
  (forall other, focused typing = Some other -> is_Some (blocks typing !! other)) /\
  (forall k u, pendingSaves typing !! k = Some u -> blockId u = k).
Proof.
  apply (session_invariant typing "block-1-2" block_engineer).
  - apply reach_type; [|reflexivity].
    apply reach_focus; [|vm_compute; eauto].
    apply reach_render. apply reach_init.
  - reflexivity.
Defined.

Lemma QueueInv_ext (s s' : Canvas) :
  pendingSaves s' = pendingSaves s ->
  hasPendingChanges s' = hasPendingChanges s ->
  pendingChanges s ⊆ pendingChanges s' ->
  QueueInv s -> QueueInv s'.
Proof.
  intros Hp Hf Hc [Q1 Q2 Q3]. split; rewrite ?Hp, ?Hf; try assumption.
  intros k u Hu. apply Hc. now apply (Q3 k u).
Qed.

Lemma QueueInv_init : QueueInv init.
Proof.
  split; cbn.
  - split; [discriminate | congruence].
  - intros k u. rewrite lookup_empty. discriminate.
  - intros k u. rewrite lookup_empty. discriminate.
Qed.

Lemma queueBlockSave_QueueInv (bid old new : string) (sec : option string) (s : Canvas) :
  QueueInv s -> QueueInv (queueBlockSave bid old new sec s).
Proof.
  intros [Q1 Q2 Q3]. unfold queueBlockSave.
  destruct (String.eqb_spec old new) as [_|Hne]; [now split|].
  split; cbn.
  - split; [intros _; apply insert_non_empty | reflexivity].
  - intros k u. rewrite lookup_insert. case_decide as Hk; [|apply Q2].
    now intros [= <-].
  - intros k u. rewrite lookup_insert, elem_of_union, elem_of_singleton.
    case_decide as Hk; [now left | intros Hu; right; now apply (Q3 k u)].
Qed.

Lemma commit_edit_QueueInv (span : string) (b : ResumeBlock) (old new : string)
    (s : Canvas) :
  QueueInv s -> QueueInv (commit_edit span b old new s).
Proof.
  intros HQ. unfold commit_edit.
  match goal with
  | |- QueueInv (set_textChanges _ (queueBlockSave ?a ?o ?n ?c ?s3)) =>
      assert (H3 : QueueInv (queueBlockSave a o n c s3))
  end.
  { apply queueBlockSave_QueueInv. eapply QueueInv_ext; [..|exact HQ]; reflexivity. }
  eapply QueueInv_ext; [..|exact H3]; reflexivity.
Qed.

Lemma handleBlur_QueueInv (span : string) (s : Canvas) :
  QueueInv s -> QueueInv (handleBlur span s).
Proof.
  intros HQ. unfold handleBlur. destruct (blocks s !! span); [|exact HQ].
  destruct (String.eqb _ _); [exact HQ | now apply commit_edit_QueueInv].
Qed.

Lemma dom_blur_QueueInv (span : string) (s : Canvas) :
  QueueInv s -> QueueInv (dom_blur span s).
Proof.
  intros HQ. unfold dom_blur. destruct (decide _); [|exact HQ].
  apply handleBlur_QueueInv. eapply QueueInv_ext; [..|exact HQ]; reflexivity.
Qed.

Lemma handleFocus_QueueInv (span : string) (s : Canvas) :
  QueueInv s -> QueueInv (handleFocus span s).
Proof.
  intros HQ. unfold handleFocus. destruct (isLocked s); [now apply dom_blur_QueueInv|].
  destruct (blocks s !! span); [|exact HQ].
  eapply QueueInv_ext; [..|exact HQ]; reflexivity.
Qed.

Lemma dom_focus_QueueInv (span : string) (s : Canvas) :
  QueueInv s -> QueueInv (dom_focus span s).
Proof.
  intros HQ. unfold dom_focus. destruct (decide _); [exact HQ|].
  apply handleFocus_QueueInv.
  assert (H1 : QueueInv match focused s with
                        | Some other => dom_blur other s
                        | None => s
                        end).
  { destruct (focused s); [now apply dom_blur_QueueInv | exact HQ]. }
  eapply QueueInv_ext; [..|exact H1]; reflexivity.
Qed.

Lemma handleTextMutation_queue (targets : list string) (s : Canvas) :
  pendingSaves (handleTextMutation targets s) = pendingSaves s /\
  hasPendingChanges (handleTextMutation targets s) = hasPendingChanges s /\
  pendingChanges s ⊆ pendingChanges (handleTextMutation targets s).
Proof.
  unfold handleTextMutation. revert s.
  induction targets as [|t targets IH]; intros s; [split; [|split]; reflexivity|].
  cbn [fold_left].
  destruct (blocks s !! t) as [b|]; [|apply IH].
  destruct (String.eqb _ _); [apply IH|].
  match goal with
  | |- context [fold_left ?f targets ?s0] => destruct (IH s0) as (-> & -> & Hsub)
  end.
  split; [reflexivity|]. split; [reflexivity|].
  etransitivity; [|exact Hsub]. cbn. apply union_subseteq_r.
Qed.

Lemma handleTextMutation_QueueInv (targets : list string) (s : Canvas) :
  QueueInv s -> QueueInv (handleTextMutation targets s).
Proof.
  destruct (handleTextMutation_queue targets s) as (Hp & Hf & Hc).
  now apply QueueInv_ext.
Qed.

Lemma keydown_QueueInv (key : Key) (shiftKey : bool) (span : string) (s : Canvas) :
  QueueInv s -> QueueInv (keydown key shiftKey span s).
Proof.
  intros HQ.
  assert (HK : QueueInv (handleKeyDown key shiftKey span s)).
  { unfold handleKeyDown. destruct (isLocked s); [exact HQ|].
    destruct (blocks s !! span) as [b|]; [|exact HQ].
    destruct key.
    - destruct shiftKey; cbn; [exact HQ | now apply dom_blur_QueueInv].
    - apply dom_blur_QueueInv. destruct (originalTextRef s !! id b); [|exact HQ].
      eapply QueueInv_ext; [..|exact HQ]; reflexivity.
    - exact HQ. }
  unfold keydown. destruct key; try exact HK.
  destruct (blocks s !! span); [|exact HK].
  destruct (_ && _); [now apply handleTextMutation_QueueInv | exact HK].
Qed.

(** Laying out items touches the blocks, the spans and the snapshots
    only. *)
Lemma render_items_frame compose pageNumber scale viewportTransform
    (savedTexts : gmap string string) (items : list ContentItem) (index : nat)
    (sectionGuess : string) (s : Canvas) :
  same_frame s
    (render_items compose pageNumber scale viewportTransform savedTexts
       items index sectionGuess s).2.
Proof.
  revert index sectionGuess s.
  induction items as [|item items IH]; intros index sectionGuess s;
    [unfold same_frame; cbn; repeat split|].
  destruct item as [run|]; cbn [render_items]; [|apply IH].
  destruct (truthy (trim (str run))); [|apply IH].
  destruct (render_text_item _ _ _ _ _ _ _ _ _) as [block s1] eqn:E1.
  specialize (IH (S index) (guess_section (toLowerCase (str run)) sectionGuess) s1).
  destruct (render_items _ _ _ _ _ items _ _ _) as [extracted s2].
  cbn [snd] in *. unfold render_text_item in E1. injection E1 as _ <-.
  exact IH.
Qed.

Lemma renderPage_QueueInv compose pageNumber scale viewportTransform
    (items : list ContentItem) (s : Canvas) :
  QueueInv s -> QueueInv (renderPage compose pageNumber scale viewportTransform items s).2.
Proof.
  intros HQ. unfold renderPage.
  match goal with
  | |- QueueInv (render_items ?c ?p ?sc ?vt ?sv ?it ?i ?sg ?s0).2 =>
      destruct (render_items_frame c p sc vt sv it i sg s0) as (Hp & Hf & Hc & _)
  end.
  apply (QueueInv_ext s); [exact Hp | exact Hf | now rewrite Hc | exact HQ].
Qed.

Lemma reachable_QueueInv (s : Canvas) : reachable s -> QueueInv s.
Proof.
  induction 1 as [| ? ? ? ? ? s _ IH | span s _ IH Hsome | span s _ IH
                 | span t s _ IH Hf | key shiftKey span s _ IH Hf | v s _ IH
                 | v s _ IH | s _ IH | ok s _ IH _ | ls s _ IH | now s _ IH].
  - exact QueueInv_init.
  - now apply renderPage_QueueInv.
  - now apply dom_focus_QueueInv.
  - now apply dom_blur_QueueInv.
  - unfold typeText. apply handleTextMutation_QueueInv.
    eapply QueueInv_ext; [..|exact IH]; reflexivity.
  - now apply keydown_QueueInv.
  - eapply QueueInv_ext; [..|exact IH]; reflexivity.
  - eapply QueueInv_ext; [..|exact IH]; reflexivity.
  - unfold saveChanges_begin. destruct (_ || _); [exact IH|].
    eapply QueueInv_ext; [..|exact IH]; reflexivity.
  - unfold saveChanges_settle. destruct ok; cbn.
    + split; cbn.
      * split; [discriminate | congruence].
      * intros k u. rewrite lookup_empty. discriminate.
      * intros k u. rewrite lookup_empty. discriminate.
    + eapply QueueInv_ext; [..|exact IH]; reflexivity.
  - eapply QueueInv_ext; [..|exact IH]; reflexivity.
  - eapply QueueInv_ext; [..|exact IH]; reflexivity.
Qed.

(** X18.  In every state of a session the pending flag the component
    shows to the host agrees with the queue: it is set exactly when a save
    is queued, which is what the imperative handle's [hasPendingChanges]
    answers.  Every queued save changes the text of its block, and its block
    is marked as changed. *)
Theorem pending_flag_tells_the_queue (s : Canvas) :
  reachable s ->
  hasPendingChanges s = handle_hasPendingChanges s /\
  (hasPendingChanges s = false <-> getPendingChanges s = []) /\
  (forall k u, pendingSaves s !! k = Some u ->
     oldText u <> newText u /\ k ∈ pendingChanges s).
Proof.
  intros Hreach. destruct (reachable_QueueInv s Hreach) as [Q1 Q2 Q3].
  assert (Hsize : handle_hasPendingChanges s = true <-> pendingSaves s <> ∅).
  { unfold handle_hasPendingChanges. rewrite Nat.ltb_lt.
    rewrite <- (map_size_empty_iff (pendingSaves s)). lia. }
  assert (Hlist : getPendingChanges s = [] <-> pendingSaves s = ∅).
  { unfold getPendingChanges, pending_updates. split.
    - intros H. apply map_to_list_empty_iff. now apply fmap_nil_inv in H.
    - intros ->. now rewrite map_to_list_empty. }
  split; [|split].
  - destruct (hasPendingChanges s), (handle_hasPendingChanges s); try reflexivity.
    + exfalso. assert (false = true) by (apply Hsize, Q1; reflexivity). discriminate.
    + exfalso. assert (false = true) by (apply Q1, Hsize; reflexivity). discriminate.
  - rewrite Hlist. destruct (hasPendingChanges s).
    + split; [discriminate|]. intros He. exfalso. now apply Q1.
    + split; [|reflexivity]. intros _.
      destruct (decide (pendingSaves s = ∅)) as [He|Hne]; [exact He|].
      apply Q1 in Hne. discriminate.
  - intros k u Hu. split; [now apply (Q2 k u) | now apply (Q3 k u)].
Qed.

Lemma pending_flag_tells_the_queue_witness :
  hasPendingChanges committed = handle_hasPendingChanges committed /\
  (hasPendingChanges committed = false <-> getPendingChanges committed = []) /\
  (forall k u, pendingSaves committed !! k = Some u ->
     oldText u <> newText u /\ k ∈ pendingChanges committed).
Proof.
  apply (pending_flag_tells_the_queue committed).
  apply reach_blur. apply reach_type; [|reflexivity].
  apply reach_focus; [|vm_compute; eauto].
  apply reach_render. apply reach_init.
Defined.

End SessionProperties.

(** ** The overlay controller: committing, keys and focus *)

Section Committing.
Import JsString EditorStorage DocumentCanvas.

Lemma commit_edit_effects (span : string) (b : ResumeBlock) (old new : string)
    (s : Canvas) :
  old <> new ->
  storage (commit_edit span b old new s) =
    markEditsDirty
      (saveEditsToStorage [Build_BlockUpdate (id b) old new (Some (section b))]
         "current_resume" true (clock s) (storage s)) /\
  hasPendingChanges (commit_edit span b old new s) = true /\
  pendingChanges (commit_edit span b old new s) = {[id b]} ∪ pendingChanges s /\
  textChanges (commit_edit span b old new s) = textChanges s ++ [(id b, old, new)] /\
  updatedBlocks (commit_edit span b old new s) = updatedBlocks s /\
  clock (commit_edit span b old new s) = clock s.
Proof.
  intros Hne. unfold commit_edit, queueBlockSave.
  destruct (String.eqb_spec old new); [contradiction|]. repeat split.
Qed.

(** An id made by [renderPage] is not the name [__proto__]. *)
Lemma block_id_ordinary (pageNumber index : nat) :
  block_id pageNumber index <> "__proto__".
Proof. unfold block_id. cbv [String.append]. discriminate. Qed.

Lemma handleFocus_dom (span sp : string) (s : Canvas) :
  is_Some (blocks (handleFocus span s) !! sp) <-> is_Some (blocks s !! sp).
Proof.
  unfold handleFocus. destruct (isLocked s); [apply dom_blur_dom|].
  destruct (blocks s !! span); reflexivity.
Qed.

Lemma dom_focus_dom (span sp : string) (s : Canvas) :
  is_Some (blocks (dom_focus span s) !! sp) <-> is_Some (blocks s !! sp).
Proof.
  unfold dom_focus. destruct (decide _); [reflexivity|].
  rewrite handleFocus_dom. cbn [blocks set_focused].
  destruct (focused s); [apply dom_blur_dom | reflexivity].
Qed.

Lemma handleKeyDown_dom (key : Key) (shiftKey : bool) (span sp : string) (s : Canvas) :
  is_Some (blocks (handleKeyDown key shiftKey span s) !! sp) <-> is_Some (blocks s !! sp).
Proof.
  unfold handleKeyDown. destruct (isLocked s); [reflexivity|].
  destruct (blocks s !! span) as [b|]; [|reflexivity].
  destruct key.
  - destruct shiftKey; cbn; [reflexivity | apply dom_blur_dom].
  - rewrite dom_blur_dom. destruct (originalTextRef s !! id b); reflexivity.
  - reflexivity.
Qed.

Lemma keydown_dom (key : Key) (shiftKey : bool) (span sp : string) (s : Canvas) :
  is_Some (blocks (keydown key shiftKey span s) !! sp) <-> is_Some (blocks s !! sp).
Proof.
  unfold keydown. destruct key; try apply handleKeyDown_dom.
  destruct (blocks s !! span); [|apply handleKeyDown_dom].
  destruct (_ && _); [|apply handleKeyDown_dom].
  destruct (handleTextMutation_fields [span] (handleKeyDown Escape shiftKey span s))
    as (-> & _).
  apply handleKeyDown_dom.
Qed.

Lemma render_items_ids compose pageNumber scale viewportTransform
    (savedTexts : gmap string string) (items : list ContentItem) (index : nat)
    (sectionGuess : string) (s : Canvas) :
  laid_out_ids s ->
  laid_out_ids (render_items compose pageNumber scale viewportTransform savedTexts
                  items index sectionGuess s).2.
Proof.
  revert index sectionGuess s.
  induction items as [|item items IH]; intros index sectionGuess s Hs; [exact Hs|].
  destruct item as [t|]; cbn [render_items]; [|now apply IH].
  destruct (truthy (trim (str t))); [|now apply IH].
  destruct (render_text_item _ _ _ _ _ _ _ _ _) as [block s'] eqn:E.
  assert (Hs' : laid_out_ids s').
  { unfold render_text_item in E. injection E as _ <-. intros sp. cbn.
    rewrite lookup_insert. case_decide as Hk; [intros _; subst sp; eauto | apply Hs]. }
  specialize (IH (S index) (guess_section (toLowerCase (str t)) sectionGuess) s' Hs').
  destruct (render_items _ _ _ _ _ _ _ _ _) as [extracted s'']. exact IH.
Qed.

(** In every state of a session the spans have ids of [renderPage]. *)
Lemma reachable_laid_out_ids (s : Canvas) : reachable s -> laid_out_ids s.
Proof.
  induction 1 as [| ? ? ? ? ? s _ IH | span s _ IH Hsome | span s _ IH
                 | span t s _ IH Hf | key shiftKey span s _ IH Hf | v s _ IH
                 | v s _ IH | s _ IH | ok s _ IH _ | ls s _ IH | now s _ IH];
    intros sp.
  - cbn. rewrite lookup_empty. intros [? [=]].
  - revert sp. unfold renderPage. apply render_items_ids.
    intros sp. cbn. rewrite lookup_empty. intros [? [=]].
  - rewrite dom_focus_dom. apply IH.
  - rewrite dom_blur_dom. apply IH.
  - unfold typeText.
    destruct (handleTextMutation_fields [span]
                (set_spanText (<[span := t]> (spanText s)) s)) as (-> & _).
    apply IH.
  - rewrite keydown_dom. apply IH.
  - apply IH.
  - apply IH.
  - unfold saveChanges_begin. destruct (_ || _); apply IH.
  - unfold saveChanges_settle. destruct ok; apply IH.
  - apply IH.
  - apply IH.
Qed.

(** X19.  Leaving a block whose span shows a text other than the
    committed one commits the edit, whether or not the editor is locked:
    the block takes the shown text and is marked edited (its geometry is
    kept, the other blocks are untouched), the rollback snapshot becomes the
    new text, the edit is written through to the store under
    "current_resume" and marked dirty (other entries of such a record are
    kept), exactly one save from the old to the new text is queued for the
    block, the pending flag is set and the host is told of the change. *)
Theorem blur_commits_the_edit (s : Canvas) (span : string) (b : ResumeBlock) :
  reachable s ->
  focused s = Some span ->
  blocks s !! span = Some b ->
  textContent s span <> text b ->
  blocks (dom_blur span s) !! span = Some (commit_text b (textContent s span)) /\
  (forall other, other <> span ->
     blocks (dom_blur span s) !! other = blocks s !! other) /\
  focused (dom_blur span s) = None /\
  originalTextRef (dom_blur span s) !! span = Some (textContent s span) /\
  pendingSaves (dom_blur span s) !! span
    = Some (Build_BlockUpdate span (text b) (textContent s span) (Some (section b))) /\
  (forall other, other <> span ->
     pendingSaves (dom_blur span s) !! other = pendingSaves s !! other) /\
  hasPendingChanges (dom_blur span s) = true /\
  textChanges (dom_blur span s)
    = textChanges s ++ [(span, text b, textContent s span)] /\
  exists st,
    getStoredEdits (storage (dom_blur span s)) = Some st /\
    pdfName st = "current_resume" /\ EditorStorage.isDirty st = true /\
    timestamp st = clock s /\
    edits st !! span = Some (textContent s span) /\
    (forall other, other <> span ->
       edits st !! other =
         getEditsForPdf "current_resume" (storage s) ≫= (fun e => e !! other)).
Proof.
  intros Hreach Hf Hb Hne.
  pose proof (reachable_Inv s Hreach) as HI.
  pose proof (inv_id s HI span b Hb) as Hid.
  assert (Hspan : span <> "__proto__").
  { destruct (reachable_laid_out_ids s Hreach span) as (p & i & ->); [eauto|].
    apply block_id_ordinary. }
  assert (Hblur : dom_blur span s =
            commit_edit span b (text b) (textContent s span) (set_focused None s)).
  { unfold dom_blur. rewrite decide_True by exact Hf.
    unfold handleBlur. cbn [blocks set_focused]. rewrite Hb.
    change (originalTextRef (set_focused None s)) with (originalTextRef s).
    rewrite (rollback_text s span b HI Hb).
    change (textContent (set_focused None s) span) with (textContent s span).
    destruct (String.eqb_spec (textContent s span) (text b)); [contradiction | reflexivity]. }
  rewrite Hblur.
  destruct (commit_edit_fields span b (text b) (textContent s span) (set_focused None s))
    as (Eb & Et & Ef & Eo & _).
  pose proof (commit_edit_pending span b (text b) (textContent s span)
                (set_focused None s) (not_eq_sym Hne)) as Ep.
  destruct (commit_edit_effects span b (text b) (textContent s span)
              (set_focused None s) (not_eq_sym Hne)) as (Es & Eh & _ & Ec & _).
  rewrite Eb, Ef, Eo, Ep, Es, Eh, Ec, Hid. cbn [blocks pendingSaves originalTextRef
    focused storage clock textChanges set_focused].
  rewrite !lookup_insert_eq.
  split; [reflexivity|]. split; [intros other Ho; now rewrite lookup_insert_ne|].
  split; [reflexivity|]. split; [reflexivity|]. split; [reflexivity|].
  split; [intros other Ho; now rewrite lookup_insert_ne|].
  split; [reflexivity|]. split; [reflexivity|].
  assert (Hname : "current_resume" <> "") by discriminate.
  destruct (getStoredEdits_saveEditsToStorage
              [Build_BlockUpdate span (text b) (textContent s span) (Some (section b))]
              "current_resume" true (clock s) (storage s) Hname) as [e [Hget He]].
  apply getStoredEdits_markEditsDirty in Hget. cbn [edits pdfName timestamp] in Hget.
  exists {| edits := e; timestamp := clock s; pdfName := "current_resume";
            isDirty := true |}.
  split; [exact Hget|]. cbn [edits pdfName timestamp EditorStorage.isDirty].
  repeat split.
  - rewrite He.
    apply (merge_updates_last_writer [] []
             (Build_BlockUpdate span (text b) (textContent s span) (Some (section b))));
      [intros [] | exact Hspan].
  - intros other Ho. rewrite He.
    rewrite merge_updates_other by (cbn; intros [H|[]]; congruence).
    unfold getEditsForPdf. destruct (getStoredEdits (storage s)) as [ex|]; cbn.
    + destruct (String.eqb (pdfName ex) "current_resume"); cbn;
        [reflexivity | apply lookup_empty].
    + apply lookup_empty.
Qed.

Lemma blur_commits_the_edit_witness :
  blocks (dom_blur "block-1-2" typing) !! "block-1-2"
    = Some (commit_text block_engineer (textContent typing "block-1-2")) /\
  (forall other, other <> "block-1-2" ->
     blocks (dom_blur "block-1-2" typing) !! other = blocks typing !! other) /\
  focused (dom_blur "block-1-2" typing) = None /\
  originalTextRef (dom_blur "block-1-2" typing) !! "block-1-2"
    = Some (textContent typing "block-1-2") /\
  pendingSaves (dom_blur "block-1-2" typing) !! "block-1-2"
    = Some (Build_BlockUpdate "block-1-2" (text block_engineer)
              (textContent typing "block-1-2") (Some (section block_engineer))) /\
  (forall other, other <> "block-1-2" ->
     pendingSaves (dom_blur "block-1-2" typing) !! other = pendingSaves typing !! other) /\
  hasPendingChanges (dom_blur "block-1-2" typing) = true /\
  textChanges (dom_blur "block-1-2" typing)
    = textChanges typing ++
      [("block-1-2", text block_engineer, textContent typing "block-1-2")] /\
  exists st,
    getStoredEdits (storage (dom_blur "block-1-2" typing)) = Some st /\
    pdfName st = "current_resume" /\ EditorStorage.isDirty st = true /\
    timestamp st = clock typing /\
    edits st !! "block-1-2" = Some (textContent typing "block-1-2") /\
    (forall other, other <> "block-1-2" ->
       edits st !! other =
         getEditsForPdf "current_resume" (storage typing) ≫= (fun e => e !! other)).
Proof.
  apply (blur_commits_the_edit typing "block-1-2" block_engineer).
  - apply reach_type; [|reflexivity].
    apply reach_focus; [|vm_compute; eauto].
    apply reach_render. apply reach_init.
  - reflexivity.
  - reflexivity.
  - vm_compute. discriminate.
Defined.

(** X20.  Keys while a block is being edited.  In a locked editor every
    key is swallowed: the state stays as it is.  In an unlocked editor Enter
    without Shift does what leaving the block does (it blurs the span, which
    commits a changed text), while Enter with Shift and every key other than
    Enter and Escape are left to the browser: the controller's state does
    not change. *)
Theorem keys_while_editing (s : Canvas) (span : string) (key : Key)
    (shiftKey : bool) :
  reachable s ->
  focused s = Some span ->
  (isLocked s = true -> keydown key shiftKey span s = s) /\
  (isLocked s = false ->
   keydown Enter false span s = dom_blur span s /\
   keydown Enter true span s = s /\
   keydown OtherKey shiftKey span s = s).
Proof.
  intros Hreach Hf.
  destruct (inv_focus s (reachable_Inv s Hreach) span Hf) as [b Hb].
  unfold keydown, handleKeyDown. rewrite Hb. split; intros ->.
  - destruct key; reflexivity.
  - repeat split.
Qed.

Lemma keys_while_editing_witness :
  (isLocked typing = true -> keydown Enter false "block-1-2" typing = typing) /\
  (isLocked typing = false ->
   keydown Enter false "block-1-2" typing = dom_blur "block-1-2" typing /\
   keydown Enter true "block-1-2" typing = typing /\
   keydown OtherKey false "block-1-2" typing = typing).
Proof.
  apply (keys_while_editing typing "block-1-2" Enter false).
  - apply reach_type; [|reflexivity].
    apply reach_focus; [|vm_compute; eauto].
    apply reach_render. apply reach_init.
  - reflexivity.
Defined.

Lemma set_focused_same (s : Canvas) : set_focused (focused s) s = s.
Proof. now destruct s. Qed.

(** X21.  Giving the focus to a block, when no block has it, changes
    nothing but the focus: the snapshot taken is the committed text the
    span already shows, so in an unlocked editor the state is the old one
    with the focus on the block; in a locked editor the focus is dropped at
    once and the state is exactly the old one (no snapshot, no commit, no
    save). *)
Theorem focus_changes_nothing_but_the_focus (s : Canvas) (span : string) :
  reachable s ->
  focused s = None ->
  is_Some (blocks s !! span) ->
  (isLocked s = false -> dom_focus span s = set_focused (Some span) s) /\
  (isLocked s = true -> dom_focus span s = s).
Proof.
  intros Hreach Hf [b Hb].
  pose proof (reachable_Inv s Hreach) as HI.
  pose proof (inv_id s HI span b Hb) as Hid.
  pose proof (inv_snapshot s HI span b Hb) as Hsnap.
  assert (Hshown : textContent s span = text b).
  { apply (inv_shown s HI span b Hb). rewrite Hf. discriminate. }
  unfold dom_focus. rewrite decide_False by (rewrite Hf; discriminate).
  rewrite Hf. unfold handleFocus. cbn [isLocked set_focused].
  split; intros ->.
  - cbn [blocks set_focused]. rewrite Hb.
    change (textContent (set_focused (Some span) s) span) with (textContent s span).
    change (originalTextRef (set_focused (Some span) s)) with (originalTextRef s).
    rewrite Hid, Hshown, (insert_id (originalTextRef s) span (text b) Hsnap).
    now destruct s.
  - unfold dom_blur. cbn [focused set_focused]. rewrite decide_True by reflexivity.
    rewrite (handleBlur_unchanged _ span b).
    + rewrite <- Hf at 1. now destruct s.
    + exact Hb.
    + cbn. now rewrite Hid.
    + exact Hshown.
Qed.

Lemma focus_changes_nothing_but_the_focus_witness :
  (isLocked laid_out = false ->
   dom_focus "block-1-2" laid_out = set_focused (Some "block-1-2") laid_out) /\
  (isLocked laid_out = true -> dom_focus "block-1-2" laid_out = laid_out).
Proof.
  apply (focus_changes_nothing_but_the_focus laid_out "block-1-2").
  - apply reach_render. apply reach_init.
  - reflexivity.
  - vm_compute. eauto.
Defined.

(** X22.  A flush that runs (no flush in flight, something queued) hands
    every queued save to the save callback.  If every call resolves, the
    flush returns [true] and the queue, the set of changed blocks and the
    pending flag are cleared; if some call rejects, it returns [false] and
    the queue is kept for the next attempt.  With no callback installed the
    flush calls nothing, returns [true] and clears the queue all the same.
    In every case the flush is over afterwards.  (What the callback itself
    does to the stored edits is not the flush's doing and is not stated
    here.) *)
Theorem flush_outcomes (cb : BlockUpdate -> bool) (s : Canvas) :
  isSaving s = false ->
  pendingSaves s <> ∅ ->
  (saveChanges (Some cb) s).1.2 = pending_updates s /\
  (forallb cb (pending_updates s) = true ->
   (saveChanges (Some cb) s).1.1 = true /\
   pendingSaves (saveChanges (Some cb) s).2 = ∅ /\
   pendingChanges (saveChanges (Some cb) s).2 = ∅ /\
   hasPendingChanges (saveChanges (Some cb) s).2 = false) /\
  (forallb cb (pending_updates s) = false ->
   (saveChanges (Some cb) s).1.1 = false /\
   pendingSaves (saveChanges (Some cb) s).2 = pendingSaves s /\
   hasPendingChanges (saveChanges (Some cb) s).2 = hasPendingChanges s) /\
  (saveChanges None s).1 = (true, []) /\
  pendingSaves (saveChanges None s).2 = ∅ /\
  isSaving (saveChanges (Some cb) s).2 = false /\
  isSaving (saveChanges None s).2 = false.
Proof.
  intros Hs Hne. unfold saveChanges, saveChanges_begin. rewrite Hs, orb_false_r.
  destruct (Nat.eqb_spec (size (pendingSaves s)) 0) as [Hz|_].
  { apply map_size_empty_iff in Hz. contradiction. }
  cbn. destruct (forallb cb (pending_updates s)); cbn; repeat split; intros; discriminate.
Qed.

Lemma flush_outcomes_witness :
  (saveChanges (Some (fun _ => false)) committed).1.2 = pending_updates committed /\
  (forallb (fun _ => false) (pending_updates committed) = true ->
   (saveChanges (Some (fun _ => false)) committed).1.1 = true /\
   pendingSaves (saveChanges (Some (fun _ => false)) committed).2 = ∅ /\
   pendingChanges (saveChanges (Some (fun _ => false)) committed).2 = ∅ /\
   hasPendingChanges (saveChanges (Some (fun _ => false)) committed).2 = false) /\
  (forallb (fun _ => false) (pending_updates committed) = false ->
   (saveChanges (Some (fun _ => false)) committed).1.1 = false /\
   pendingSaves (saveChanges (Some (fun _ => false)) committed).2
     = pendingSaves committed /\
   hasPendingChanges (saveChanges (Some (fun _ => false)) committed).2
     = hasPendingChanges committed) /\
  (saveChanges None committed).1 = (true, []) /\
  pendingSaves (saveChanges None committed).2 = ∅ /\
  isSaving (saveChanges (Some (fun _ => false)) committed).2 = false /\
  isSaving (saveChanges None committed).2 = false.
Proof.
  apply (flush_outcomes (fun _ => false) committed).
  - reflexivity.
  - intros H. apply (f_equal (fun m : gmap string BlockUpdate => m !! "block-1-2")) in H.
    vm_compute in H. discriminate H.
Defined.

(** X23.  Typing alone saves nothing.  After the text of a span has
    been changed to [t], the span shows [t] and the other spans what they
    showed; the blocks, the rollback snapshots, the save queue, the pending
    flag, the stored edits and the focus are as before.  The only trace is
    in the set of changed blocks: the id of the span's block is added when
    [t] differs from the block's committed text. *)
Theorem typing_saves_nothing (s : Canvas) (span t : string) :
  textContent (typeText span t s) span = t /\
  (forall other, other <> span ->
     textContent (typeText span t s) other = textContent s other) /\
  blocks (typeText span t s) = blocks s /\
  originalTextRef (typeText span t s) = originalTextRef s /\
  pendingSaves (typeText span t s) = pendingSaves s /\
  hasPendingChanges (typeText span t s) = hasPendingChanges s /\
  storage (typeText span t s) = storage s /\
  focused (typeText span t s) = focused s /\
  textChanges (typeText span t s) = textChanges s /\
  pendingChanges (typeText span t s) =
    match blocks s !! span with
    | Some b => if String.eqb t (text b) then pendingChanges s
                else {[id b]} ∪ pendingChanges s
    | None => pendingChanges s
    end.
Proof.
  unfold typeText, handleTextMutation. cbn [fold_left blocks set_spanText].
  assert (Hshown : textContent (set_spanText (<[span:=t]> (spanText s)) s) span = t).
  { unfold textContent. cbn. now rewrite lookup_insert_eq. }
  assert (Hother : forall other, other <> span ->
            textContent (set_spanText (<[span:=t]> (spanText s)) s) other
            = textContent s other).
  { intros other Ho. unfold textContent. cbn. now rewrite lookup_insert_ne. }
  destruct (blocks s !! span) as [b|]; [|repeat split; assumption].
  rewrite Hshown. destruct (String.eqb t (text b)); repeat split; assumption.
Qed.

End Committing.

(** ** The overlay controller: which text a laid-out block gets *)

Section Rendering.
Import JsString EditorStorage DocumentCanvas.

Context (compose : Matrix -> Matrix -> Matrix) (pageNumber : nat)
        (scale : float) (viewportTransform : Matrix).

Lemma block_id_inj (i j : nat) :
  block_id pageNumber i = block_id pageNumber j -> i = j.
Proof.
  unfold block_id. intros H.
  apply (inj (String.app _)), (inj (String.app _)), (inj (String.app _)) in H.
  now apply (inj pretty) in H.
Qed.

Lemma textContent_lookup (s : Canvas) (span t : string) :
  spanText s !! span = Some t -> textContent s span = t.
Proof. unfold textContent. now intros ->. Qed.

(** The texts saved before the text layer is cleared: the text each span
    on screen shows, under the id of the span. *)
Lemma savedTexts_lookup (s : Canvas) (span : string) :
  Inv s ->
  (list_to_map
     ((fun sb : string * ResumeBlock => (id sb.2, textContent s sb.1))
        <$> map_to_list (blocks s)) : gmap string string) !! span
  = (fun _ => textContent s span) <$> blocks s !! span.
Proof.
  intros HI.
  assert (E : (fun sb : string * ResumeBlock => (id sb.2, textContent s sb.1))
                <$> map_to_list (blocks s)
              = (fun sb : string * ResumeBlock => (sb.1, textContent s sb.1))
                <$> map_to_list (blocks s)).
  { apply list_fmap_ext. intros i [k b] Hkb. cbn.
    apply list_elem_of_lookup_2, elem_of_map_to_list in Hkb.
    now rewrite (inv_id s HI k b Hkb). }
  rewrite E.
  assert (Hfst : ((fun sb : string * ResumeBlock => (sb.1, textContent s sb.1))
                    <$> map_to_list (blocks s)).*1 = (map_to_list (blocks s)).*1).
  { rewrite <- list_fmap_compose. apply list_fmap_ext. now intros i [k b] _. }
  destruct (blocks s !! span) as [b|] eqn:Hb; cbn.
  - apply elem_of_list_to_map_1.
    + rewrite Hfst. apply NoDup_fst_map_to_list.
    + apply list_elem_of_fmap. exists (span, b). split; [reflexivity|].
      now apply elem_of_map_to_list.
  - apply not_elem_of_list_to_map_1. rewrite Hfst.
    intros Hin. apply list_elem_of_fmap in Hin. destruct Hin as [[k b] [-> Hin]].
    apply elem_of_map_to_list in Hin. cbn in Hb. congruence.
Qed.

(** Where the text of an extracted block comes from. *)
Lemma render_items_text (savedTexts : gmap string string)
    (items : list ContentItem) (k : nat) (sectionGuess : string) (s : Canvas)
    (b : ResumeBlock) :
  In b (render_items compose pageNumber scale viewportTransform savedTexts
          items k sectionGuess s).1 ->
  exists j run,
    items !! j = Some (TextRun run) /\ trim (str run) <> "" /\
    spanIndex b = k + j /\ id b = block_id pageNumber (k + j) /\
    text b = match savedTexts !! id b with
             | Some saved => saved
             | None => getResolvedText (updatedBlocks s) (storage s) (id b) (str run)
             end /\
    isEdited b = negb (String.eqb (text b) (str run)).
Proof.
  revert k sectionGuess s.
  induction items as [|item items IH]; intros k sectionGuess s; [intros []|].
  assert (Hrest : forall sg s1,
            updatedBlocks s1 = updatedBlocks s -> storage s1 = storage s ->
            In b (render_items compose pageNumber scale viewportTransform savedTexts
                    items (S k) sg s1).1 ->
            exists j run,
              (item :: items) !! j = Some (TextRun run) /\ trim (str run) <> "" /\
              spanIndex b = k + j /\ id b = block_id pageNumber (k + j) /\
              text b = match savedTexts !! id b with
                       | Some saved => saved
                       | None => getResolvedText (updatedBlocks s) (storage s) (id b)
                                   (str run)
                       end /\
              isEdited b = negb (String.eqb (text b) (str run))).
  { intros sg s1 Hu Hs Hin. destruct (IH (S k) sg s1 Hin) as (j & run & Hj & Hrun).
    exists (S j), run. split; [exact Hj|]. rewrite Hu, Hs in Hrun.
    now replace (k + S j) with (S k + j) by lia. }
  destruct item as [run|]; cbn [render_items]; [|now apply Hrest].
  destruct (truthy (trim (str run))) eqn:Htrim; [|now apply Hrest].
  destruct (render_text_item _ _ _ _ _ _ _ _ _) as [block s1] eqn:E1.
  destruct (render_items _ _ _ _ _ items _ _ _) as [extracted s2] eqn:E2.
  cbn [fst]. intros [<-|Hin].
  - exists 0, run. rewrite Nat.add_0_r.
    unfold render_text_item in E1. injection E1 as <- _. cbn.
    repeat split. intros E. rewrite E in Htrim. discriminate.
  - apply (Hrest (guess_section (toLowerCase (str run)) sectionGuess) s1).
    + unfold render_text_item in E1. now injection E1 as _ <-.
    + unfold render_text_item in E1. now injection E1 as _ <-.
    + now rewrite E2.
Qed.

(** What the block maps and the spans hold after the items are laid out:
    every extracted block under its id, showing its text, and for the other
    ids what they held before. *)
Lemma render_items_final (savedTexts : gmap string string)
    (items : list ContentItem) (k : nat) (sectionGuess : string) (s : Canvas) :
  (forall span,
     (forall b, In b (render_items compose pageNumber scale viewportTransform
                        savedTexts items k sectionGuess s).1 -> id b <> span) ->
     blocks (render_items compose pageNumber scale viewportTransform
               savedTexts items k sectionGuess s).2 !! span = blocks s !! span /\
     spanText (render_items compose pageNumber scale viewportTransform
                 savedTexts items k sectionGuess s).2 !! span = spanText s !! span) /\
  (forall b, In b (render_items compose pageNumber scale viewportTransform
                     savedTexts items k sectionGuess s).1 ->
     blocks (render_items compose pageNumber scale viewportTransform
               savedTexts items k sectionGuess s).2 !! id b = Some b /\
     spanText (render_items compose pageNumber scale viewportTransform
                 savedTexts items k sectionGuess s).2 !! id b = Some (text b)).
Proof.
  revert k sectionGuess s.
  induction items as [|item items IH]; intros k sectionGuess s.
  { cbn. split; [intros; split; reflexivity | intros b []]. }
  destruct item as [run|]; cbn [render_items]; [|apply IH].
  destruct (truthy (trim (str run))) eqn:Htrim; [|apply IH].
  pose proof (render_items_text savedTexts items (S k)
                (guess_section (toLowerCase (str run)) sectionGuess)) as Htext.
  destruct (render_text_item _ _ _ _ _ _ _ _ _) as [block s1] eqn:E1.
  specialize (IH (S k) (guess_section (toLowerCase (str run)) sectionGuess) s1).
  specialize (Htext s1).
  destruct (render_items _ _ _ _ _ items _ _ _) as [extracted s2].
  cbn [fst snd] in *. destruct IH as [IH1 IH2].
  assert (Hblock : id block = block_id pageNumber k /\
                   blocks s1 = <[block_id pageNumber k := block]> (blocks s) /\
                   spanText s1 = <[block_id pageNumber k := text block]> (spanText s)).
  { unfold render_text_item in E1. injection E1 as <- <-. repeat split. }
  destruct Hblock as (Hid & Hb1 & Ht1).
  assert (Hlater : forall b, In b extracted -> id b <> id block).
  { intros b Hin. destruct (Htext b Hin) as (j & _ & _ & _ & _ & Hidb & _).
    rewrite Hidb, Hid. intros E. apply block_id_inj in E. lia. }
  split.
  - intros span Hnot.
    destruct (IH1 span) as [-> ->]; [intros b Hin; apply Hnot; now right|].
    assert (Hne : block_id pageNumber k <> span).
    { rewrite <- Hid. apply Hnot. now left. }
    rewrite Hb1, Ht1, !lookup_insert_ne by exact Hne. split; reflexivity.
  - intros b [<-|Hin]; [|now apply IH2].
    destruct (IH1 (id block)) as [-> ->]; [exact Hlater|].
    rewrite Hb1, Ht1, Hid, !lookup_insert_eq. split; reflexivity.
Qed.

(** The block laid out for a run that is not blank: it is handed to the
    host, filed under its id and shown; its text is the text its span showed
    before the render, if the span was on screen, and otherwise the text
    resolved from the backend-saved blocks, the store and the run. *)
Lemma renderPage_block (items : list ContentItem) (s : Canvas) (i : nat)
    (run : TextItem) :
  Inv s ->
  items !! i = Some (TextRun run) ->
  trim (str run) <> "" ->
  exists b,
    In b (renderPage compose pageNumber scale viewportTransform items s).1 /\
    blocks (renderPage compose pageNumber scale viewportTransform items s).2
      !! block_id pageNumber i = Some b /\
    textContent (renderPage compose pageNumber scale viewportTransform items s).2
      (block_id pageNumber i) = text b /\
    spanIndex b = i /\ id b = block_id pageNumber i /\
    text b = match blocks s !! block_id pageNumber i with
             | Some _ => textContent s (block_id pageNumber i)
             | None => getResolvedText (updatedBlocks s) (storage s)
                         (block_id pageNumber i) (str run)
             end /\
    isEdited b = negb (String.eqb (text b) (str run)).
Proof.
  intros HI Hi Hrun. unfold renderPage. cbv zeta.
  match goal with
  | |- context [render_items _ _ _ _ ?saved items 0 ?sg ?s0] =>
      destruct (render_items_extracted compose pageNumber scale viewportTransform
                  saved items 0 sg s0) as (_ & Hex & _);
      pose proof (render_items_text saved items 0 sg s0) as Htext;
      destruct (render_items_final saved items 0 sg s0) as [_ Hfinal]
  end.
  destruct (Hex i run Hi Hrun) as [b [Hin Hidx]]. cbn [Nat.add] in Hidx.
  destruct (Htext b Hin) as (j & run' & Hj & _ & Hidx' & Hid & Htxt & Hed).
  cbn [Nat.add] in Hidx', Hid. assert (j = i) as -> by congruence.
  assert (run' = run) as -> by congruence.
  destruct (Hfinal b Hin) as [Hb Hs]. rewrite Hid in Hb, Hs.
  exists b. split; [exact Hin|]. split; [exact Hb|].
  split; [now apply textContent_lookup|].
  split; [exact Hidx|]. split; [exact Hid|]. split; [|exact Hed].
  rewrite Htxt, Hid, (savedTexts_lookup s (block_id pageNumber i) HI).
  cbn [updatedBlocks storage set_focused set_spanText set_blocks].
  now destruct (blocks s !! block_id pageNumber i).
Qed.

(** X24.  Laying the page out again (after a change of scale, say) keeps
    what the spans show: for a block that is on screen and whose run is
    laid out again, the new block has the text its span showed before the
    render, typed or committed, and the new span shows it; the block is
    marked edited exactly when that text differs from the run's text.  The
    render itself touches neither the save queue and the pending flag nor
    the stored edits. *)
Theorem rerender_keeps_the_shown_texts (items : list ContentItem) (s : Canvas)
    (i : nat) (run : TextItem) :
  reachable s ->
  is_Some (blocks s !! block_id pageNumber i) ->
  items !! i = Some (TextRun run) ->
  trim (str run) <> "" ->
  (exists b,
     In b (renderPage compose pageNumber scale viewportTransform items s).1 /\
     blocks (renderPage compose pageNumber scale viewportTransform items s).2
       !! block_id pageNumber i = Some b /\
     spanIndex b = i /\
     text b = textContent s (block_id pageNumber i) /\
     isEdited b = negb (String.eqb (textContent s (block_id pageNumber i)) (str run))) /\
  textContent (renderPage compose pageNumber scale viewportTransform items s).2
    (block_id pageNumber i) = textContent s (block_id pageNumber i) /\
  pendingSaves (renderPage compose pageNumber scale viewportTransform items s).2
    = pendingSaves s /\
  hasPendingChanges (renderPage compose pageNumber scale viewportTransform items s).2
    = hasPendingChanges s /\
  storage (renderPage compose pageNumber scale viewportTransform items s).2 = storage s.
Proof.
  intros Hreach [b0 Hb0] Hi Hrun.
  destruct (renderPage_block items s i run (reachable_Inv s Hreach) Hi Hrun)
    as (b & Hin & Hb & Hshown & Hidx & Hid & Htxt & Hed).
  rewrite Hb0 in Htxt.
  split; [|split].
  - exists b. rewrite <- Htxt. repeat split; assumption.
  - now rewrite Hshown.
  - unfold renderPage. cbv zeta.
    match goal with
    | |- context [render_items ?c ?p ?sc ?vt ?sv ?it ?k ?sg ?s0] =>
        destruct (render_items_frame c p sc vt sv it k sg s0)
          as (Hp & Hf & _ & Hst & _)
    end.
    rewrite Hp, Hf, Hst. repeat split.
Qed.

(** X25.  A stored edit is shown again after a reload.  When a page is
    laid out and a run's block is not on screen yet (the component has just
    been mounted), the backend-saved blocks handed down have no entry for
    the block and the store holds a non-empty text for it, then the block
    gets the stored text, its span shows it and the block is marked edited
    exactly when the stored text differs from the run's text.  Neither the
    document name nor the dirty flag of the stored record is consulted. *)
Theorem stored_edit_is_shown_after_reload (items : list ContentItem) (s : Canvas)
    (i : nat) (run : TextItem) (st : StoredEdits) (t : string) :
  reachable s ->
  blocks s !! block_id pageNumber i = None ->
  updatedBlocks s ≫= (fun m => m !! block_id pageNumber i) = None ->
  getStoredEdits (storage s) = Some st ->
  edits st !! block_id pageNumber i = Some t ->
  t <> "" ->
  items !! i = Some (TextRun run) ->
  trim (str run) <> "" ->
  (exists b,
     In b (renderPage compose pageNumber scale viewportTransform items s).1 /\
     blocks (renderPage compose pageNumber scale viewportTransform items s).2
       !! block_id pageNumber i = Some b /\
     spanIndex b = i /\ text b = t /\
     isEdited b = negb (String.eqb t (str run))) /\
  textContent (renderPage compose pageNumber scale viewportTransform items s).2
    (block_id pageNumber i) = t.
Proof.
  intros Hreach Hnone Hupd Hst Ht Hne Hi Hrun.
  destruct (renderPage_block items s i run (reachable_Inv s Hreach) Hi Hrun)
    as (b & Hin & Hb & Hshown & Hidx & Hid & Htxt & Hed).
  rewrite Hnone in Htxt.
  rewrite (getResolvedText_local _ _ st _ t _ Hupd Hst Ht Hne) in Htxt.
  split; [|now rewrite Hshown].
  exists b. rewrite <- Htxt. repeat split; assumption.
Qed.

End Rendering.

Section RenderingExamples.
Import JsString EditorStorage DocumentCanvas.

Lemma rerender_keeps_the_shown_texts_witness :
  (exists b,
     In b (renderPage Util_transform 1 2 a4_viewport
             [TextRun run_blank; MarkedContent; TextRun run_engineer] typing).1 /\
     blocks (renderPage Util_transform 1 2 a4_viewport
               [TextRun run_blank; MarkedContent; TextRun run_engineer] typing).2
       !! block_id 1 2 = Some b /\
     spanIndex b = 2 /\
     text b = textContent typing (block_id 1 2) /\
     isEdited b = negb (String.eqb (textContent typing (block_id 1 2))
                          (str run_engineer))) /\
  textContent (renderPage Util_transform 1 2 a4_viewport
                 [TextRun run_blank; MarkedContent; TextRun run_engineer] typing).2
    (block_id 1 2) = textContent typing (block_id 1 2) /\
  pendingSaves (renderPage Util_transform 1 2 a4_viewport
                  [TextRun run_blank; MarkedContent; TextRun run_engineer] typing).2
    = pendingSaves typing /\
  hasPendingChanges (renderPage Util_transform 1 2 a4_viewport
                       [TextRun run_blank; MarkedContent; TextRun run_engineer] typing).2
    = hasPendingChanges typing /\
  storage (renderPage Util_transform 1 2 a4_viewport
             [TextRun run_blank; MarkedContent; TextRun run_engineer] typing).2
    = storage typing.
Proof.
  apply (rerender_keeps_the_shown_texts Util_transform 1 2 a4_viewport
           [TextRun run_blank; MarkedContent; TextRun run_engineer] typing 2
           run_engineer).
  - apply reach_type; [|reflexivity].
    apply reach_focus; [|vm_compute; eauto].
    apply reach_render. apply reach_init.
  - vm_compute. eauto.
  - reflexivity.
  - vm_compute. discriminate.
Defined.

Lemma stored_edit_is_shown_after_reload_witness :
  (exists b,
     In b (renderPage Util_transform 1 1 a4_viewport
             [TextRun run_blank; MarkedContent; TextRun run_engineer]
             (set_storage (storage committed) init)).1 /\
     blocks (renderPage Util_transform 1 1 a4_viewport
               [TextRun run_blank; MarkedContent; TextRun run_engineer]
               (set_storage (storage committed) init)).2
       !! block_id 1 2 = Some b /\
     spanIndex b = 2 /\ text b = "Enginer" /\
     isEdited b = negb (String.eqb "Enginer" (str run_engineer))) /\
  textContent (renderPage Util_transform 1 1 a4_viewport
                 [TextRun run_blank; MarkedContent; TextRun run_engineer]
                 (set_storage (storage committed) init)).2
    (block_id 1 2) = "Enginer".
Proof.
  apply (stored_edit_is_shown_after_reload Util_transform 1 1 a4_viewport
           [TextRun run_blank; MarkedContent; TextRun run_engineer]
           (set_storage (storage committed) init) 2 run_engineer
           {| edits := {[ "block-1-2" := "Enginer" ]}; timestamp := 0;
              pdfName := "current_resume"; isDirty := true |} "Enginer").
  - apply reach_storage. apply reach_init.
  - reflexivity.
  - reflexivity.
  - reflexivity.
  - reflexivity.
  - discriminate.
  - reflexivity.
  - vm_compute. discriminate.
Defined.

End RenderingExamples.

(** ** Export: what is drawn, and when the export fails *)

Section Overlay.
Import JsString FontMapper EditorTypes PdfExport.

Context (widthOfTextAtSize : StandardFont -> string -> float -> option float)
        (blockStates : gmap string EditableBlockState).

Lemma page_at_Some (pgs : list PDFPage) (n : Z) (pg : PDFPage) :
  page_at pgs n = Some pg <-> (0 <= n)%Z /\ pgs !! Z.to_nat n = Some pg.
Proof.
  unfold page_at. destruct (Z.ltb_spec n 0); split.
  - discriminate.
  - intros [Hn _]. lia.
  - intros H'. split; [lia | exact H'].
  - now intros [_ H'].
Qed.

Lemma draw_lookup_eq (n : Z) (it : PageItem) (doc : PDFDocument) :
  doc_pages (draw n it doc) !! Z.to_nat n =
    (fun p => {| pageHeight := pageHeight p; items := items p ++ [it] |})
      <$> doc_pages doc !! Z.to_nat n.
Proof. unfold draw. cbn. rewrite list_lookup_alter. now rewrite decide_True. Qed.

Lemma draw_lookup_ne (n : Z) (it : PageItem) (doc : PDFDocument) (i : nat) :
  i <> Z.to_nat n -> doc_pages (draw n it doc) !! i = doc_pages doc !! i.
Proof.
  intros Hne. unfold draw. cbn. rewrite list_lookup_alter.
  now rewrite decide_False by congruence.
Qed.

Lemma draw_length (n : Z) (it : PageItem) (doc : PDFDocument) :
  length (doc_pages (draw n it doc)) = length (doc_pages doc).
Proof. unfold draw. cbn. apply length_alter. Qed.

Lemma draw_fonts (n : Z) (it : PageItem) (doc : PDFDocument) :
  doc_fonts (draw n it doc) = doc_fonts doc.
Proof. reflexivity. Qed.

(** One turn of the loop: either the block is skipped and nothing changes,
    or it is painted (its state is dirty, its page exists and its text has a
    width) and its cover and its text are drawn, in that order. *)
Lemma export_block_cases (block : TextBlock) (doc doc' : PDFDocument)
    (fontCache fontCache' : gmap string ParsedFontInfo) :
  coherent fontCache ->
  export_block widthOfTextAtSize blockStates block (doc, fontCache)
    = Some (doc', fontCache') ->
  coherent fontCache' /\
  ((doc' = doc /\
    forall st pg, ~ painted blockStates (doc_pages doc) block st pg) \/
   exists st pg tw,
     painted blockStates (doc_pages doc) block st pg /\
     widthOfTextAtSize (pdfLibFont (parsePdfFont (font_name block)))
       (currentText st) (font_size block) = Some tw /\
     doc' = draw (page block) (text_of block (pageHeight pg) (currentText st))
              (draw (page block) (cover_of block (pageHeight pg) tw) doc)).
Proof.
  intros Hc. unfold export_block, painted.
  destruct (blockStates !! id block) as [st|] eqn:Hst.
  2:{ intros [= <- <-]. split; [exact Hc|]. left. split; [reflexivity|].
      intros st pg [H _]. discriminate. }
  destruct (isDirty st) eqn:Hd; cbn [negb].
  2:{ intros [= <- <-]. split; [exact Hc|]. left. split; [reflexivity|].
      intros st' pg (H & Hd' & _). congruence. }
  destruct (page_at (doc_pages doc) (page block)) as [pg|] eqn:Hpg.
  2:{ intros [= <- <-]. split; [exact Hc|]. left. split; [reflexivity|].
      intros st' pg (_ & _ & H). discriminate. }
  destruct (getFontInfo_cached fontCache (font_name block) Hc) as [Hinfo Hc'].
  destruct (getFontInfo fontCache (font_name block)) as [fontInfo fc'].
  cbn [fst snd] in Hinfo, Hc'. subst fontInfo.
  assert (Hfont : getEmbeddedFont (parsePdfFont (font_name block))
                  = pdfLibFont (parsePdfFont (font_name block))).
  { unfold getEmbeddedFont, parsePdfFont, getPdfLibFont. cbn.
    destruct (detectFontCategory (font_name block)); reflexivity. }
  rewrite Hfont.
  destruct (widthOfTextAtSize _ _ _) as [tw|] eqn:Hw; [|discriminate].
  intros [= <- <-]. split; [exact Hc'|]. right. exists st, pg, tw.
  repeat split; assumption.
Qed.

(** When a turn of the loop fails. *)
Lemma export_block_None (block : TextBlock) (doc : PDFDocument)
    (fontCache : gmap string ParsedFontInfo) :
  coherent fontCache ->
  export_block widthOfTextAtSize blockStates block (doc, fontCache) = None <->
  exists st pg,
    painted blockStates (doc_pages doc) block st pg /\
    widthOfTextAtSize (pdfLibFont (parsePdfFont (font_name block)))
      (currentText st) (font_size block) = None.
Proof.
  intros Hc. unfold export_block, painted.
  assert (Hfont : getEmbeddedFont (parsePdfFont (font_name block))
                  = pdfLibFont (parsePdfFont (font_name block))).
  { unfold getEmbeddedFont, parsePdfFont, getPdfLibFont. cbn.
    destruct (detectFontCategory (font_name block)); reflexivity. }
  destruct (blockStates !! id block) as [st|] eqn:Hst.
  2:{ split; [discriminate|]. intros (st & pg & (H & _) & _). discriminate. }
  destruct (isDirty st) eqn:Hd; cbn [negb].
  2:{ split; [discriminate|]. intros (st' & pg & (H & Hd' & _) & _). congruence. }
  destruct (page_at (doc_pages doc) (page block)) as [pg|] eqn:Hpg.
  2:{ split; [discriminate|]. intros (st' & pg & (_ & _ & H) & _). discriminate. }
  destruct (getFontInfo_cached fontCache (font_name block) Hc) as [Hinfo _].
  destruct (getFontInfo fontCache (font_name block)) as [fontInfo fc'].
  cbn [fst] in Hinfo. subst fontInfo. rewrite Hfont.
  destruct (widthOfTextAtSize _ _ _) as [tw|] eqn:Hw.
  - split; [discriminate|]. intros (st' & pg' & (H & _) & Hw').
    injection H as <-. congruence.
  - split; [|reflexivity]. intros _. exists st, pg. repeat split; assumption.
Qed.

Lemma export_block_length (block : TextBlock)
    (acc acc' : PDFDocument * gmap string ParsedFontInfo) :
  export_block widthOfTextAtSize blockStates block acc = Some acc' ->
  length (doc_pages acc'.1) = length (doc_pages acc.1) /\
  doc_fonts acc'.1 = doc_fonts acc.1.
Proof.
  destruct acc as [doc fc]. unfold export_block.
  destruct (blockStates !! id block) as [st|]; [|now intros [= <-]].
  destruct (negb (isDirty st)); [now intros [= <-]|].
  destruct (page_at (doc_pages doc) (page block)) as [pg|]; [|now intros [= <-]].
  destruct (getFontInfo fc (font_name block)) as [fontInfo fc'].
  destruct (widthOfTextAtSize _ _ _) as [tw|]; [|discriminate].
  intros [= <-]. cbn [fst]. now rewrite !draw_length.
Qed.

Lemma page_at_length (l1 l2 : list PDFPage) (n : Z) :
  length l1 = length l2 -> is_Some (page_at l1 n) <-> is_Some (page_at l2 n).
Proof.
  intros Hlen. unfold page_at. destruct (Z.ltb n 0); [reflexivity|].
  rewrite !lookup_lt_is_Some. now rewrite Hlen.
Qed.

End Overlay.

Section OverlayOutcome.
Import JsString FontMapper EditorTypes PdfExport.

Context (widthOfTextAtSize : StandardFont -> string -> float -> option float)
        (blockStates : gmap string EditableBlockState).

Lemma export_blocks_None (bs : list TextBlock) (doc : PDFDocument)
    (fontCache : gmap string ParsedFontInfo) :
  coherent fontCache ->
  export_blocks widthOfTextAtSize blockStates bs (doc, fontCache) = None <->
  exists b st,
    In b bs /\ blockStates !! id b = Some st /\ isDirty st = true /\
    is_Some (page_at (doc_pages doc) (page b)) /\
    widthOfTextAtSize (pdfLibFont (parsePdfFont (font_name b)))
      (currentText st) (font_size b) = None.
Proof.
  revert doc fontCache. induction bs as [|b rest IH]; intros doc fontCache Hc.
  { cbn. split; [discriminate | intros (b & st & [] & _)]. }
  cbn [export_blocks].
  pose proof (export_block_None widthOfTextAtSize blockStates b doc fontCache Hc) as HN.
  destruct (export_block widthOfTextAtSize blockStates b (doc, fontCache))
    as [[doc1 fc1]|] eqn:E.
  - destruct (export_block_cases widthOfTextAtSize blockStates b doc doc1
                fontCache fc1 Hc E) as [Hc1 _].
    destruct (export_block_length widthOfTextAtSize blockStates b _ _ E) as [Hlen _].
    cbn [fst] in Hlen. rewrite (IH doc1 fc1 Hc1). split.
    + intros (b0 & st & Hin & Hst & Hd & Hpg & Hw). exists b0, st.
      split; [now right|]. repeat split; try assumption.
      now apply (page_at_length _ _ _ Hlen).
    + intros (b0 & st & [<-|Hin] & Hst & Hd & [pg Hpg] & Hw).
      * assert (Hno : Some (doc1, fc1) = None)
          by (apply HN; exists st, pg; repeat split; assumption).
        discriminate Hno.
      * exists b0, st. repeat split; try assumption.
        apply (page_at_length _ _ _ Hlen). now exists pg.
  - split; [|reflexivity]. intros _.
    destruct (proj1 HN eq_refl) as (st & pg & (Hst & Hd & Hpg) & Hw).
    exists b, st. split; [now left|]. repeat split; try assumption. now exists pg.
Qed.

(** X26.  The export fails (pdf-lib throws) exactly when some block that
    is to be painted, that is a block whose state is dirty and whose page
    exists, has a current text for which the font chosen for the block
    gives no width; blocks that are clean, without state or on a missing
    page never make it fail. *)
Theorem export_fails_exactly_on_text_without_width
    (fontCache : gmap string ParsedFontInfo) (pdfDoc : PDFDocument)
    (bs : list TextBlock) :
  coherent fontCache ->
  exportToPDF widthOfTextAtSize fontCache pdfDoc bs blockStates = None <->
  exists b st,
    In b bs /\ blockStates !! id b = Some st /\ isDirty st = true /\
    is_Some (page_at (doc_pages pdfDoc) (page b)) /\
    widthOfTextAtSize (pdfLibFont (parsePdfFont (font_name b)))
      (currentText st) (font_size b) = None.
Proof.
  intros Hc. unfold exportToPDF. now rewrite export_blocks_None.
Qed.

Lemma extends_lookup (l1 l2 : list PDFPage) (n : nat) (pg : PDFPage) :
  Forall2 extends_page l1 l2 -> l1 !! n = Some pg ->
  exists added,
    l2 !! n = Some {| pageHeight := pageHeight pg; items := items pg ++ added |}.
Proof.
  intros HF Hn. destruct (Forall2_lookup_l _ _ _ _ _ HF Hn) as [pg' [Hn' [Hh [added Ha]]]].
  exists added. rewrite Hn'. f_equal. destruct pg'. cbn in *. now subst.
Qed.

Lemma nothing_added (pg : PDFPage) (added : list PageItem) :
  Some pg = Some {| pageHeight := pageHeight pg; items := items pg ++ added |} ->
  added = [].
Proof.
  intros [= H]. apply (f_equal items) in H. cbn in H.
  apply (app_inv_head (items pg)). now rewrite app_nil_r.
Qed.

Lemma painted_transfer (l1 l2 : list PDFPage) (b : TextBlock)
    (st : EditableBlockState) (pg : PDFPage) :
  Forall2 extends_page l1 l2 -> painted blockStates l1 b st pg ->
  exists added,
    painted blockStates l2 b st
      {| pageHeight := pageHeight pg; items := items pg ++ added |}.
Proof.
  intros HF (Hst & Hd & Hpg). apply page_at_Some in Hpg. destruct Hpg as [Hn Hpg].
  destruct (extends_lookup l1 l2 _ pg HF Hpg) as [added Ha].
  exists added. repeat split; try assumption. apply page_at_Some. now split.
Qed.

(** What a run of the loop has drawn, page by page. *)
Lemma export_blocks_drawn (bs : list TextBlock) (doc doc' : PDFDocument)
    (fontCache fontCache' : gmap string ParsedFontInfo) :
  coherent fontCache ->
  export_blocks widthOfTextAtSize blockStates bs (doc, fontCache)
    = Some (doc', fontCache') ->
  (forall b st pg, In b bs -> painted blockStates (doc_pages doc) b st pg ->
     exists tw pg' before after,
       widthOfTextAtSize (pdfLibFont (parsePdfFont (font_name b)))
         (currentText st) (font_size b) = Some tw /\
       page_at (doc_pages doc') (page b) = Some pg' /\
       items pg' = before ++ [ cover_of b (pageHeight pg) tw;
                               text_of b (pageHeight pg) (currentText st) ] ++ after) /\
  (forall n pg pg', doc_pages doc !! n = Some pg -> doc_pages doc' !! n = Some pg' ->
     exists added,
       items pg' = items pg ++ added /\
       forall it, In it added ->
         exists b st tw,
           In b bs /\ painted blockStates (doc_pages doc) b st pg /\
           page b = Z.of_nat n /\
           widthOfTextAtSize (pdfLibFont (parsePdfFont (font_name b)))
             (currentText st) (font_size b) = Some tw /\
           (it = cover_of b (pageHeight pg) tw \/
            it = text_of b (pageHeight pg) (currentText st))).
Proof.
  revert doc fontCache. induction bs as [|b rest IH]; intros doc fontCache Hc Hex.
  { injection Hex as <- <-. split; [intros b st pg []|].
    intros n pg pg' Hn Hn'. exists []. rewrite app_nil_r.
    split; [congruence | intros it []]. }
  cbn [export_blocks] in Hex.
  destruct (export_block widthOfTextAtSize blockStates b (doc, fontCache))
    as [[doc1 fc1]|] eqn:E; [|discriminate].
  pose proof (export_blocks_only_adds widthOfTextAtSize blockStates [b]
                (doc, fontCache) (doc1, fc1)) as Hstep.
  cbn [export_blocks fst] in Hstep. rewrite E in Hstep. specialize (Hstep eq_refl).
  pose proof (export_blocks_only_adds widthOfTextAtSize blockStates rest
                (doc1, fc1) (doc', fontCache') Hex) as Hrest.
  cbn [fst] in Hrest.
  destruct (export_block_cases widthOfTextAtSize blockStates b doc doc1
              fontCache fc1 Hc E) as [Hc1 Hcases].
  destruct (IH doc1 fc1 Hc1 Hex) as [IHa IHb]. split.
  - intros b0 st pg [<-|Hin] Hp.
    + destruct Hcases as [[_ Hnot]|(st' & pg0 & tw & Hp' & Hw & ->)];
        [now destruct (Hnot st pg)|].
      destruct Hp as (Hst & Hd & Hpg), Hp' as (Hst' & _ & Hpg').
      assert (st' = st) as -> by congruence. assert (pg0 = pg) as -> by congruence.
      apply page_at_Some in Hpg. destruct Hpg as [Hn Hpg].
      assert (H1 : doc_pages
                (draw (page b) (text_of b (pageHeight pg) (currentText st))
                   (draw (page b) (cover_of b (pageHeight pg) tw) doc))
                !! Z.to_nat (page b)
              = Some {| pageHeight := pageHeight pg;
                        items := (items pg ++ [cover_of b (pageHeight pg) tw]) ++
                                 [text_of b (pageHeight pg) (currentText st)] |}).
      { now rewrite !draw_lookup_eq, Hpg. }
      destruct (extends_lookup _ _ _ _ Hrest H1) as [added Ha].
      exists tw, {| pageHeight := pageHeight pg;
                    items := ((items pg ++ [cover_of b (pageHeight pg) tw]) ++
                              [text_of b (pageHeight pg) (currentText st)]) ++ added |},
             (items pg), added.
      split; [exact Hw|]. split; [apply page_at_Some; now split|].
      cbn. now rewrite <- !app_assoc.
    + destruct (painted_transfer _ _ b0 st pg Hstep Hp) as [added Hp1].
      destruct (IHa b0 st _ Hin Hp1) as (tw & pg' & before & after & Hw & Hpg' & Hitems).
      exists tw, pg', before, after. repeat split; assumption.
  - intros n pg pg' Hn Hn'.
    destruct (extends_lookup _ _ _ _ Hstep Hn) as [added1 Hn1].
    destruct (IHb n _ pg' Hn1 Hn') as [added2 [Hitems Hadded2]]. cbn in Hitems.
    exists (added1 ++ added2). split; [now rewrite app_assoc|].
    intros it Hit. apply in_app_iff in Hit. destruct Hit as [Hit|Hit].
    + destruct Hcases as [[-> _]|(st & pg0 & tw & Hp & Hw & ->)].
      * rewrite Hn in Hn1. apply nothing_added in Hn1. subst added1. destruct Hit.
      * destruct Hp as (Hst & Hd & Hpg). pose proof Hpg as Hpg0.
        apply page_at_Some in Hpg. destruct Hpg as [Hz Hpg].
        destruct (decide (n = Z.to_nat (page b))) as [->|Hne].
        -- assert (pg0 = pg) as -> by congruence.
           rewrite !draw_lookup_eq, Hpg in Hn1. cbn in Hn1. injection Hn1 as Hn1.
           rewrite <- app_assoc in Hn1. apply app_inv_head in Hn1. subst added1.
           cbn in Hit.
           exists b, st, tw. split; [now left|]. split; [repeat split; assumption|].
           split; [lia|]. split; [exact Hw|].
           destruct Hit as [<-|[<-|[]]]; auto.
        -- rewrite !draw_lookup_ne, Hn in Hn1 by exact Hne.
           apply nothing_added in Hn1. subst added1. destruct Hit.
    + destruct (Hadded2 it Hit) as (b0 & st & tw & Hin & Hp & Hpage & Hw & Hor).
      exists b0, st, tw. split; [now right|]. split; [|auto].
      destruct Hp as (Hst & Hd & Hpg). repeat split; try assumption.
      apply page_at_Some in Hpg. destruct Hpg as [Hz Hpg].
      apply page_at_Some. split; [exact Hz|].
      rewrite Hpage, Nat2Z.id in *. exact Hn.
Qed.

(** X27.  What a successful export has drawn.  For every block that is to
    be painted (its state is dirty, its page exists) the block's page holds
    its cover rectangle immediately followed by its current text, drawn at
    the block's x, at [pageHeight - y - height] from the bottom, at the
    block's font size and in the standard font of the block's font
    identifier.  And nothing else has been drawn: each page holds what it
    held, followed only by covers and texts of painted blocks of that
    page. *)
Theorem export_draws_the_dirty_blocks
    (fontCache : gmap string ParsedFontInfo) (pdfDoc : PDFDocument)
    (bs : list TextBlock) (result : PDFDocument * gmap string ParsedFontInfo) :
  coherent fontCache ->
  exportToPDF widthOfTextAtSize fontCache pdfDoc bs blockStates = Some result ->
  (forall b st pg, In b bs -> painted blockStates (doc_pages pdfDoc) b st pg ->
     exists tw pg' before after,
       widthOfTextAtSize (pdfLibFont (parsePdfFont (font_name b)))
         (currentText st) (font_size b) = Some tw /\
       page_at (doc_pages result.1) (page b) = Some pg' /\
       items pg' = before ++ [ cover_of b (pageHeight pg) tw;
                               text_of b (pageHeight pg) (currentText st) ] ++ after) /\
  (forall n pg pg',
     doc_pages pdfDoc !! n = Some pg -> doc_pages result.1 !! n = Some pg' ->
     exists added,
       items pg' = items pg ++ added /\
       forall it, In it added ->
         exists b st tw,
           In b bs /\ painted blockStates (doc_pages pdfDoc) b st pg /\
           page b = Z.of_nat n /\
           widthOfTextAtSize (pdfLibFont (parsePdfFont (font_name b)))
             (currentText st) (font_size b) = Some tw /\
           (it = cover_of b (pageHeight pg) tw \/
            it = text_of b (pageHeight pg) (currentText st))).
Proof.
  intros Hc Hex. unfold exportToPDF in Hex. destruct result as [doc' fc'].
  apply (export_blocks_drawn bs (embedAllFonts pdfDoc) doc' fontCache fc' Hc Hex).
Qed.

End OverlayOutcome.

Section OverlayFrame.
Import JsString FontMapper EditorTypes PdfExport.

Context (blockStates : gmap string EditableBlockState).

Lemma export_blocks_fonts
    (widthOfTextAtSize : StandardFont -> string -> float -> option float)
    (bs : list TextBlock) (acc res : PDFDocument * gmap string ParsedFontInfo) :
  export_blocks widthOfTextAtSize blockStates bs acc = Some res ->
  doc_fonts res.1 = doc_fonts acc.1.
Proof.
  revert acc. induction bs as [|b rest IH]; intros acc H; [now injection H as <-|].
  cbn [export_blocks] in H.
  destruct (export_block widthOfTextAtSize blockStates b acc) as [acc1|] eqn:E;
    [|discriminate].
  rewrite (IH acc1 H).
  now destruct (export_block_length widthOfTextAtSize blockStates b acc acc1 E).
Qed.

Lemma draw_lines_frame (canEncode : StandardFont -> string -> bool)
    (n : Z) (x y fontSize : float) (font : StandardFont)
    (lines : list string) (doc doc' : PDFDocument) :
  draw_lines canEncode n x y fontSize font lines doc = Some doc' ->
  Forall2 extends_page (doc_pages doc) (doc_pages doc') /\
  doc_fonts doc' = doc_fonts doc.
Proof.
  revert y doc. induction lines as [|line rest IH]; intros y doc; cbn [draw_lines].
  - intros [= <-]. split; [apply Forall2_extends_refl | reflexivity].
  - destruct (canEncode font line); [|discriminate]. intros H.
    destruct (IH _ _ H) as [HF ->]. split; [|reflexivity].
    eapply Forall2_extends_trans; [apply draw_extends | exact HF].
Qed.

Lemma export_block_v1_frame (canEncode : StandardFont -> string -> bool)
    (doc doc' : PDFDocument) (block : TextBlock) :
  export_block_v1 canEncode blockStates doc block = Some doc' ->
  Forall2 extends_page (doc_pages doc) (doc_pages doc') /\
  doc_fonts doc' = doc_fonts doc.
Proof.
  unfold export_block_v1.
  destruct (blockStates !! id block) as [st|];
    [|intros [= <-]; split; [apply Forall2_extends_refl | reflexivity]].
  destruct (negb (isDirty st));
    [intros [= <-]; split; [apply Forall2_extends_refl | reflexivity]|].
  destruct (page_at (doc_pages doc) (page block)) as [pg|];
    [|intros [= <-]; split; [apply Forall2_extends_refl | reflexivity]].
  intros H. destruct (draw_lines_frame _ _ _ _ _ _ _ _ _ H) as [HF ->].
  split; [|reflexivity].
  eapply Forall2_extends_trans; [apply draw_extends | exact HF].
Qed.

Lemma export_blocks_v1_frame (canEncode : StandardFont -> string -> bool)
    (bs : list TextBlock) (doc doc' : PDFDocument) :
  export_blocks_v1 canEncode blockStates bs doc = Some doc' ->
  Forall2 extends_page (doc_pages doc) (doc_pages doc') /\
  doc_fonts doc' = doc_fonts doc.
Proof.
  revert doc. induction bs as [|b rest IH]; intros doc; cbn [export_blocks_v1].
  - intros [= <-]. split; [apply Forall2_extends_refl | reflexivity].
  - destruct (export_block_v1 canEncode blockStates doc b) as [doc1|] eqn:E;
      [|discriminate].
    intros H. destruct (IH _ H) as [HF ->].
    destruct (export_block_v1_frame _ _ _ _ E) as [HF1 ->].
    split; [|reflexivity]. eapply Forall2_extends_trans; eassumption.
Qed.

(** X28.  The export only draws on top of the loaded document.  Where
    an export produces a document (pdf-lib does not throw), that document
    has the pages of the loaded one, in their number, order and heights,
    with everything each page held, in place (what is drawn comes after
    it); the current version has embedded the twelve standard fonts of the
    mapper, the first version Helvetica and Helvetica-Bold, after the fonts
    the document had, and nothing else. *)
Theorem export_only_draws_on_top
    (widthOfTextAtSize : StandardFont -> string -> float -> option float)
    (canEncode : StandardFont -> string -> bool)
    (fontCache : gmap string ParsedFontInfo) (pdfDoc : PDFDocument)
    (bs : list TextBlock) :
  (forall result,
     exportToPDF widthOfTextAtSize fontCache pdfDoc bs blockStates = Some result ->
     length (doc_pages result.1) = length (doc_pages pdfDoc) /\
     Forall2 extends_page (doc_pages pdfDoc) (doc_pages result.1) /\
     doc_fonts result.1 =
       doc_fonts pdfDoc ++
       [ TimesRoman; TimesRomanBold; TimesRomanItalic; TimesRomanBoldItalic;
         Helvetica; HelveticaBold; HelveticaOblique; HelveticaBoldOblique;
         Courier; CourierBold; CourierOblique; CourierBoldOblique ]) /\
  (forall result,
     exportToPDF_v1 canEncode pdfDoc bs blockStates = Some result ->
     length (doc_pages result) = length (doc_pages pdfDoc) /\
     Forall2 extends_page (doc_pages pdfDoc) (doc_pages result) /\
     doc_fonts result = doc_fonts pdfDoc ++ [Helvetica; HelveticaBold]).
Proof.
  split.
  - intros result Hex.
    pose proof (exportToPDF_only_adds widthOfTextAtSize fontCache pdfDoc bs
                  blockStates result Hex) as HF.
    split; [symmetry; now apply (Forall2_length _ _ _ HF)|]. split; [exact HF|].
    unfold exportToPDF in Hex. rewrite (export_blocks_fonts _ _ _ _ Hex).
    unfold embedAllFonts, embedFont. cbn. now rewrite <- !app_assoc.
  - intros result Hex. unfold exportToPDF_v1 in Hex.
    destruct (export_blocks_v1_frame _ _ _ _ Hex) as [HF ->].
    cbn [doc_pages embedFont] in HF.
    split; [symmetry; now apply (Forall2_length _ _ _ HF)|]. split; [exact HF|].
    cbn. now rewrite <- app_assoc.
Qed.

End OverlayFrame.

(** ** Export, first version: the edited text is drawn line by line *)

Section FirstVersionLines.
Import JsString FontMapper EditorTypes PdfExport.

Lemma string_of_list_ascii_snoc (l : list ascii) (c : ascii) (s : string) :
  string_of_list_ascii (l ++ [c]) +:+ s = string_of_list_ascii l +:+ String c s.
Proof.
  induction l as [|a l IH]; [reflexivity|].
  change (String a (string_of_list_ascii (l ++ [c]) +:+ s)
          = String a (string_of_list_ascii l +:+ String c s)).
  now rewrite IH.
Qed.

Lemma has_line_feed_snoc (l : list ascii) (c : ascii) :
  has_line_feed (string_of_list_ascii (l ++ [c]))
  = has_line_feed (string_of_list_ascii l) || Nat.eqb (code c) 10.
Proof.
  induction l as [|a l IH]; cbn; [now rewrite orb_false_r|].
  now rewrite IH, orb_assoc.
Qed.

Lemma split_lines_from_nonempty (cur : list ascii) (s : string) :
  split_lines_from cur s <> [].
Proof.
  revert cur. induction s as [|c s IH]; intros cur; cbn [split_lines_from];
    [discriminate|].
  destruct (Nat.eqb (code c) 10); [discriminate | apply IH].
Qed.

Lemma join_cons_cons (sep x y : string) (l : list string) :
  EditorApi.join sep (x :: y :: l) = x +:+ sep +:+ EditorApi.join sep (y :: l).
Proof. reflexivity. Qed.

Lemma join_split_lines_from (cur : list ascii) (s : string) :
  EditorApi.join line_feed (split_lines_from cur s)
  = string_of_list_ascii (rev cur) +:+ s.
Proof.
  revert cur. induction s as [|c s IH]; intros cur; cbn [split_lines_from].
  - cbn. now rewrite append_empty_r.
  - destruct (Nat.eqb (code c) 10) eqn:Hc.
    + pose proof (split_lines_from_nonempty [] s) as Hne.
      specialize (IH []). destruct (split_lines_from [] s) as [|l ls]; [congruence|].
      rewrite join_cons_cons, IH. apply code_eq in Hc. now subst c.
    + rewrite IH. cbn [rev]. apply string_of_list_ascii_snoc.
Qed.

Lemma split_lines_from_no_line_feed (cur : list ascii) (s : string) :
  has_line_feed (string_of_list_ascii (rev cur)) = false ->
  Forall (fun l => has_line_feed l = false) (split_lines_from cur s).
Proof.
  revert cur. induction s as [|c s IH]; intros cur Hcur; cbn [split_lines_from].
  - now constructor.
  - destruct (Nat.eqb (code c) 10) eqn:Hc.
    + constructor; [exact Hcur | now apply IH].
    + apply IH. cbn [rev]. now rewrite has_line_feed_snoc, Hcur, Hc.
Qed.

Lemma drawn_texts_app (pg : PDFPage) (added : list PageItem) :
  drawn_texts {| pageHeight := pageHeight pg; items := items pg ++ added |}
  = drawn_texts pg ++
    omap (fun it => match it with Text t _ _ _ _ _ => Some t | _ => None end) added.
Proof. unfold drawn_texts. cbn. apply omap_app. Qed.

Lemma draw_lines_texts (canEncode : StandardFont -> string -> bool)
    (n : Z) (x y fontSize : float) (font : StandardFont)
    (lines : list string) (doc doc' : PDFDocument) (pg : PDFPage) :
  doc_pages doc !! Z.to_nat n = Some pg ->
  draw_lines canEncode n x y fontSize font lines doc = Some doc' ->
  exists pg',
    doc_pages doc' !! Z.to_nat n = Some pg' /\
    pageHeight pg' = pageHeight pg /\
    drawn_texts pg' = drawn_texts pg ++ lines.
Proof.
  revert y doc pg. induction lines as [|line rest IH]; intros y doc pg Hpg;
    cbn [draw_lines].
  - intros [= <-]. exists pg. rewrite app_nil_r. repeat split. exact Hpg.
  - destruct (canEncode font line); [|discriminate]. intros H.
    destruct (IH (y - fontSize * 1.2)%float
                (draw n (Text line x y fontSize font black) doc)
                {| pageHeight := pageHeight pg;
                   items := items pg ++ [Text line x y fontSize font black] |})
      as (pg' & Hpg' & Hh & Ht); [now rewrite draw_lookup_eq, Hpg | exact H |].
    exists pg'. split; [exact Hpg'|]. split; [exact Hh|].
    rewrite Ht, drawn_texts_app. cbn. now rewrite <- app_assoc.
Qed.

(** The loop over the lines stops exactly at a line the font cannot
    encode. *)
Lemma draw_lines_None (canEncode : StandardFont -> string -> bool)
    (n : Z) (x y fontSize : float) (font : StandardFont)
    (lines : list string) (doc : PDFDocument) :
  draw_lines canEncode n x y fontSize font lines doc = None <->
  exists line, In line lines /\ canEncode font line = false.
Proof.
  revert y doc. induction lines as [|line rest IH]; intros y doc; cbn [draw_lines].
  - split; [discriminate | intros (l & [] & _)].
  - destruct (canEncode font line) eqn:E.
    + rewrite IH. split; intros (l & Hin & Hl).
      * exists l. split; [now right | exact Hl].
      * destruct Hin as [<-|Hin]; [congruence|]. now exists l.
    + split; [|reflexivity]. intros _. exists line. split; [now left | exact E].
Qed.

(** X29.  The first version of the export draws the edited text line by
    line.  For a block that is to be painted (its state is dirty, its page
    exists) the turn of the loop fails exactly when the block's font
    (Helvetica-Bold if the font name contains "bold", else Helvetica) cannot
    encode one of the lines of the block's current text.  When it does not
    fail, the texts drawn on the block's page are those drawn before
    followed by the lines of the current text, in order.  No line holds a
    line feed, and the lines joined by line feeds are the current text, so
    nothing of the text is lost and an empty text gives one empty line. *)
Theorem first_version_draws_every_line
    (canEncode : StandardFont -> string -> bool)
    (blockStates : gmap string EditableBlockState) (doc : PDFDocument)
    (block : TextBlock) (st : EditableBlockState) (pg : PDFPage) :
  painted blockStates (doc_pages doc) block st pg ->
  (export_block_v1 canEncode blockStates doc block = None <->
   exists line, In line (split_lines (currentText st)) /\
                canEncode (useFont block) line = false) /\
  (forall doc', export_block_v1 canEncode blockStates doc block = Some doc' ->
     exists pg',
       page_at (doc_pages doc') (page block) = Some pg' /\
       pageHeight pg' = pageHeight pg /\
       drawn_texts pg' = drawn_texts pg ++ split_lines (currentText st)) /\
  EditorApi.join line_feed (split_lines (currentText st)) = currentText st /\
  Forall (fun l => has_line_feed l = false) (split_lines (currentText st)) /\
  split_lines (currentText st) <> [].
Proof.
  intros (Hst & Hd & Hpg). split; [|split; [|split; [|split]]].
  - unfold export_block_v1. rewrite Hst, Hd, Hpg. cbn [negb].
    apply draw_lines_None.
  - intros doc'. unfold export_block_v1. rewrite Hst, Hd, Hpg. cbn [negb].
    apply page_at_Some in Hpg. destruct Hpg as [Hn Hpg]. intros H.
    match type of H with
    | draw_lines _ ?n _ _ _ _ _ (draw ?n ?r doc) = _ =>
        destruct (draw_lines_texts _ _ _ _ _ _ _ _ _
                    {| pageHeight := pageHeight pg; items := items pg ++ [r] |}
                    ltac:(now rewrite draw_lookup_eq, Hpg) H)
          as (pg' & Hpg' & Hh & Ht)
    end.
    exists pg'. split; [apply page_at_Some; now split|]. split; [exact Hh|].
    rewrite Ht, drawn_texts_app. cbn. now rewrite app_nil_r.
  - unfold split_lines. now rewrite join_split_lines_from.
  - now apply split_lines_from_no_line_feed.
  - apply split_lines_from_nonempty.
Qed.

End FirstVersionLines.

Section OverlayExamples.
Import JsString FontMapper EditorTypes PdfExport.

Lemma coherent_empty : coherent ∅.
Proof. intros n info. rewrite lookup_empty. discriminate. Qed.

Lemma export_fails_exactly_on_text_without_width_witness :
  exportToPDF no_width ∅ one_page_doc [block_2024]
    {[ "block-1-0" := dirty_state ]} = None <->
  exists b st,
    In b [block_2024] /\
    ({[ "block-1-0" := dirty_state ]} : gmap string EditableBlockState) !! id b = Some st /\
    isDirty st = true /\
    is_Some (page_at (doc_pages one_page_doc) (page b)) /\
    no_width (pdfLibFont (parsePdfFont (font_name b))) (currentText st) (font_size b)
      = None.
Proof.
  exact (export_fails_exactly_on_text_without_width no_width
           {[ "block-1-0" := dirty_state ]} ∅ one_page_doc [block_2024]
           coherent_empty).
Defined.

Lemma export_draws_the_dirty_blocks_witness :
  (forall b st pg, In b [block_2024] ->
     painted {[ "block-1-0" := dirty_state ]} (doc_pages one_page_doc) b st pg ->
     exists tw pg' before after,
       half_em (pdfLibFont (parsePdfFont (font_name b)))
         (currentText st) (font_size b) = Some tw /\
       page_at (doc_pages exported_2025.1) (page b) = Some pg' /\
       items pg' = before ++ [ cover_of b (pageHeight pg) tw;
                               text_of b (pageHeight pg) (currentText st) ] ++ after) /\
  (forall n pg pg',
     doc_pages one_page_doc !! n = Some pg -> doc_pages exported_2025.1 !! n = Some pg' ->
     exists added,
       items pg' = items pg ++ added /\
       forall it, In it added ->
         exists b st tw,
           In b [block_2024] /\
           painted {[ "block-1-0" := dirty_state ]} (doc_pages one_page_doc) b st pg /\
           page b = Z.of_nat n /\
           half_em (pdfLibFont (parsePdfFont (font_name b)))
             (currentText st) (font_size b) = Some tw /\
           (it = cover_of b (pageHeight pg) tw \/
            it = text_of b (pageHeight pg) (currentText st))).
Proof.
  apply (export_draws_the_dirty_blocks half_em {[ "block-1-0" := dirty_state ]} ∅
           one_page_doc [block_2024] exported_2025).
  - exact coherent_empty.
  - vm_compute. reflexivity.
Defined.

Lemma first_version_draws_every_line_witness :
  (export_block_v1 printable_ascii {[ "block-1-0" := dirty_state ]}
     one_page_doc block_2024 = None <->
   exists line, In line (split_lines (currentText dirty_state)) /\
                printable_ascii (useFont block_2024) line = false) /\
  (forall doc',
     export_block_v1 printable_ascii {[ "block-1-0" := dirty_state ]}
       one_page_doc block_2024 = Some doc' ->
     exists pg',
       page_at (doc_pages doc') (page block_2024) = Some pg' /\
       pageHeight pg' = 842%float /\
       drawn_texts pg' = [] ++ split_lines (currentText dirty_state)) /\
  EditorApi.join line_feed (split_lines (currentText dirty_state))
    = currentText dirty_state /\
  Forall (fun l => has_line_feed l = false) (split_lines (currentText dirty_state)) /\
  split_lines (currentText dirty_state) <> [].
Proof.
  exact (first_version_draws_every_line printable_ascii
           {[ "block-1-0" := dirty_state ]}
           one_page_doc block_2024 dirty_state
           {| pageHeight := 842; items := [Original "BT (2024) Tj ET"] |}
           (conj eq_refl (conj eq_refl eq_refl))).
Defined.

(** The first version on the example document: the edited block is
    painted with the one line "2025"; a text with a character outside the
    example encoding (here U+0001) makes the export fail. *)
Example first_version_on_the_example :
  (doc_pages <$> exportToPDF_v1 printable_ascii one_page_doc [block_2024]
                   {[ "block-1-0" := dirty_state ]})
    ≫= (fun pgs => drawn_texts <$> pgs !! 0%nat)
    = Some ["2025"] /\
  exportToPDF_v1 printable_ascii one_page_doc [block_2024]
    {[ "block-1-0" :=
         {| state_id := "block-1-0"; originalText := "2024";
            currentText := String (ascii_of_nat 1) "2025";
            isEditing := false; isDirty := true; weakness := None |} ]} = None.
Proof. split; vm_compute; reflexivity. Qed.

End OverlayExamples.
